(** * ShKeeper: applying modifiers while keeping shape keys

    A shallow embedding of the add-on's [__init__.py] and the properties
    of its three operators ([sk.apply_mods], [sk.bake_shapekey_animation],
    [sk.toggle_shapekeys_drivers]).

    The add-on is a client of the host's scene graph.  The host is
    modelled as a store [Bpy] of datablocks addressed by identifiers
    (objects and meshes), together with the view-layer selection, the
    active object and the module-level globals of the add-on.  Python code
    becomes a computation in the monad [Py]: a state transformer over
    [Bpy] whose result is a value or a raised exception; the store that
    was built up before an exception is raised is kept.

    Host contract assumed throughout (the host is not part of the
    add-on's source):
    - property assignment stores the assigned value, except where the
      host limits the property: the slider bounds and the value of a
      shape key are clamped by their setters;
    - how many vertices a geometry has is the host's count, carried by
      the store as [vertex_count];
    - the host keeps names distinct, among the objects and among the
      shape keys of a container, by renaming the newcomer when a name is
      taken; renaming is not modelled: a name is stated as it is
      assigned, which is what the host stores when the name is free;
    - whether a newly linked object starts out selected, and the order in
      which the host lists a selection, are the host's own: the model
      leaves a new object unselected and lists a selection in the order
      in which it was made;
    - every host operator is synchronous and all-or-nothing: it either
      performs its mutation or raises and leaves the store as it was;
    - whether [modifier_apply] accepts a modifier is the host's verdict,
      carried by the modifier as [mod_applicable];
    - iterating a host collection visits the elements present when the
      loop starts (the host iterator is advanced before the loop body
      runs, so removing the current element does not disturb it). *)

From Stdlib Require Import QArith.QArith_base.
From stdpp Require Import gmap strings list fin_maps pretty.

Open Scope string_scope.
Open Scope list_scope.

(** ** Data model *)

(** Python floats are copied, set to literal constants or, for the
    position of a copy, offset by the add-on; rationals carry them.  The
    host keeps its properties in single precision: its rounding is not
    modelled. *)
Definition float := Q.
Bind Scope Q_scope with float.

Inductive ModType :=
  | SUBSURF
  | ARMATURE
  | OtherModifier (kind : string).

Definition ModType_str (t : ModType) : string :=
  match t with
  | SUBSURF => "SUBSURF"
  | ARMATURE => "ARMATURE"
  | OtherModifier k => k
  end.

Global Instance ModType_eq_dec : EqDecision ModType.
Proof. solve_decision. Defined.

Record Modifier := {
  mod_name : string;
  mod_type : ModType;
  show_only_control_edges : bool;
  mod_object : option nat;      (* [modifier.object], an object identifier *)
  mod_applicable : bool         (* host verdict for [modifier_apply] *)
}.

Global Instance Modifier_eq_dec : EqDecision Modifier.
Proof. solve_decision. Defined.

(** Geometry is kept symbolic: some vertex data, and the modifiers that
    were evaluated on top of it, innermost first. *)
Inductive Geom :=
  | Verts (tag : nat)
  | ModifierResult (m : Modifier) (g : Geom).

Inductive Interpolation :=
  | KEY_LINEAR | KEY_CARDINAL | KEY_CATMULL_ROM | KEY_BSPLINE.

Record ShapeKey := {
  sk_name : string;
  sk_mute : bool;
  sk_slider_min : float;
  sk_slider_max : float;
  sk_value : float;
  sk_interpolation : Interpolation;
  sk_lock_shape : bool;
  sk_vertex_group : string;
  sk_data : Geom
}.

Record Action := {
  act_name : string;
  act_keyframes : list (string * Z)     (* the keyed (data path, frame) pairs *)
}.

Inductive VarType :=
  | SINGLE_PROP | TRANSFORMS | ROTATION_DIFF | LOC_DIFF | CONTEXT_PROP.

Record DriverTarget := {
  tgt_id : option nat;
  tgt_data_path : string;
  tgt_bone_target : string;
  tgt_transform_space : string;
  tgt_transform_type : string
}.

Record DriverVariable := {
  var_name : string;
  var_type : VarType;
  var_targets : list DriverTarget
}.

(** A driver F-curve together with its [driver] settings. *)
Record Driver := {
  drv_data_path : string;
  drv_mute : bool;
  drv_type : string;
  drv_expression : string;
  drv_use_self : bool;
  drv_variables : list DriverVariable
}.

Record NlaStrip := {
  strip_name : string;
  strip_frame_start : float;
  strip_frame_end : float;
  strip_action : option Action;
  strip_action_frame_start : float;
  strip_action_frame_end : float;
  strip_blend_in : float;
  strip_blend_out : float;
  strip_use_auto_blend : bool;
  strip_extrapolation : string
}.

Record NlaTrack := {
  track_name : string;
  track_is_solo : bool;
  track_mute : bool;
  track_strips : list NlaStrip
}.

Record AnimData := {
  action : option Action;
  drivers : list Driver;
  nla_tracks : list NlaTrack
}.

(** The shape-key container ([Key] datablock) of a mesh.  A container is
    owned by exactly one mesh, so it is stored inside it; objects that
    share a mesh share its container. *)
Record Key := {
  key_name : string;
  key_blocks : list ShapeKey;
  animation_data : option AnimData
}.

Record Mesh := {
  shape_keys : option Key;
  geometry : Geom
}.

Record Bone := {
  bone_location : float * float * float;
  bone_rotation_quaternion : float * float * float * float;
  bone_rotation_euler : float * float * float
}.

Inductive ObType := MESH | ARMATURE_OBJECT | OtherObject (kind : string).

Global Instance ObType_eq_dec : EqDecision ObType.
Proof. solve_decision. Defined.

Record Object := {
  obj_name : string;
  obj_type : ObType;
  data : nat;                     (* identifier of the object's datablock *)
  modifiers : list Modifier;
  location_x : float;
  pose : option (list Bone)       (* [None] unless the object is an armature *)
}.

Inductive ReportLevel := INFO | WARNING | ERROR.

Inductive Status := FINISHED | CANCELLED.

(** Host calls whose order or number matters to a property are logged. *)
Inductive Event :=
  | EvSetControlEdges (ob : nat) (modifier : string) (v : bool)
  | EvModifierApply (ob : nat) (modifier : string)
  | EvModifierRemove (ob : nat) (modifier : string)
  | EvResetPose (ob : nat).

Global Instance Event_eq_dec : EqDecision Event.
Proof. solve_decision. Defined.

(** ** The host store *)

Record Bpy := {
  objects : gmap nat Object;              (* bpy.data.objects *)
  meshes : gmap nat Mesh;                 (* bpy.data.meshes *)
  next_id : nat;                          (* next fresh identifier *)
  scene_objects : list nat;               (* bpy.context.scene.objects *)
  selected : list nat;                    (* bpy.context.selected_objects *)
  active : option nat;                    (* view_layer.objects.active *)
  scene_frame_start : Z;
  scene_frame_end : Z;
  frame_current : Z;
  BAKE_SHAPEKEY_ANIMATION_FRAME_START : option Z;
  BAKE_SHAPEKEY_ANIMATION_FRAME_END : option Z;
  BAKE_SHAPEKEY_ANIMATION_EXECUTE : bool;
  reports : list (ReportLevel * string);
  trace : list Event;
  vertex_count : Geom → nat               (* the host's count of vertices *)
}.

Definition set_objects (f : gmap nat Object → gmap nat Object) (s : Bpy) : Bpy :=
  {| objects := f (objects s); meshes := meshes s; next_id := next_id s;
     scene_objects := scene_objects s; selected := selected s; active := active s;
     scene_frame_start := scene_frame_start s; scene_frame_end := scene_frame_end s;
     frame_current := frame_current s;
     BAKE_SHAPEKEY_ANIMATION_FRAME_START := BAKE_SHAPEKEY_ANIMATION_FRAME_START s;
     BAKE_SHAPEKEY_ANIMATION_FRAME_END := BAKE_SHAPEKEY_ANIMATION_FRAME_END s;
     BAKE_SHAPEKEY_ANIMATION_EXECUTE := BAKE_SHAPEKEY_ANIMATION_EXECUTE s;
     reports := reports s; trace := trace s;
     vertex_count := vertex_count s |}.

Definition set_meshes (f : gmap nat Mesh → gmap nat Mesh) (s : Bpy) : Bpy :=
  {| objects := objects s; meshes := f (meshes s); next_id := next_id s;
     scene_objects := scene_objects s; selected := selected s; active := active s;
     scene_frame_start := scene_frame_start s; scene_frame_end := scene_frame_end s;
     frame_current := frame_current s;
     BAKE_SHAPEKEY_ANIMATION_FRAME_START := BAKE_SHAPEKEY_ANIMATION_FRAME_START s;
     BAKE_SHAPEKEY_ANIMATION_FRAME_END := BAKE_SHAPEKEY_ANIMATION_FRAME_END s;
     BAKE_SHAPEKEY_ANIMATION_EXECUTE := BAKE_SHAPEKEY_ANIMATION_EXECUTE s;
     reports := reports s; trace := trace s;
     vertex_count := vertex_count s |}.

Definition set_next_id (n : nat) (s : Bpy) : Bpy :=
  {| objects := objects s; meshes := meshes s; next_id := n;
     scene_objects := scene_objects s; selected := selected s; active := active s;
     scene_frame_start := scene_frame_start s; scene_frame_end := scene_frame_end s;
     frame_current := frame_current s;
     BAKE_SHAPEKEY_ANIMATION_FRAME_START := BAKE_SHAPEKEY_ANIMATION_FRAME_START s;
     BAKE_SHAPEKEY_ANIMATION_FRAME_END := BAKE_SHAPEKEY_ANIMATION_FRAME_END s;
     BAKE_SHAPEKEY_ANIMATION_EXECUTE := BAKE_SHAPEKEY_ANIMATION_EXECUTE s;
     reports := reports s; trace := trace s;
     vertex_count := vertex_count s |}.

Definition set_scene_objects (f : list nat → list nat) (s : Bpy) : Bpy :=
  {| objects := objects s; meshes := meshes s; next_id := next_id s;
     scene_objects := f (scene_objects s); selected := selected s; active := active s;
     scene_frame_start := scene_frame_start s; scene_frame_end := scene_frame_end s;
     frame_current := frame_current s;
     BAKE_SHAPEKEY_ANIMATION_FRAME_START := BAKE_SHAPEKEY_ANIMATION_FRAME_START s;
     BAKE_SHAPEKEY_ANIMATION_FRAME_END := BAKE_SHAPEKEY_ANIMATION_FRAME_END s;
     BAKE_SHAPEKEY_ANIMATION_EXECUTE := BAKE_SHAPEKEY_ANIMATION_EXECUTE s;
     reports := reports s; trace := trace s;
     vertex_count := vertex_count s |}.

Definition set_selected (f : list nat → list nat) (s : Bpy) : Bpy :=
  {| objects := objects s; meshes := meshes s; next_id := next_id s;
     scene_objects := scene_objects s; selected := f (selected s); active := active s;
     scene_frame_start := scene_frame_start s; scene_frame_end := scene_frame_end s;
     frame_current := frame_current s;
     BAKE_SHAPEKEY_ANIMATION_FRAME_START := BAKE_SHAPEKEY_ANIMATION_FRAME_START s;
     BAKE_SHAPEKEY_ANIMATION_FRAME_END := BAKE_SHAPEKEY_ANIMATION_FRAME_END s;
     BAKE_SHAPEKEY_ANIMATION_EXECUTE := BAKE_SHAPEKEY_ANIMATION_EXECUTE s;
     reports := reports s; trace := trace s;
     vertex_count := vertex_count s |}.

Definition set_active (a : option nat) (s : Bpy) : Bpy :=
  {| objects := objects s; meshes := meshes s; next_id := next_id s;
     scene_objects := scene_objects s; selected := selected s; active := a;
     scene_frame_start := scene_frame_start s; scene_frame_end := scene_frame_end s;
     frame_current := frame_current s;
     BAKE_SHAPEKEY_ANIMATION_FRAME_START := BAKE_SHAPEKEY_ANIMATION_FRAME_START s;
     BAKE_SHAPEKEY_ANIMATION_FRAME_END := BAKE_SHAPEKEY_ANIMATION_FRAME_END s;
     BAKE_SHAPEKEY_ANIMATION_EXECUTE := BAKE_SHAPEKEY_ANIMATION_EXECUTE s;
     reports := reports s; trace := trace s;
     vertex_count := vertex_count s |}.

Definition set_frame_current (f : Z) (s : Bpy) : Bpy :=
  {| objects := objects s; meshes := meshes s; next_id := next_id s;
     scene_objects := scene_objects s; selected := selected s; active := active s;
     scene_frame_start := scene_frame_start s; scene_frame_end := scene_frame_end s;
     frame_current := f;
     BAKE_SHAPEKEY_ANIMATION_FRAME_START := BAKE_SHAPEKEY_ANIMATION_FRAME_START s;
     BAKE_SHAPEKEY_ANIMATION_FRAME_END := BAKE_SHAPEKEY_ANIMATION_FRAME_END s;
     BAKE_SHAPEKEY_ANIMATION_EXECUTE := BAKE_SHAPEKEY_ANIMATION_EXECUTE s;
     reports := reports s; trace := trace s;
     vertex_count := vertex_count s |}.

Definition set_bake_globals (fs fe : option Z) (ex : bool) (s : Bpy) : Bpy :=
  {| objects := objects s; meshes := meshes s; next_id := next_id s;
     scene_objects := scene_objects s; selected := selected s; active := active s;
     scene_frame_start := scene_frame_start s; scene_frame_end := scene_frame_end s;
     frame_current := frame_current s;
     BAKE_SHAPEKEY_ANIMATION_FRAME_START := fs;
     BAKE_SHAPEKEY_ANIMATION_FRAME_END := fe;
     BAKE_SHAPEKEY_ANIMATION_EXECUTE := ex;
     reports := reports s; trace := trace s;
     vertex_count := vertex_count s |}.

Definition add_report (r : ReportLevel * string) (s : Bpy) : Bpy :=
  {| objects := objects s; meshes := meshes s; next_id := next_id s;
     scene_objects := scene_objects s; selected := selected s; active := active s;
     scene_frame_start := scene_frame_start s; scene_frame_end := scene_frame_end s;
     frame_current := frame_current s;
     BAKE_SHAPEKEY_ANIMATION_FRAME_START := BAKE_SHAPEKEY_ANIMATION_FRAME_START s;
     BAKE_SHAPEKEY_ANIMATION_FRAME_END := BAKE_SHAPEKEY_ANIMATION_FRAME_END s;
     BAKE_SHAPEKEY_ANIMATION_EXECUTE := BAKE_SHAPEKEY_ANIMATION_EXECUTE s;
     reports := reports s ++ [r]; trace := trace s;
     vertex_count := vertex_count s |}.

Definition add_event (e : Event) (s : Bpy) : Bpy :=
  {| objects := objects s; meshes := meshes s; next_id := next_id s;
     scene_objects := scene_objects s; selected := selected s; active := active s;
     scene_frame_start := scene_frame_start s; scene_frame_end := scene_frame_end s;
     frame_current := frame_current s;
     BAKE_SHAPEKEY_ANIMATION_FRAME_START := BAKE_SHAPEKEY_ANIMATION_FRAME_START s;
     BAKE_SHAPEKEY_ANIMATION_FRAME_END := BAKE_SHAPEKEY_ANIMATION_FRAME_END s;
     BAKE_SHAPEKEY_ANIMATION_EXECUTE := BAKE_SHAPEKEY_ANIMATION_EXECUTE s;
     reports := reports s; trace := trace s ++ [e];
     vertex_count := vertex_count s |}.

(** ** Python computations *)

Inductive Exn :=
  | AttributeError | IndexError | TypeError | ReferenceError | RuntimeError.

Inductive Res (A : Type) :=
  | Ok (a : A)
  | Raise (e : Exn).
Arguments Ok {A} a.
Arguments Raise {A} e.

Definition Py (A : Type) : Type := Bpy → Res A * Bpy.

Global Instance Py_ret : MRet Py := λ A a s, (Ok a, s).

Global Instance Py_bind : MBind Py := λ A B f m s,
  match m s with
  | (Ok a, s') => f a s'
  | (Raise e, s') => (Raise e, s')
  end.

Definition raise {A} (e : Exn) : Py A := λ s, (Raise e, s).
Definition get_state : Py Bpy := λ s, (Ok s, s).
Definition modify (f : Bpy → Bpy) : Py unit := λ s, (Ok tt, f s).

(** [try: body except: handler] with a bare [except]. *)
Definition try_except {A} (body handler : Py A) : Py A := λ s,
  match body s with
  | (Ok a, s') => (Ok a, s')
  | (Raise _, s') => handler s'
  end.

(** [for x in l: body x] over the elements present when the loop starts. *)
Fixpoint for_each {A} (l : list A) (body : A → Py unit) : Py unit :=
  match l with
  | [] => mret tt
  | x :: l' => body x ;; for_each l' body
  end.

(** [self.report({level}, msg)] *)
Definition report (lvl : ReportLevel) (msg : string) : Py unit :=
  modify (add_report (lvl, msg)).

(** ** Host primitives *)

(** Dereferencing a datablock that has been removed raises. *)
Definition get_object (ob : nat) : Py Object := λ s,
  match objects s !! ob with
  | Some o => (Ok o, s)
  | None => (Raise ReferenceError, s)
  end.

Definition get_mesh (me : nat) : Py Mesh := λ s,
  match meshes s !! me with
  | Some m => (Ok m, s)
  | None => (Raise ReferenceError, s)
  end.

Definition put_object (ob : nat) (o : Object) : Py unit :=
  modify (set_objects <[ob := o]>).

Definition put_mesh (me : nat) (m : Mesh) : Py unit :=
  modify (set_meshes <[me := m]>).

(** [obj.data] of a mesh object *)
Definition object_mesh (ob : nat) : Py (nat * Mesh) :=
  o ← get_object ob; m ← get_mesh (data o); mret (data o, m).

Definition with_obj_name (n : string) (o : Object) : Object :=
  {| obj_name := n; obj_type := obj_type o; data := data o;
     modifiers := modifiers o; location_x := location_x o; pose := pose o |}.

Definition with_data (d : nat) (o : Object) : Object :=
  {| obj_name := obj_name o; obj_type := obj_type o; data := d;
     modifiers := modifiers o; location_x := location_x o; pose := pose o |}.

Definition with_modifiers (ms : list Modifier) (o : Object) : Object :=
  {| obj_name := obj_name o; obj_type := obj_type o; data := data o;
     modifiers := ms; location_x := location_x o; pose := pose o |}.

Definition with_location_x (x : float) (o : Object) : Object :=
  {| obj_name := obj_name o; obj_type := obj_type o; data := data o;
     modifiers := modifiers o; location_x := x; pose := pose o |}.

Definition with_pose (p : option (list Bone)) (o : Object) : Object :=
  {| obj_name := obj_name o; obj_type := obj_type o; data := data o;
     modifiers := modifiers o; location_x := location_x o; pose := p |}.

Definition with_shape_keys (k : option Key) (m : Mesh) : Mesh :=
  {| shape_keys := k; geometry := geometry m |}.

Definition with_geometry (g : Geom) (m : Mesh) : Mesh :=
  {| shape_keys := shape_keys m; geometry := g |}.

Definition with_key_blocks (ks : list ShapeKey) (k : Key) : Key :=
  {| key_name := key_name k; key_blocks := ks; animation_data := animation_data k |}.

Definition with_key_name (n : string) (k : Key) : Key :=
  {| key_name := n; key_blocks := key_blocks k; animation_data := animation_data k |}.

Definition with_animation_data (a : option AnimData) (k : Key) : Key :=
  {| key_name := key_name k; key_blocks := key_blocks k; animation_data := a |}.

(** Fresh identifier for a new datablock. *)
Definition fresh_id : Py nat := λ s, (Ok (next_id s), set_next_id (S (next_id s)) s).

(** [obj.copy()]: a new object sharing the source's data, not yet linked
    to any collection. *)
Definition object_copy (ob : nat) : Py nat :=
  o ← get_object ob; c ← fresh_id; put_object c o ;; mret c.

(** [mesh.copy()]: a new mesh with its own geometry and its own copy of
    the shape-key container. *)
Definition mesh_copy (me : nat) : Py nat :=
  m ← get_mesh me; c ← fresh_id; put_mesh c m ;; mret c.

(** [bpy.context.collection.objects.link(obj)] *)
Definition collection_link (ob : nat) : Py unit :=
  modify (set_scene_objects (λ l, l ++ [ob])).

(** [obj.select_set(state)] *)
Definition select_set (ob : nat) (state : bool) : Py unit :=
  modify (set_selected (λ l,
    if state then (if decide (ob ∈ l) then l else l ++ [ob])
    else filter (λ x, x ≠ ob) l)).

(** [bpy.context.view_layer.objects.active = obj] *)
Definition set_active_object (ob : nat) : Py unit :=
  modify (set_active (Some ob)).

(** [bpy.ops.object.select_all(action="DESELECT")] *)
Definition select_all_DESELECT : Py unit :=
  modify (set_selected (λ _, [])).

(** [obj.shape_key_remove(shapekeys[i])], where [shapekeys] is the
    [key_blocks] collection of [obj]'s container.  Indexing raises when
    [i] is out of range or the container is gone.  Removing the reference
    key (index 0) makes the next key the reference and writes its shape
    into the mesh; removing the last key frees the container and leaves
    the mesh in the shape it has. *)
Definition shape_key_remove_at (i : nat) (m : Mesh) : Res Mesh :=
  match shape_keys m with
  | None => Raise ReferenceError
  | Some k =>
      match key_blocks k !! i with
      | None => Raise IndexError
      | Some _ =>
          match delete i (key_blocks k) with
          | [] => Ok (with_shape_keys None m)
          | first :: rest =>
              Ok {| shape_keys := Some (with_key_blocks (first :: rest) k);
                    geometry := match i with
                                | O => sk_data first
                                | S _ => geometry m
                                end |}
          end
      end
  end.

Definition shape_key_remove (ob : nat) (i : nat) : Py unit :=
  '(me, m) ← object_mesh ob;
  match shape_key_remove_at i m with
  | Ok m' => put_mesh me m'
  | Raise e => raise e
  end.

Definition find_modifier (name : string) (ms : list Modifier) : option Modifier :=
  list_find (λ m, mod_name m = name) ms ≫= λ p, Some (snd p).

Definition remove_modifier (name : string) (ms : list Modifier) : list Modifier :=
  match list_find (λ m, mod_name m = name) ms with
  | Some (i, _) => delete i ms
  | None => ms
  end.

(** [bpy.ops.object.modifier_apply(modifier=name)]: acts on the active
    object.  On success the modifier leaves the stack and its result is
    written into the object's mesh; otherwise the operator raises. *)
Definition modifier_apply (name : string) : Py unit :=
  s ← get_state;
  match active s with
  | None => raise RuntimeError
  | Some ob =>
      modify (add_event (EvModifierApply ob name)) ;;
      o ← get_object ob;
      match find_modifier name (modifiers o) with
      | None => raise TypeError
      | Some md =>
          if mod_applicable md then
            m ← get_mesh (data o);
            put_mesh (data o) (with_geometry (ModifierResult md (geometry m)) m) ;;
            put_object ob (with_modifiers (remove_modifier name (modifiers o)) o)
          else raise RuntimeError
      end
  end.

(** [bpy.ops.object.modifier_remove(modifier=name)] *)
Definition modifier_remove (name : string) : Py unit :=
  s ← get_state;
  match active s with
  | None => raise RuntimeError
  | Some ob =>
      modify (add_event (EvModifierRemove ob name)) ;;
      o ← get_object ob;
      match find_modifier name (modifiers o) with
      | None => raise TypeError
      | Some _ => put_object ob (with_modifiers (remove_modifier name (modifiers o)) o)
      end
  end.

(** The modifier kinds that only move vertices, as the host classes them. *)
Definition deform_only_kinds : list string :=
  ["CAST"; "CURVE"; "DISPLACE"; "HOOK"; "LAPLACIANDEFORM"; "LATTICE";
   "MESH_DEFORM"; "SHRINKWRAP"; "SIMPLE_DEFORM"; "SMOOTH"; "CORRECTIVE_SMOOTH";
   "LAPLACIANSMOOTH"; "SURFACE_DEFORM"; "WARP"; "WAVE"; "MESH_CACHE";
   "CLOTH"; "SOFT_BODY"; "COLLISION"; "SURFACE"; "PARTICLE_SYSTEM"].

Definition deform_only (md : Modifier) : bool :=
  match mod_type md with
  | ARMATURE => true
  | SUBSURF => false
  | OtherModifier kind => bool_decide (kind ∈ deform_only_kinds)
  end.

(** The deform-only modifiers at the head of a stack. *)
Fixpoint leading_deform (ms : list Modifier) : list Modifier :=
  match ms with
  | md :: rest => if deform_only md then md :: leading_deform rest else []
  | [] => []
  end.

(** The deformed shape the host evaluates for an object: its mesh under
    the deform-only modifiers at the head of its stack. *)
Definition deformed_geometry (o : Object) (m : Mesh) : Geom :=
  fold_left (λ g md, ModifierResult md g) (leading_deform (modifiers o)) (geometry m).

Definition new_shape_key (name : string) (g : Geom) : ShapeKey :=
  {| sk_name := name; sk_mute := false; sk_slider_min := 0%Q; sk_slider_max := 1%Q;
     sk_value := 0%Q; sk_interpolation := KEY_LINEAR; sk_lock_shape := false;
     sk_vertex_group := ""; sk_data := g |}.

(** One source of [join_shapes].  The host takes a source only if it is
    a mesh object whose mesh has as many vertices as the destination's;
    any other source is passed over without an error.  For a source it
    takes, the destination gets a basis key first if it has no
    container yet, then one new key at the end, named after the source
    object and holding its deformed shape.  Only geometry is
    transferred.  (The sources of the add-on have no shape keys of their
    own; the mix of a source's own keys is not modelled.) *)
Definition join_shape (dst src : nat) : Py unit :=
  so ← get_object src;
  if decide (obj_type so = MESH) then
    '(_, sm) ← object_mesh src;
    '(dme, dm) ← object_mesh dst;
    s ← get_state;
    if decide (vertex_count s (geometry sm) = vertex_count s (geometry dm)) then
      let k := match shape_keys dm with
               | Some k => k
               | None => {| key_name := "Key";
                            key_blocks := [new_shape_key "Basis" (geometry dm)];
                            animation_data := None |}
               end in
      put_mesh dme (with_shape_keys
        (Some (with_key_blocks
           (key_blocks k ++ [new_shape_key (obj_name so) (deformed_geometry so sm)]) k)) dm)
    else mret tt
  else mret tt.

(** [bpy.ops.object.join_shapes()]: every selected mesh object other than
    the active one that the host takes is added to the active object as
    a shape key. *)
Definition join_shapes : Py unit :=
  s ← get_state;
  match active s with
  | None => raise RuntimeError
  | Some dst =>
      for_each (filter (λ x, x ≠ dst) (selected s)) (join_shape dst)
  end.

(** [bpy.data.objects.remove(obj)] *)
Definition objects_remove (ob : nat) : Py unit :=
  _ ← get_object ob;
  modify (set_objects (delete ob)) ;;
  modify (set_scene_objects (filter (λ x, x ≠ ob))) ;;
  modify (set_selected (filter (λ x, x ≠ ob))) ;;
  s ← get_state;
  if decide (active s = Some ob) then modify (set_active None) else mret tt.

(** [bpy.data.meshes.remove(mesh)] *)
Definition meshes_remove (me : nat) : Py unit :=
  _ ← get_mesh me;
  modify (set_meshes (delete me)).

Global Instance Res_ret : MRet Res := λ A a, Ok a.

Global Instance Res_bind : MBind Res := λ A B f m,
  match m with
  | Ok a => f a
  | Raise e => Raise e
  end.

Definition lift_res {A} (r : Res A) : Py A := λ s, (r, s).

(** [for x in l: acc = body acc x], for loops that carry local variables. *)
Fixpoint for_fold {A S} (l : list A) (acc : S) (body : S → A → Py S) : Py S :=
  match l with
  | [] => mret acc
  | x :: l' => acc' ← body acc x; for_fold l' acc' body
  end.

(** [[x for x in l if p x]] *)
Fixpoint comprehension {A} (l : list A) (p : A → Py bool) : Py (list A) :=
  match l with
  | [] => mret []
  | x :: l' =>
      b ← p x; rest ← comprehension l' p;
      mret (if b : bool then x :: rest else rest)
  end.

Definition update_object (ob : nat) (f : Object → Object) : Py unit :=
  o ← get_object ob; put_object ob (f o).

(** [obj.data.shape_keys], as an optional container *)
Definition obj_shape_keys (ob : nat) : Py (option Key) :=
  '(_, m) ← object_mesh ob; mret (shape_keys m).

(** [obj.data.shape_keys.key_blocks[i]], read *)
Definition key_block (ob : nat) (i : nat) : Py ShapeKey :=
  ks ← obj_shape_keys ob;
  match ks with
  | None => raise AttributeError
  | Some k =>
      match key_blocks k !! i with
      | None => raise IndexError
      | Some sk => mret sk
      end
  end.

(** [obj.data.shape_keys.key_blocks[i].attr = v], written through [f] *)
Definition update_key_block (ob : nat) (i : nat) (f : ShapeKey → ShapeKey) : Py unit :=
  '(me, m) ← object_mesh ob;
  match shape_keys m with
  | None => raise AttributeError
  | Some k =>
      match key_blocks k !! i with
      | None => raise IndexError
      | Some sk => put_mesh me (with_shape_keys (Some (with_key_blocks (<[i := f sk]> (key_blocks k)) k)) m)
      end
  end.

Definition with_sk_name (v : string) (k : ShapeKey) : ShapeKey :=
  {| sk_name := v; sk_mute := sk_mute k; sk_slider_min := sk_slider_min k;
     sk_slider_max := sk_slider_max k; sk_value := sk_value k;
     sk_interpolation := sk_interpolation k; sk_lock_shape := sk_lock_shape k;
     sk_vertex_group := sk_vertex_group k; sk_data := sk_data k |}.

Definition with_sk_mute (v : bool) (k : ShapeKey) : ShapeKey :=
  {| sk_name := sk_name k; sk_mute := v; sk_slider_min := sk_slider_min k;
     sk_slider_max := sk_slider_max k; sk_value := sk_value k;
     sk_interpolation := sk_interpolation k; sk_lock_shape := sk_lock_shape k;
     sk_vertex_group := sk_vertex_group k; sk_data := sk_data k |}.

Definition with_sk_slider_min (v : float) (k : ShapeKey) : ShapeKey :=
  {| sk_name := sk_name k; sk_mute := sk_mute k; sk_slider_min := v;
     sk_slider_max := sk_slider_max k; sk_value := sk_value k;
     sk_interpolation := sk_interpolation k; sk_lock_shape := sk_lock_shape k;
     sk_vertex_group := sk_vertex_group k; sk_data := sk_data k |}.

Definition with_sk_slider_max (v : float) (k : ShapeKey) : ShapeKey :=
  {| sk_name := sk_name k; sk_mute := sk_mute k; sk_slider_min := sk_slider_min k;
     sk_slider_max := v; sk_value := sk_value k;
     sk_interpolation := sk_interpolation k; sk_lock_shape := sk_lock_shape k;
     sk_vertex_group := sk_vertex_group k; sk_data := sk_data k |}.

Definition with_sk_value (v : float) (k : ShapeKey) : ShapeKey :=
  {| sk_name := sk_name k; sk_mute := sk_mute k; sk_slider_min := sk_slider_min k;
     sk_slider_max := sk_slider_max k; sk_value := v;
     sk_interpolation := sk_interpolation k; sk_lock_shape := sk_lock_shape k;
     sk_vertex_group := sk_vertex_group k; sk_data := sk_data k |}.

Definition with_sk_interpolation (v : Interpolation) (k : ShapeKey) : ShapeKey :=
  {| sk_name := sk_name k; sk_mute := sk_mute k; sk_slider_min := sk_slider_min k;
     sk_slider_max := sk_slider_max k; sk_value := sk_value k;
     sk_interpolation := v; sk_lock_shape := sk_lock_shape k;
     sk_vertex_group := sk_vertex_group k; sk_data := sk_data k |}.

Definition with_sk_lock_shape (v : bool) (k : ShapeKey) : ShapeKey :=
  {| sk_name := sk_name k; sk_mute := sk_mute k; sk_slider_min := sk_slider_min k;
     sk_slider_max := sk_slider_max k; sk_value := sk_value k;
     sk_interpolation := sk_interpolation k; sk_lock_shape := v;
     sk_vertex_group := sk_vertex_group k; sk_data := sk_data k |}.

Definition with_sk_vertex_group (v : string) (k : ShapeKey) : ShapeKey :=
  {| sk_name := sk_name k; sk_mute := sk_mute k; sk_slider_min := sk_slider_min k;
     sk_slider_max := sk_slider_max k; sk_value := sk_value k;
     sk_interpolation := sk_interpolation k; sk_lock_shape := sk_lock_shape k;
     sk_vertex_group := v; sk_data := sk_data k |}.

(** The host's [CLAMP(v, lo, hi)]. *)
Definition clamp (lo hi v : float) : float :=
  if Qlt_le_dec v lo then lo else if Qlt_le_dec hi v then hi else v.

(** How close the host lets one slider bound of a shape key come to the
    other. *)
Definition SHAPEKEY_SLIDER_TOL : float := 1 # 1000.

(** [sk.slider_min = v]: the host keeps the lower bound within
    [-10, slider_max - 0.001]. *)
Definition set_slider_min (v : float) (k : ShapeKey) : ShapeKey :=
  with_sk_slider_min (clamp (-10) (sk_slider_max k - SHAPEKEY_SLIDER_TOL) v) k.

(** [sk.slider_max = v]: the host keeps the upper bound within
    [slider_min + 0.001, 10]. *)
Definition set_slider_max (v : float) (k : ShapeKey) : ShapeKey :=
  with_sk_slider_max (clamp (sk_slider_min k + SHAPEKEY_SLIDER_TOL) 10 v) k.

(** [sk.value = v]: the host keeps the value between the slider bounds. *)
Definition set_value (v : float) (k : ShapeKey) : ShapeKey :=
  with_sk_value (clamp (sk_slider_min k) (sk_slider_max k) v) k.

(** ** The add-on's helper functions *)

(** [copy_object(obj, times, offset)] *)
Definition copy_object (obj : nat) (times : nat) (offset : float) : Py (list nat) :=
  for_fold (seq 0 times) [] (λ objects i,
    copy_obj ← object_copy obj;
    o ← get_object obj;
    new_data ← mesh_copy (data o);
    update_object copy_obj (with_data new_data) ;;
    o ← get_object obj;
    update_object copy_obj (with_obj_name (obj_name o +:+ "_shapekey_" +:+ pretty (i + 1)%nat)) ;;
    update_object copy_obj (λ c,
      with_location_x (location_x c + offset * inject_Z (Z.of_nat (i + 1)))%Q c) ;;
    collection_link copy_obj ;;
    mret (objects ++ [copy_obj])).

(** [copy_object(obj, times=1, offset=0)[0]] *)
Definition copy_object_0 (obj : nat) : Py nat :=
  l ← copy_object obj 1 0%Q;
  match l with
  | c :: _ => mret c
  | [] => raise IndexError
  end.

(** [apply_shapekey(obj, sk_keep)] *)
Definition apply_shapekey (obj : nat) (sk_keep : Z) : Py unit :=
  shapekeys ← obj_shape_keys obj;
  match shapekeys with
  | None => raise AttributeError
  | Some k =>
      let len := length (key_blocks k) in
      (* check for valid index *)
      if (sk_keep <? 0)%Z || (sk_keep >? Z.of_nat len)%Z then mret tt
      else
        (* remove all other shapekeys *)
        for_each (rev (seq 0 len)) (λ i,
          if decide (Z.of_nat i ≠ sk_keep) then shape_key_remove obj i else mret tt) ;;
        (* remove the chosen one and bake it into the object *)
        shape_key_remove obj 0
  end.

Definition with_show_only_control_edges (v : bool) (m : Modifier) : Modifier :=
  {| mod_name := mod_name m; mod_type := mod_type m; show_only_control_edges := v;
     mod_object := mod_object m; mod_applicable := mod_applicable m |}.

(** [modifier.show_only_control_edges = v] for the modifier at position
    [i] of [obj.modifiers] *)
Definition set_show_only_control_edges (obj : nat) (i : nat) (v : bool) : Py unit :=
  o ← get_object obj;
  match modifiers o !! i with
  | None => raise ReferenceError
  | Some md =>
      modify (add_event (EvSetControlEdges obj (mod_name md) v)) ;;
      put_object obj (with_modifiers (<[i := with_show_only_control_edges v md]> (modifiers o)) o)
  end.

Definition invalid_modifier_message (md : Modifier) (o : Object) : string :=
  "Removed invalid modifier " +:+ mod_name md +:+ " (" +:+ ModType_str (mod_type md)
    +:+ ") from " +:+ obj_name o.

(** [apply_modifiers(self, obj)] *)
Definition apply_modifiers (obj : nat) : Py unit :=
  o ← get_object obj;
  for_each (imap pair (modifiers o)) (λ '(i, modifier),
    if decide (mod_type modifier = SUBSURF)
    then set_show_only_control_edges obj i false
    else mret tt) ;;
  s ← get_state;
  for_each (scene_objects s) (λ o, select_set o false) ;;
  select_set obj true ;;
  set_active_object obj ;;
  o ← get_object obj;
  for_each (modifiers o) (λ md,
    if decide (mod_type md ≠ ARMATURE) then
      try_except
        (modifier_apply (mod_name md))
        (o ← get_object obj;
         report INFO (invalid_modifier_message md o) ;;
         modifier_remove (mod_name md))
    else mret tt).

Definition reset_bone (b : Bone) : Bone :=
  let b := {| bone_location := (0, 0, 0)%Q;
              bone_rotation_quaternion := bone_rotation_quaternion b;
              bone_rotation_euler := bone_rotation_euler b |} in
  let b := {| bone_location := bone_location b;
              bone_rotation_quaternion := (1, 0, 0, 0)%Q;
              bone_rotation_euler := bone_rotation_euler b |} in
  let b := {| bone_location := bone_location b;
              bone_rotation_quaternion := bone_rotation_quaternion b;
              bone_rotation_euler := (0, 0, 0)%Q |} in
  {| bone_location := bone_location b;
     bone_rotation_quaternion := bone_rotation_quaternion b;
     bone_rotation_euler := (1, 1, 1)%Q |}.

(** [reset_pose(obj)] *)
Definition reset_pose (obj : nat) : Py unit :=
  modify (add_event (EvResetPose obj)) ;;
  o ← get_object obj;
  match pose o with
  | None => raise AttributeError
  | Some bones => put_object obj (with_pose (Some (map reset_bone bones)) o)
  end.

(** [remove_modifiers(obj)] *)
Definition remove_modifiers (obj : nat) : Py unit :=
  o ← get_object obj;
  for_each (rev (seq 0 (length (modifiers o)))) (λ i,
    o ← get_object obj;
    match modifiers o !! i with
    | None => raise IndexError
    | Some _ => put_object obj (with_modifiers (delete i (modifiers o)) o)
    end).

(** [add_objs_shapekeys(destination, sources)] *)
Definition add_objs_shapekeys (destination : nat) (sources : list nat) : Py unit :=
  s ← get_state;
  for_each (scene_objects s) (λ o, select_set o false) ;;
  for_each sources (λ src, select_set src true) ;;
  set_active_object destination ;;
  join_shapes.

(** Values a Python list can hold here: references to objects and to
    modifiers.  Two references are equal when they denote the same
    datablock; an object is never equal to a modifier. *)
Inductive PyRef :=
  | RefObject (ob : nat)
  | RefModifier (owner : nat) (index : nat).

Global Instance PyRef_eq_dec : EqDecision PyRef.
Proof. solve_decision. Defined.

(** [next((m for m in obj.modifiers if m.type == "ARMATURE" and m.object), None)] *)
Definition first_armature_modifier (ms : list Modifier) : option (nat * Modifier) :=
  list_find (λ m, mod_type m = ARMATURE ∧ is_Some (mod_object m)) ms.

(** [reset_armature_pose(objects)] *)
Definition reset_armature_pose (objects : list nat) : Py unit :=
  for_fold objects ([] : list PyRef) (λ processed_armature obj,
    o ← get_object obj;
    match first_armature_modifier (modifiers o) with
    | Some (i, armature) =>
        match mod_object armature with
        | Some armature_object =>
            if decide (RefObject armature_object ∉ processed_armature) then
              reset_pose armature_object ;;
              mret (processed_armature ++ [RefModifier obj i])
            else mret processed_armature
        | None => mret processed_armature
        end
    | None => mret processed_armature
    end) ;;
  mret tt.

(** ** Animation data of a shape-key container

    A container is addressed by the identifier of the mesh that owns it. *)

Definition get_key (key : nat) : Py Key :=
  m ← get_mesh key;
  match shape_keys m with
  | None => raise ReferenceError
  | Some k => mret k
  end.

Definition update_key (key : nat) (f : Key → Key) : Py unit :=
  m ← get_mesh key;
  match shape_keys m with
  | None => raise ReferenceError
  | Some k => put_mesh key (with_shape_keys (Some (f k)) m)
  end.

(** [obj.data.shape_keys.key_blocks[0].id_data] *)
Definition key_blocks_0_id_data (ob : nat) : Py nat :=
  '(me, m) ← object_mesh ob;
  match shape_keys m with
  | None => raise AttributeError
  | Some k =>
      match key_blocks k !! 0%nat with
      | None => raise IndexError
      | Some _ => mret me
      end
  end.

Definition empty_animation_data : AnimData :=
  {| action := None; drivers := []; nla_tracks := [] |}.

(** [key.animation_data_create()]: creates the block if it is absent. *)
Definition animation_data_create (key : nat) : Py unit :=
  update_key key (λ k,
    match animation_data k with
    | None => with_animation_data (Some empty_animation_data) k
    | Some _ => k
    end).

(** [key.animation_data], dereferenced *)
Definition get_animation_data (key : nat) : Py AnimData :=
  k ← get_key key;
  match animation_data k with
  | None => raise AttributeError
  | Some a => mret a
  end.

Definition update_animation_data (key : nat) (f : AnimData → AnimData) : Py unit :=
  k ← get_key key;
  match animation_data k with
  | None => raise AttributeError
  | Some a => update_key key (with_animation_data (Some (f a)))
  end.

Definition with_action (a : option Action) (d : AnimData) : AnimData :=
  {| action := a; drivers := drivers d; nla_tracks := nla_tracks d |}.

Definition with_drivers (ds : list Driver) (d : AnimData) : AnimData :=
  {| action := action d; drivers := ds; nla_tracks := nla_tracks d |}.

Definition with_nla_tracks (ts : list NlaTrack) (d : AnimData) : AnimData :=
  {| action := action d; drivers := drivers d; nla_tracks := ts |}.

Definition with_drv_mute (v : bool) (d : Driver) : Driver :=
  {| drv_data_path := drv_data_path d; drv_mute := v; drv_type := drv_type d;
     drv_expression := drv_expression d; drv_use_self := drv_use_self d;
     drv_variables := drv_variables d |}.

Definition default_target : DriverTarget :=
  {| tgt_id := None; tgt_data_path := ""; tgt_bone_target := "";
     tgt_transform_space := "WORLD_SPACE"; tgt_transform_type := "LOC_X" |}.

(** The host sizes a variable's target array by the variable's type. *)
Definition num_targets (t : VarType) : nat :=
  match t with
  | ROTATION_DIFF | LOC_DIFF => 2
  | _ => 1
  end.

(** [for i, target in enumerate(var.targets): new_var.targets[i].attr = target.attr] *)
Fixpoint copy_targets (i : nat) (targets new_targets : list DriverTarget)
  : Res (list DriverTarget) :=
  match targets with
  | [] => Ok new_targets
  | target :: rest =>
      match new_targets !! i with
      | None => Raise IndexError
      | Some _ =>
          copy_targets (S i) rest
            (<[i := {| tgt_id := tgt_id target;
                       tgt_data_path := tgt_data_path target;
                       tgt_bone_target := tgt_bone_target target;
                       tgt_transform_space := tgt_transform_space target;
                       tgt_transform_type := tgt_transform_type target |}]> new_targets)
      end
  end.

(** [new_var = new_driver.driver.variables.new()] and the copy of [var] *)
Definition copy_variable (var : DriverVariable) : Res DriverVariable :=
  ts ← copy_targets 0 (var_targets var) (replicate (num_targets (var_type var)) default_target);
  Ok {| var_name := var_name var; var_type := var_type var; var_targets := ts |}.

Fixpoint copy_variables (vars : list DriverVariable) : Res (list DriverVariable) :=
  match vars with
  | [] => Ok []
  | var :: rest =>
      v ← copy_variable var; vs ← copy_variables rest; Ok (v :: vs)
  end.

(** [new_driver = skid.driver_add(driver.data_path)] and the copy of [driver] *)
Definition copy_driver (driver : Driver) : Res Driver :=
  vs ← copy_variables (drv_variables driver);
  Ok {| drv_data_path := drv_data_path driver;
        drv_type := drv_type driver;
        drv_mute := drv_mute driver;
        drv_expression := drv_expression driver;
        drv_use_self := drv_use_self driver;
        drv_variables := vs |}.

(** [int(x)] on a float: truncation towards zero *)
Definition int_of_float (x : float) : Z := Z.quot (Qnum x) (Z.pos (Qden x)).

(** The frame range the host computes for an action: from its first to
    its last key frame and one frame long at least, or from 0 to 1 when
    it has no key frame. *)
Definition action_frame_range (act : Action) : Z * Z :=
  match act_keyframes act with
  | [] => (0, 1)%Z
  | (_, f) :: rest =>
      let lo := foldr Z.min f (rest.*2) in
      let hi := foldr Z.max f (rest.*2) in
      (lo, if decide (lo = hi) then (hi + 1)%Z else hi)
  end.

(** Whether the strips of a track leave the frames from [start] to
    [stop] free. *)
Definition has_space (strips : list NlaStrip) (start stop : float) : bool :=
  forallb (λ st, Qle_bool stop (strip_frame_start st) || Qle_bool (strip_frame_end st) start)
          strips.

(** The host keeps the strips of a track in the order of their frames. *)
Fixpoint add_strip (new : NlaStrip) (strips : list NlaStrip) : list NlaStrip :=
  match strips with
  | [] => [new]
  | st :: rest =>
      if Qle_bool (strip_frame_end new) (strip_frame_start st)
      then new :: st :: rest
      else st :: add_strip new rest
  end.

(** [new_strip = new_track.strips.new(strip.name, int(strip.frame_start),
    strip.action)] followed by the assignments of lines 301-304, for a
    track that holds [strips] so far.  The host wants an action, lays
    the strip over the frame range of that action from the given start,
    and refuses a strip that overlaps one of the track.  It keeps each
    blend within the length of the strip, and switching
    [use_auto_blend] off clears both blends.  (With [use_auto_blend]
    on, the host derives the blends from the neighbouring tracks; the
    model keeps the assigned ones, as the host does for a lone track.) *)
Definition copy_strip (strips : list NlaStrip) (strip : NlaStrip) : Res NlaStrip :=
  match strip_action strip with
  | None => Raise TypeError
  | Some act =>
      let start := inject_Z (int_of_float (strip_frame_start strip)) in
      let '(action_start, action_end) := action_frame_range act in
      let len := inject_Z (action_end - action_start) in
      let stop := (start + len)%Q in
      if has_space strips start stop then
        let blend_in := clamp 0 len (strip_blend_in strip) in
        let blend_out :=
          let v := clamp 0 len (strip_blend_out strip) in
          if Qlt_le_dec (len - v) blend_in then (len - blend_in)%Q else v in
        Ok {| strip_name := strip_name strip;
              strip_frame_start := start;
              strip_frame_end := stop;
              strip_action := Some act;
              strip_action_frame_start := inject_Z action_start;
              strip_action_frame_end := inject_Z action_end;
              strip_blend_in := if strip_use_auto_blend strip then blend_in else 0%Q;
              strip_blend_out := if strip_use_auto_blend strip then blend_out else 0%Q;
              strip_use_auto_blend := strip_use_auto_blend strip;
              strip_extrapolation := strip_extrapolation strip |}
      else Raise RuntimeError
  end.

(** [new_track = skid.animation_data.nla_tracks.new()] with the three
    assignments of lines 290-292; its strips follow one by one. *)
Definition new_track (track : NlaTrack) : NlaTrack :=
  {| track_name := track_name track;
     track_is_solo := track_is_solo track;
     track_mute := track_mute track;
     track_strips := [] |}.

(** The tracks [ts] with [f] applied to the strips of the last one. *)
Definition on_last_track (f : list NlaStrip → list NlaStrip) (ts : list NlaTrack)
  : list NlaTrack :=
  match reverse ts with
  | [] => []
  | t :: before =>
      reverse before ++ [{| track_name := track_name t; track_is_solo := track_is_solo t;
                            track_mute := track_mute t; track_strips := f (track_strips t) |}]
  end.

(** The key frames [kfs] once the property at [data_path] is keyed at
    [frame]: a key frame that already sits there is replaced, so the
    pair is not listed twice. *)
Definition keyed_at (data_path : string) (frame : Z) (kfs : list (string * Z))
  : list (string * Z) :=
  if decide ((data_path, frame) ∈ kfs) then kfs else kfs ++ [(data_path, frame)].

(** [key.keyframe_insert(data_path, frame=frame)]: the key frame goes into
    the container's action, which is created when missing. *)
Definition keyframe_insert (key : nat) (data_path : string) (frame : Z) : Py unit :=
  animation_data_create key ;;
  update_animation_data key (λ a,
    let act := match action a with
               | Some act => act
               | None => {| act_name := "KeyAction"; act_keyframes := [] |}
               end in
    with_action (Some {| act_name := act_name act;
                         act_keyframes := keyed_at data_path frame (act_keyframes act) |}) a).

(** [scene.frame_set(frame)] *)
Definition frame_set (frame : Z) : Py unit := modify (set_frame_current frame).

(** ** Operator [sk.apply_mods] *)

Inductive ApplyAction := ALL_MODIFIERS | ALL_MODIFIERS_WITH_SHAPEKEYS.

Module SK_OT_apply_mods.

(** [validate_input(self)] *)
Definition validate_input (objects : list nat) : Py bool :=
  if decide (length objects = 0%nat) then
    report ERROR "No Active object. Please select at least 1 mesh object" ;;
    mret false
  else mret true.

(** Lines 236-244: the metadata of the original key [i] is assigned,
    field by field and in the order of the source, to the key at index
    [i] of the receiver; the three slider fields go through the host's
    clamping setters. *)
Definition restore_metadata (obj receiver : nat) (i : nat) : Py unit :=
  _ ← key_block receiver i;
  obj_sk ← key_block obj i; update_key_block receiver i (with_sk_name (sk_name obj_sk)) ;;
  obj_sk ← key_block obj i; update_key_block receiver i (with_sk_mute (sk_mute obj_sk)) ;;
  obj_sk ← key_block obj i; update_key_block receiver i (set_slider_min (sk_slider_min obj_sk)) ;;
  obj_sk ← key_block obj i; update_key_block receiver i (set_slider_max (sk_slider_max obj_sk)) ;;
  obj_sk ← key_block obj i; update_key_block receiver i (set_value (sk_value obj_sk)) ;;
  obj_sk ← key_block obj i; update_key_block receiver i (with_sk_interpolation (sk_interpolation obj_sk)) ;;
  obj_sk ← key_block obj i; update_key_block receiver i (with_sk_lock_shape (sk_lock_shape obj_sk)) ;;
  obj_sk ← key_block obj i; update_key_block receiver i (with_sk_vertex_group (sk_vertex_group obj_sk)).

(** Lines 250-306: rename id, copy action, drivers, nla tracks. *)
Definition transfer_animation (obj_skid skid : nat) : Py unit :=
  animation_data_create obj_skid ;;
  animation_data_create skid ;;
  (* copy action *)
  src ← get_animation_data obj_skid;
  match action src with
  | Some act => update_animation_data skid (with_action (Some act))
  | None => mret tt
  end ;;
  (* copy drivers *)
  src ← get_animation_data obj_skid;
  for_each (drivers src) (λ driver,
    new_driver ← lift_res (copy_driver driver);
    update_animation_data skid (λ a, with_drivers (drivers a ++ [new_driver]) a)) ;;
  (* copy nla tracks *)
  src ← get_animation_data obj_skid;
  for_each (nla_tracks src) (λ track,
    update_animation_data skid (λ a, with_nla_tracks (nla_tracks a ++ [new_track track]) a) ;;
    (* Copy NLA strips *)
    for_each (track_strips track) (λ strip,
      a ← get_animation_data skid;
      new_strip ← lift_res (copy_strip (default [] (track_strips <$> last (nla_tracks a))) strip);
      update_animation_data skid (λ a,
        with_nla_tracks (on_last_track (add_strip new_strip) (nla_tracks a)) a))).

(** The body of the loop of [apply_all_modifiers_with_sk] for one [obj]. *)
Definition apply_with_sk (obj : nat) : Py unit :=
  sks ← obj_shape_keys obj;
  match sks with
  | None => apply_modifiers obj
  | Some _ =>
      (* create receiving object that will contain all collapsed shapekeys *)
      receiver ← copy_object_0 obj;
      update_object receiver (with_obj_name "sk_receiver") ;;
      apply_shapekey receiver 0 ;;
      apply_modifiers receiver ;;
      sks ← obj_shape_keys obj;
      match sks with
      | None => raise AttributeError
      | Some k =>
          for_each (seq 1 (length (key_blocks k) - 1)) (λ i,
            _ ← key_block obj i;
            (* copy of baseobject / blendshape donor *)
            blendshape ← copy_object_0 obj;
            apply_shapekey blendshape (Z.of_nat i) ;;
            apply_modifiers blendshape ;;
            (* add the copy as a blendshape to the receiver *)
            add_objs_shapekeys receiver [blendshape] ;;
            (* restore the shapekey name *)
            restore_metadata obj receiver i ;;
            (* delete the blendshape donor and its mesh datablock *)
            b ← get_object blendshape;
            let mesh_data := data b in
            objects_remove blendshape ;;
            meshes_remove mesh_data)
      end ;;
      o ← get_object obj;
      let skid_name := obj_name o +:+ ".SK" in
      obj_skid ← key_blocks_0_id_data obj;
      skid ← key_blocks_0_id_data receiver;
      transfer_animation obj_skid skid ;;
      (* delete the original and its mesh data *)
      o ← get_object obj;
      let orig_name := obj_name o in
      let orig_data := data o in
      objects_remove obj ;;
      meshes_remove orig_data ;;
      update_key skid (with_key_name skid_name) ;;
      (* rename the receiver *)
      update_object receiver (with_obj_name orig_name)
  end.

(** [apply_all_modifiers_with_sk(self, context)] *)
Definition apply_all_modifiers_with_sk (objects : list nat) : Py unit :=
  for_each objects apply_with_sk.

(** [apply_all_modifiers(self, context)] *)
Definition apply_all_modifiers (objects : list nat) : Py Status :=
  next_selection ← for_fold objects [] (λ next_selection obj,
    sks ← obj_shape_keys obj;
    match sks with
    | Some _ => mret (next_selection ++ [obj])
    | None => apply_modifiers obj ;; mret next_selection
    end);
  select_all_DESELECT ;;
  for_each next_selection (λ obj, select_set obj true) ;;
  mret FINISHED.

(** [execute(self, context)], with the operator's properties [action]
    and [reset_pose] as parameters *)
Definition execute (action : ApplyAction) (reset_pose : bool) : Py Status :=
  s ← get_state;
  objects ← comprehension (selected s) (λ obj,
    o ← get_object obj; mret (bool_decide (obj_type o = MESH)));
  ok ← validate_input objects;
  if negb ok then mret CANCELLED
  else
    (if reset_pose then reset_armature_pose objects else mret tt) ;;
    match action with
    | ALL_MODIFIERS => _ ← apply_all_modifiers objects; mret tt
    | ALL_MODIFIERS_WITH_SHAPEKEYS => apply_all_modifiers_with_sk objects
    end ;;
    mret FINISHED.

End SK_OT_apply_mods.

(** ** Operator [sk.bake_shapekey_animation] *)

Module SK_OT_bake_shapekey_animation.

(** [set_start_frame(self, value)] *)
Definition set_start_frame (value : Z) : Py unit :=
  modify (λ s,
    set_bake_globals
      (Some (Z.max (scene_frame_start s) (Z.min value (scene_frame_end s))))
      (BAKE_SHAPEKEY_ANIMATION_FRAME_END s)
      (BAKE_SHAPEKEY_ANIMATION_EXECUTE s) s).

(** [set_end_frame(self, value)] *)
Definition set_end_frame (value : Z) : Py unit :=
  modify (λ s,
    set_bake_globals
      (BAKE_SHAPEKEY_ANIMATION_FRAME_START s)
      (Some (Z.max (scene_frame_start s) (Z.min value (scene_frame_end s))))
      (BAKE_SHAPEKEY_ANIMATION_EXECUTE s) s).

(** [get_start_frame(self)] *)
Definition get_start_frame : Py (option Z) :=
  s ← get_state;
  (if BAKE_SHAPEKEY_ANIMATION_FRAME_START s is None then set_start_frame 0 else mret tt) ;;
  s ← get_state;
  mret (BAKE_SHAPEKEY_ANIMATION_FRAME_START s).

(** [get_end_frame(self)] *)
Definition get_end_frame : Py (option Z) :=
  s ← get_state;
  (if BAKE_SHAPEKEY_ANIMATION_FRAME_END s is None then set_end_frame 0 else mret tt) ;;
  s ← get_state;
  mret (BAKE_SHAPEKEY_ANIMATION_FRAME_END s).

(** [set_execute(self, value)] *)
Definition set_execute (value : bool) : Py unit :=
  modify (λ s,
    set_bake_globals
      (BAKE_SHAPEKEY_ANIMATION_FRAME_START s)
      (BAKE_SHAPEKEY_ANIMATION_FRAME_END s)
      value s).

(** [get_execute(self)] *)
Definition get_execute : Py bool :=
  s ← get_state; mret (BAKE_SHAPEKEY_ANIMATION_EXECUTE s).

(** [validate_input(self)] *)
Definition validate_input (objects : list nat) : Py bool :=
  if decide (length objects = 0%nat) then
    report ERROR
      "No appropriate mesh selected. Please select at least 1 mesh with shape keys" ;;
    mret false
  else mret true.

(** [range(a, b)] over integers *)
Definition range (a b : Z) : list Z :=
  map (λ i, (a + Z.of_nat i)%Z) (seq 0 (Z.to_nat (b - a))).

(** [execute(self, context)] *)
Definition execute : Py Status :=
  execute_ot ← get_execute;
  if negb execute_ot then mret FINISHED
  else
    report INFO "Baked keyframes" ;;
    s ← get_state;
    objects ← comprehension (selected s) (λ obj,
      o ← get_object obj;
      if decide (obj_type o = MESH) then
        sks ← obj_shape_keys obj; mret (bool_decide (sks ≠ None))
      else mret false);
    ok ← validate_input objects;
    if negb ok then mret CANCELLED
    else
      s ← get_state;
      match BAKE_SHAPEKEY_ANIMATION_FRAME_START s, BAKE_SHAPEKEY_ANIMATION_FRAME_END s with
      | Some frame_start, Some frame_end =>
          for_each (range frame_start (frame_end + 1)) (λ frame,
            frame_set frame ;;
            for_each objects (λ obj,
              '(key, m) ← object_mesh obj;
              match shape_keys m with
              | None => raise AttributeError
              | Some k =>
                  match animation_data k with
                  | None => raise AttributeError
                  | Some a =>
                      for_each (drivers a) (λ fcurve,
                        keyframe_insert key (drv_data_path fcurve) frame)
                  end
              end)) ;;
          set_execute false ;;
          mret FINISHED
      | _, _ => raise TypeError
      end.

End SK_OT_bake_shapekey_animation.

(** ** Operator [sk.toggle_shapekeys_drivers] *)

Inductive ToggleAction := TOGGLE | MUTE | UNMUTE.

Global Instance ToggleAction_eq_dec : EqDecision ToggleAction.
Proof. solve_decision. Defined.

Module SK_OT_toggle_shapekeys_drivers.

(** [validate_input(self)] *)
Definition validate_input (objects : list nat) : Py bool :=
  if decide (length objects = 0%nat) then
    report ERROR
      "No appropriate mesh selected. Please select at least 1 mesh with shape key that has driver on it" ;;
    mret false
  else mret true.

(** The three [if]s of lines 487-492 on one driver's [mute] flag. *)
Definition set_mute (action : ToggleAction) (driver : Driver) : Driver :=
  let driver := if decide (action = TOGGLE)
                then with_drv_mute (negb (drv_mute driver)) driver else driver in
  let driver := if decide (action = MUTE)
                then with_drv_mute true driver else driver in
  if decide (action = UNMUTE) then with_drv_mute false driver else driver.

(** [driver.mute = ...] for the driver at position [i] of the container *)
Definition update_driver (key : nat) (i : nat) (f : Driver → Driver) : Py unit :=
  a ← get_animation_data key;
  match drivers a !! i with
  | None => raise IndexError
  | Some d => update_animation_data key (with_drivers (<[i := f d]> (drivers a)))
  end.

Definition action_word (action : ToggleAction) : string :=
  match action with
  | TOGGLE => "Toggled"
  | MUTE => "Muted"
  | UNMUTE => "Unmuted"
  end.

(** The body of the loop over [self.objects] (lines 479-492); the
    counters [num_toggled] and [num_toggled_obj] are carried along. *)
Definition toggle_object (action : ToggleAction)
  : nat * nat → nat → Py (nat * nat) :=
  λ '(num_toggled, num_toggled_obj) obj,
    '(key, m) ← object_mesh obj;
    k ← get_key key;
    (if animation_data k is None then animation_data_create key else mret tt) ;;
    a ← get_animation_data key;
    let num_toggled_obj :=
      if decide (0 < length (drivers a)) then (num_toggled_obj + 1)%nat
      else num_toggled_obj in
    num_toggled ← for_fold (seq 0 (length (drivers a))) num_toggled (λ num_toggled i,
      update_driver key i (set_mute action) ;;
      mret (num_toggled + 1)%nat);
    mret (num_toggled, num_toggled_obj).

Definition toggled_message (action : ToggleAction) (num_toggled num_toggled_obj : nat)
  : string :=
  action_word action +:+ " " +:+ pretty num_toggled +:+ " drivers for "
    +:+ pretty num_toggled_obj +:+ " objects".

(** [execute(self, context)], with the operator's property [action] as
    parameter *)
Definition execute (action : ToggleAction) : Py Status :=
  s ← get_state;
  objects ← comprehension (selected s) (λ obj,
    o ← get_object obj;
    if decide (obj_type o = MESH) then
      sks ← obj_shape_keys obj; mret (bool_decide (sks ≠ None))
    else mret false);
  ok ← validate_input objects;
  if negb ok then mret CANCELLED
  else
    '(num_toggled, num_toggled_obj) ← for_fold objects (0%nat, 0%nat) (toggle_object action);
    report INFO (toggled_message action num_toggled num_toggled_obj) ;;
    mret FINISHED.

End SK_OT_toggle_shapekeys_drivers.

(** ** Example scenes *)

Module Examples.

Definition modifier (name : string) (t : ModType) (target : option nat)
    (applicable : bool) : Modifier :=
  {| mod_name := name; mod_type := t; show_only_control_edges := true;
     mod_object := target; mod_applicable := applicable |}.

Definition shape_key (name : string) (mute : bool) (lo hi v : float) (tag : nat)
  : ShapeKey :=
  {| sk_name := name; sk_mute := mute; sk_slider_min := lo; sk_slider_max := hi;
     sk_value := v; sk_interpolation := KEY_CARDINAL; sk_lock_shape := true;
     sk_vertex_group := "Group"; sk_data := Verts tag |}.

Definition driver (path : string) (mute : bool) : Driver :=
  {| drv_data_path := path; drv_mute := mute; drv_type := "SCRIPTED";
     drv_expression := "var + 1"; drv_use_self := false;
     drv_variables :=
       [{| var_name := "var"; var_type := SINGLE_PROP;
           var_targets :=
             [{| tgt_id := Some 10%nat; tgt_data_path := "pose.bones[0].location[0]";
                 tgt_bone_target := ""; tgt_transform_space := "WORLD_SPACE";
                 tgt_transform_type := "LOC_X" |}] |}] |}.

Definition body_key : Key :=
  {| key_name := "Key";
     key_blocks := [shape_key "Basis" false 0 1 0 0;
                    shape_key "Smile" true (2 # 1) (5 # 1) (3 # 1) 1;
                    shape_key "Frown" false 0 1 (1 # 2) 2];
     animation_data :=
       Some {| action := None;
               drivers := [driver "key_blocks[Smile].value" true;
                           driver "key_blocks[Frown].value" false];
               nla_tracks := [] |} |}.

Definition body_stack : list Modifier :=
  [modifier "Subdivision" SUBSURF None true;
   modifier "Armature" ARMATURE (Some 10%nat) true;
   modifier "Boolean" (OtherModifier "BOOLEAN") None false;
   modifier "Solidify" (OtherModifier "SOLIDIFY") None true].

Definition mesh_object (name : string) (me : nat) (stack : list Modifier) : Object :=
  {| obj_name := name; obj_type := MESH; data := me; modifiers := stack;
     location_x := 0; pose := None |}.

Definition rig : Object :=
  {| obj_name := "Rig"; obj_type := ARMATURE_OBJECT; data := 110; modifiers := [];
     location_x := 0;
     pose := Some [{| bone_location := (3, 4, 5)%Q;
                      bone_rotation_quaternion := (0, 1, 0, 0)%Q;
                      bone_rotation_euler := (2, 2, 2)%Q |}] |}.

(** The vertex counts of the example scenes: every mesh is a cube, a
    Subsurf modifier adds the edge and face points of one subdivision,
    and no other modifier changes the count. *)
Fixpoint vertices (g : Geom) : nat :=
  match g with
  | Verts _ => 8
  | ModifierResult md g =>
      if decide (mod_type md = SUBSURF) then (vertices g + 18)%nat else vertices g
  end.

Definition scene (obs : list (nat * Object)) (mes : list (nat * Mesh))
    (sel : list nat) : Bpy :=
  {| objects := list_to_map obs; meshes := list_to_map mes; next_id := 200;
     scene_objects := obs.*1; selected := sel; active := None;
     scene_frame_start := 1; scene_frame_end := 250; frame_current := 1;
     BAKE_SHAPEKEY_ANIMATION_FRAME_START := None;
     BAKE_SHAPEKEY_ANIMATION_FRAME_END := None;
     BAKE_SHAPEKEY_ANIMATION_EXECUTE := false;
     reports := []; trace := []; vertex_count := vertices |}.

Definition body_object : Object := mesh_object "Body" 101 body_stack.

Definition body_mesh : Mesh := {| shape_keys := Some body_key; geometry := Verts 0 |}.

Definition cube_object : Object := mesh_object "Cube" 101 body_stack.

Definition cube_mesh : Mesh := {| shape_keys := None; geometry := Verts 0 |}.

Definition boolean_modifier : Modifier :=
  modifier "Boolean" (OtherModifier "BOOLEAN") None false.

Definition undriven_key : Key := with_animation_data None body_key.

Definition undriven_mesh : Mesh :=
  {| shape_keys := Some undriven_key; geometry := Verts 0 |}.

(** A mesh with three shape keys and two drivers, bound to a rig. *)
Definition body_scene : Bpy :=
  scene [(1, body_object); (10, rig)] [(101, body_mesh)] [1].

(** A mesh without shape keys. *)
Definition plain_scene : Bpy :=
  scene [(1, cube_object); (10, rig)] [(101, cube_mesh)] [1].

(** Two meshes bound to the same rig. *)
Definition shared_rig_scene : Bpy :=
  scene [(1, mesh_object "Body" 101 [modifier "Armature" ARMATURE (Some 10) true]);
         (2, mesh_object "Hair" 102 [modifier "Armature" ARMATURE (Some 10) true]);
         (10, rig)]
        [(101, {| shape_keys := None; geometry := Verts 0 |});
         (102, {| shape_keys := None; geometry := Verts 7 |})]
        [1; 2].

(** Only the rig is selected. *)
Definition rig_selected_scene : Bpy :=
  scene [(1, body_object); (10, rig)] [(101, body_mesh)] [10].

(** A mesh whose shape-key container has no animation data. *)
Definition undriven_scene : Bpy :=
  scene [(1, mesh_object "Body" 101 [])] [(101, undriven_mesh)] [1].

(** Two meshes with shape keys and one without, all selected. *)
Definition mixed_scene : Bpy :=
  scene [(1, body_object); (2, mesh_object "Cube" 102 body_stack);
         (3, mesh_object "Face" 103 []); (10, rig)]
        [(101, body_mesh); (102, cube_mesh); (103, undriven_mesh)]
        [1; 2; 3].

End Examples.


(** ** Vocabulary of the specifications

    Pure descriptions of what the operations leave behind; the theorems
    relate them to the computations above. *)

(** A store that differs from [s] in the listed components only. *)
Definition build (objs : gmap nat Object) (mes : gmap nat Mesh) (sel : list nat)
    (act : option nat) (rep : list (ReportLevel * string)) (tr : list Event)
    (s : Bpy) : Bpy :=
  {| objects := objs; meshes := mes; next_id := next_id s;
     scene_objects := scene_objects s; selected := sel; active := act;
     scene_frame_start := scene_frame_start s; scene_frame_end := scene_frame_end s;
     frame_current := frame_current s;
     BAKE_SHAPEKEY_ANIMATION_FRAME_START := BAKE_SHAPEKEY_ANIMATION_FRAME_START s;
     BAKE_SHAPEKEY_ANIMATION_FRAME_END := BAKE_SHAPEKEY_ANIMATION_FRAME_END s;
     BAKE_SHAPEKEY_ANIMATION_EXECUTE := BAKE_SHAPEKEY_ANIMATION_EXECUTE s;
     reports := rep; trace := tr; vertex_count := vertex_count s |}.

Definition upd_mesh (me : nat) (m : Mesh) (s : Bpy) : Bpy := set_meshes <[me := m]> s.

Definition upd_object (ob : nat) (o : Object) (s : Bpy) : Bpy := set_objects <[ob := o]> s.

(** *** Modifier application *)

Definition clear_control_edges (md : Modifier) : Modifier :=
  if decide (mod_type md = SUBSURF) then with_show_only_control_edges false md else md.

(** The flag writes of the first loop of [apply_modifiers]. *)
Definition flag_events (ob : nat) (ms : list Modifier) : list Event :=
  (λ md, EvSetControlEdges ob (mod_name md) false) <$>
    filter (λ md, mod_type md = SUBSURF) ms.

(** The operator calls of the second loop: one [modifier_apply] per
    modifier that is not an armature, followed by a [modifier_remove]
    when the host refused it. *)
Definition call_events (ob : nat) (ms : list Modifier) : list Event :=
  mjoin ((λ md, EvModifierApply ob (mod_name md) ::
                  if mod_applicable md then [] else [EvModifierRemove ob (mod_name md)]) <$>
         filter (λ md, mod_type md ≠ ARMATURE) ms).

Definition deselect (xs : list nat) (sel : list nat) : list nat :=
  foldl (λ l x, filter (λ y, y ≠ x) l) sel xs.

Definition select (ob : nat) (sel : list nat) : list nat :=
  if decide (ob ∈ sel) then sel else sel ++ [ob].

Definition failure_reports (o : Object) (ms : list Modifier) : list (ReportLevel * string) :=
  (λ md, (INFO, invalid_modifier_message md o)) <$>
    filter (λ md, mod_type md ≠ ARMATURE ∧ mod_applicable md = false) ms.

(** The geometry once the applicable modifiers of [ms] are baked in. *)
Definition baked (ms : list Modifier) (g : Geom) : Geom :=
  foldl (λ g md, ModifierResult md g) g
    (filter (λ md, mod_type md ≠ ARMATURE ∧ mod_applicable md = true) ms).

(** The body of the second loop of [apply_modifiers]. *)
Definition apply_body (ob : nat) (md : Modifier) : Py unit :=
  if decide (mod_type md ≠ ARMATURE) then
    try_except
      (modifier_apply (mod_name md))
      (o ← get_object ob;
       report INFO (invalid_modifier_message md o) ;;
       modifier_remove (mod_name md))
  else mret tt.

(** The store after [apply_modifiers ob], for the object [o] and its mesh [m]. *)
Definition apply_modifiers_result (ob : nat) (o : Object) (m : Mesh) (s : Bpy) : Bpy :=
  build
    (<[ob := with_modifiers (filter (λ md, mod_type md = ARMATURE) (modifiers o)) o]> (objects s))
    (<[data o := with_geometry (baked (clear_control_edges <$> modifiers o) (geometry m)) m]>
       (meshes s))
    (select ob (deselect (scene_objects s) (selected s)))
    (Some ob)
    (reports s ++ failure_reports o (modifiers o))
    (trace s ++ flag_events ob (modifiers o) ++ call_events ob (modifiers o))
    s.

(** The modifiers baked into a geometry, innermost first. *)
Fixpoint geom_modifiers (g : Geom) : list Modifier :=
  match g with
  | Verts _ => []
  | ModifierResult md g' => geom_modifiers g' ++ [md]
  end.

(** The names passed to [modifier_apply], in call order. *)
Definition apply_calls (tr : list Event) : list string :=
  omap (λ e, match e with EvModifierApply _ n => Some n | _ => None end) tr.

(** The names passed to [modifier_remove], in call order. *)
Definition remove_calls (tr : list Event) : list string :=
  omap (λ e, match e with EvModifierRemove _ n => Some n | _ => None end) tr.

(** A mesh object the host can hand to [apply_modifiers]: it and its mesh
    exist, and the names in its modifier stack are unique. *)
Definition mesh_object_ok (s : Bpy) (ob : nat) : Prop :=
  ∃ o m, objects s !! ob = Some o ∧ meshes s !! data o = Some m ∧
         NoDup (mod_name <$> modifiers o).

(** The body of the first loop of [apply_all_modifiers]. *)
Definition batch_body (next_selection : list nat) (obj : nat) : Py (list nat) :=
  sks ← obj_shape_keys obj;
  match sks with
  | Some _ => mret (next_selection ++ [obj])
  | None => apply_modifiers obj ;; mret next_selection
  end.

(** *** Shape-key isolation *)

(** A mesh whose container [k0] holds the keys [ks]; the container is
    gone when no key is left. *)
Definition keyed_mesh (k0 : Key) (ks : list ShapeKey) (g : Geom) : Mesh :=
  {| shape_keys := match ks with
                   | [] => None
                   | _ :: _ => Some (with_key_blocks ks k0)
                   end;
     geometry := g |}.

(** The body of the loop of [apply_shapekey]. *)
Definition isolate_body (ob : nat) (sk_keep : Z) (i : nat) : Py unit :=
  if decide (Z.of_nat i ≠ sk_keep) then shape_key_remove ob i else mret tt.

(** What is left of the keys [pre ++ tl] once the indices of [pre] have
    been visited from the last to the first. *)
Definition remaining (sk_keep : Z) (pre tl : list ShapeKey) : list ShapeKey :=
  option_list (pre !! Z.to_nat sk_keep) ++ tl.

(** *** Driver toggling *)

(** One visit of the loop of [sk.toggle_shapekeys_drivers] to a container. *)
Definition toggle_key (a : ToggleAction) (k : Key) : Key :=
  with_animation_data
    (Some match animation_data k with
          | None => empty_animation_data
          | Some ad => with_drivers (map (SK_OT_toggle_shapekeys_drivers.set_mute a) (drivers ad)) ad
          end) k.

Definition toggle_mesh (a : ToggleAction) (m : Mesh) : Mesh :=
  match shape_keys m with
  | Some k => with_shape_keys (Some (toggle_key a k)) m
  | None => m
  end.

(** The drivers on the shape-key container of a mesh. *)
Definition mesh_drivers (m : Mesh) : list Driver :=
  match shape_keys m with
  | Some k =>
      match animation_data k with
      | Some ad => drivers ad
      | None => []
      end
  | None => []
  end.

Definition key_drivers (s : Bpy) (key : nat) : list Driver :=
  match meshes s !! key with
  | Some m => mesh_drivers m
  | None => []
  end.

Definition drivers_mesh (m : Mesh) (k : Key) (ad : AnimData) (ds : list Driver) : Mesh :=
  with_shape_keys (Some (with_animation_data (Some (with_drivers ds ad)) k)) m.

Definition has_keys (s : Bpy) (ob : nat) : Prop :=
  ∃ o m k, objects s !! ob = Some o ∧ meshes s !! data o = Some m ∧ shape_keys m = Some k.

(** The filter of the list comprehension in [execute]: a mesh object with
    shape keys. *)
Definition eligible (s : Bpy) (ob : nat) : bool :=
  match objects s !! ob with
  | Some o =>
      if decide (obj_type o = MESH) then
        match meshes s !! data o with
        | Some m => bool_decide (shape_keys m ≠ None)
        | None => false
        end
      else false
  | None => false
  end.

(** Every selected object exists, and so does the mesh of every selected
    mesh object. *)
Definition selection_ok (s : Bpy) : Prop :=
  Forall (λ ob, ∃ o, objects s !! ob = Some o ∧
                     (obj_type o = MESH → is_Some (meshes s !! data o)))
         (selected s).

Definition mesh_ids (s : Bpy) (obs : list nat) : list nat :=
  omap (λ ob, data <$> objects s !! ob) obs.

(** The containers visited by the operator, one entry per eligible
    selected object. *)
Definition selected_keys (s : Bpy) : list nat :=
  mesh_ids s (filter (λ ob, eligible s ob) (selected s)).

Definition toggle_meshes (a : ToggleAction) (keys : list nat) (ms : gmap nat Mesh)
  : gmap nat Mesh :=
  foldl (λ ms key, alter (toggle_mesh a) key ms) ms keys.

Definition toggled_drivers (s : Bpy) (keys : list nat) : nat :=
  sum_list (map (λ key, length (key_drivers s key)) keys).

Definition toggled_objects (s : Bpy) (keys : list nat) : nat :=
  length (filter (λ key, 0 < length (key_drivers s key)) keys).

Definition occurrences (key : nat) (keys : list nat) : nat :=
  length (filter (λ k, k = key) keys).

(** *** Shape-key preserving bake *)

(** The copy that [copy_object(obj, times=1, offset=0)[0]] makes of the
    object [o], when [c] is the next free identifier. *)
Definition object_copy_of (c : nat) (o : Object) : Object :=
  with_location_x (location_x o + 0 * inject_Z (Z.of_nat (0 + 1)))%Q
    (with_obj_name (obj_name o +:+ "_shapekey_" +:+ pretty (0 + 1)%nat)
       (with_data (S c) o)).

(** The store after that copy of the object [o] with mesh [m]. *)
Definition copy_result (o : Object) (m : Mesh) (s : Bpy) : Bpy :=
  set_scene_objects (λ l, l ++ [next_id s])
    (set_objects <[next_id s := object_copy_of (next_id s) o]>
       (set_meshes <[S (next_id s) := m]>
          (set_next_id (S (S (next_id s))) s))).

(** The key [sk] of the receiver once lines 237-244 have assigned the
    metadata of [obj_sk] to it, in the order of the source; the shape
    itself stays. *)
Definition restored (obj_sk sk : ShapeKey) : ShapeKey :=
  with_sk_vertex_group (sk_vertex_group obj_sk)
    (with_sk_lock_shape (sk_lock_shape obj_sk)
       (with_sk_interpolation (sk_interpolation obj_sk)
          (set_value (sk_value obj_sk)
             (set_slider_max (sk_slider_max obj_sk)
                (set_slider_min (sk_slider_min obj_sk)
                   (with_sk_mute (sk_mute obj_sk)
                      (with_sk_name (sk_name obj_sk) sk))))))).

(** The destination mesh [dm] after [join_shapes] took the source object
    [so] with mesh [sm]. *)
Definition joined (dm : Mesh) (so : Object) (sm : Mesh) : Mesh :=
  let k := match shape_keys dm with
           | Some k => k
           | None => {| key_name := "Key";
                        key_blocks := [new_shape_key "Basis" (geometry dm)];
                        animation_data := None |}
           end in
  with_shape_keys
    (Some (with_key_blocks
       (key_blocks k ++ [new_shape_key (obj_name so) (deformed_geometry so sm)]) k)) dm.

(** Identifiers handed out so far are below [next_id], and only objects
    of the scene are selected. *)
Definition store_ok (s : Bpy) : Prop :=
  (∀ x, is_Some (objects s !! x) → x < next_id s) ∧
  (∀ x, is_Some (meshes s !! x) → x < next_id s) ∧
  selected s ⊆ scene_objects s.

(** Every driver variable has no more targets than the host allots to
    its type. *)
Definition drivers_ok (k : Key) : Prop :=
  ∀ ad, animation_data k = Some ad →
    Forall (λ d, Forall (λ v, (length (var_targets v) ≤ num_targets (var_type v))%nat)
                        (drv_variables d))
           (drivers ad).

(** Two meshes that differ at most in the animation data and the name of
    their shape-key containers. *)
Definition same_keys (m m' : Mesh) : Prop :=
  geometry m' = geometry m ∧
  match shape_keys m, shape_keys m' with
  | Some k, Some k' => key_blocks k' = key_blocks k
  | None, None => True
  | _, _ => False
  end.

(** The store after [bpy.data.objects.remove(ob)]. *)
Definition remove_object (ob : nat) (s : Bpy) : Bpy :=
  let s' := set_selected (filter (λ x, x ≠ ob))
              (set_scene_objects (filter (λ x, x ≠ ob))
                 (set_objects (delete ob) s)) in
  if decide (active s' = Some ob) then set_active None s' else s'.

(** The body of the loop over the non-basis keys in
    [apply_all_modifiers_with_sk] (lines 225-248). *)
Definition donor_body (obj receiver : nat) (i : nat) : Py unit :=
  _ ← key_block obj i;
  blendshape ← copy_object_0 obj;
  apply_shapekey blendshape (Z.of_nat i) ;;
  apply_modifiers blendshape ;;
  add_objs_shapekeys receiver [blendshape] ;;
  SK_OT_apply_mods.restore_metadata obj receiver i ;;
  b ← get_object blendshape;
  let mesh_data := data b in
  objects_remove blendshape ;;
  meshes_remove mesh_data.

(** The receiver's keys when the loop is about to visit key [i] of the
    original container: none yet, or [i] of them. *)
Definition receiver_keys_ok (i : nat) (rm : Mesh) : Prop :=
  match shape_keys rm with
  | None => i = 1
  | Some rk => length (key_blocks rk) = i
  end.

(** The invariant of that loop. *)
Definition donor_inv (obj rid : nat) (o ro : Object) (m : Mesh) (k : Key)
    (i : nat) (s : Bpy) : Prop :=
  objects s !! obj = Some o ∧ meshes s !! data o = Some m ∧
  objects s !! rid = Some ro ∧
  (∃ rm, meshes s !! data ro = Some rm ∧ receiver_keys_ok i rm) ∧
  store_ok s.

(** The mesh [rm] with key [i] of its container [rk] replaced by [x]. *)
Definition set_key_block (i : nat) (x : ShapeKey) (rk : Key) (rm : Mesh) : Mesh :=
  with_shape_keys (Some (with_key_blocks (<[i := x]> (key_blocks rk)) rk)) rm.

(** The body of the loop that copies the drivers in the animation
    transfer. *)
Definition copy_driver_body (skid : nat) (driver : Driver) : Py unit :=
  new_driver ← lift_res (copy_driver driver);
  update_animation_data skid (λ a, with_drivers (drivers a ++ [new_driver]) a).

(** What a step that only allocates fresh identifiers leaves alone: the
    datablocks and scene links that [s0] already had. *)
Definition frame_inv (s0 s : Bpy) : Prop :=
  vertex_count s = vertex_count s0 ∧
  (next_id s0 ≤ next_id s)%nat ∧
  (∀ x, (x < next_id s0)%nat → objects s !! x = objects s0 !! x) ∧
  (∀ x, (x < next_id s0)%nat → meshes s !! x = meshes s0 !! x) ∧
  (∀ x, (x < next_id s0)%nat → x ∈ scene_objects s ↔ x ∈ scene_objects s0).

(** The shapes of the object [o] can be joined again after the bake:
    with the modifiers of [o] that the host accepts baked in, the shape
    of every non-basis key of [k] has as many vertices as the geometry
    of the mesh [m].  (A modifier whose output depends on the shape, as
    a weld or a boolean does, can break this.) *)
Definition joinable (s : Bpy) (o : Object) (m : Mesh) (k : Key) : Prop :=
  ∀ i sk, (1 ≤ i)%nat → key_blocks k !! i = Some sk →
    vertex_count s (baked (clear_control_edges <$> modifiers o) (sk_data sk)) =
    vertex_count s (baked (clear_control_edges <$> modifiers o) (geometry m)).

(** The container [k] has no NLA track. *)
Definition no_nla_tracks (k : Key) : Prop :=
  ∀ ad, animation_data k = Some ad → nla_tracks ad = [].

(** A mesh object of a batch of [apply_all_modifiers_with_sk]: it is
    linked to the scene and its modifier names are unique; if it has
    shape keys, it has a non-basis key, its shapes can be joined again
    after the bake, its drivers are well formed and it has no NLA
    track. *)
Definition sk_object_ok (s : Bpy) (ob : nat) : Prop :=
  ∃ o m, objects s !! ob = Some o ∧ meshes s !! data o = Some m ∧
         obj_type o = MESH ∧
         NoDup (mod_name <$> modifiers o) ∧ ob ∈ scene_objects s ∧
         ∀ k, shape_keys m = Some k →
           (2 ≤ length (key_blocks k))%nat ∧ joinable s o m k ∧
           drivers_ok k ∧ no_nla_tracks k.

(** [s] extends [s0]: apart from the objects [obs] and the meshes [mes],
    the datablocks and scene links of [s0] are as they were. *)
Definition unchanged_except (obs mes : list nat) (s0 s : Bpy) : Prop :=
  vertex_count s = vertex_count s0 ∧
  (next_id s0 ≤ next_id s)%nat ∧
  (∀ x, (x < next_id s0)%nat → x ∉ obs → objects s !! x = objects s0 !! x) ∧
  (∀ x, (x < next_id s0)%nat → x ∉ mes → meshes s !! x = meshes s0 !! x) ∧
  (∀ x, (x < next_id s0)%nat → x ∉ obs → x ∈ scene_objects s ↔ x ∈ scene_objects s0).

(** A batch that [apply_all_modifiers_with_sk] gets through: distinct
    mesh objects with distinct meshes, in a well-formed store, each as
    [sk_object_ok] says.  In particular the host joins every donor, so
    that line 236 finds the key it looks for. *)
Definition batch_ok (s : Bpy) (objs : list nat) : Prop :=
  store_ok s ∧ NoDup objs ∧ NoDup (mesh_ids s objs) ∧ Forall (sk_object_ok s) objs.

(** *** Further example scenes *)

Module MoreExamples.

(** Two objects that share one mesh, and so one shape-key container. *)
Definition shared_mesh_scene : Bpy :=
  Examples.scene [(1, Examples.body_object);
                  (2, Examples.mesh_object "Body.001" 101 []);
                  (10, Examples.rig)]
                 [(101, Examples.body_mesh)]
                 [1; 2].

(** A mesh whose only Armature modifier is bound to no armature. *)
Definition unbound_scene : Bpy :=
  Examples.scene
    [(1, Examples.mesh_object "Body" 101
           [Examples.modifier "Subdivision" SUBSURF None true;
            Examples.modifier "Armature" ARMATURE None true]);
     (10, Examples.rig)]
    [(101, Examples.cube_mesh)]
    [1].

(** A scene in which the bake operator has been triggered, with the
    given frame bounds. *)
Definition armed (frame_start frame_end : option Z) (s : Bpy) : Bpy :=
  set_bake_globals frame_start frame_end true s.

(** A mesh whose shape-key container holds the basis key only. *)
Definition basis_only_scene : Bpy :=
  Examples.scene
    [(1, Examples.body_object); (10, Examples.rig)]
    [(101, {| shape_keys :=
                Some {| key_name := "Key";
                        key_blocks := [Examples.shape_key "Basis" false 0 1 0 0];
                        animation_data := None |};
              geometry := Verts 0 |})]
    [1].



(** A cube under a Weld modifier.  The shape of its key "Smile" brings
    two pairs of vertices together, so the weld leaves six vertices of
    that shape and eight of the others. *)
Fixpoint welded_vertices (g : Geom) : nat :=
  match g with
  | Verts _ => 8
  | ModifierResult md g' =>
      if decide (mod_type md = OtherModifier "WELD") then
        match g' with
        | Verts 1 => 6
        | _ => welded_vertices g'
        end
      else welded_vertices g'
  end.

Definition weld_object : Object :=
  Examples.mesh_object "Body" 101 [Examples.modifier "Weld" (OtherModifier "WELD") None true].

Definition weld_scene : Bpy :=
  {| objects := {[ 1 := weld_object ]}; meshes := {[ 101 := Examples.undriven_mesh ]};
     next_id := 200; scene_objects := [1]; selected := [1]; active := None;
     scene_frame_start := 1; scene_frame_end := 250; frame_current := 1;
     BAKE_SHAPEKEY_ANIMATION_FRAME_START := None;
     BAKE_SHAPEKEY_ANIMATION_FRAME_END := None;
     BAKE_SHAPEKEY_ANIMATION_EXECUTE := false;
     reports := []; trace := []; vertex_count := welded_vertices |}.

End MoreExamples.

(** *** Containers up to the mute flags of their drivers *)

(** A shape-key container read without regard to the mute flags of its
    drivers: every flag is cleared, and an absent animation-data block is
    read as an empty one.  Two containers with the same reading have the
    same name, key blocks, action and NLA tracks, and the same drivers up
    to their mute flags. *)
Definition unmuted_key (k : Key) : Key :=
  with_animation_data
    (Some match animation_data k with
          | None => empty_animation_data
          | Some ad => with_drivers (map (with_drv_mute false) (drivers ad)) ad
          end) k.

Definition unmuted_mesh (m : Mesh) : Mesh :=
  match shape_keys m with
  | Some k => with_shape_keys (Some (unmuted_key k)) m
  | None => m
  end.

(** *** Baking driver values into key frames *)

(** The body of the loop over [self.objects] in the bake operator
    (lines 432-434), for the frame [frame]. *)
Definition bake_body (frame : Z) (obj : nat) : Py unit :=
  '(key, m) ← object_mesh obj;
  match shape_keys m with
  | None => raise AttributeError
  | Some k =>
      match animation_data k with
      | None => raise AttributeError
      | Some a =>
          for_each (drivers a) (λ fcurve,
            keyframe_insert key (drv_data_path fcurve) frame)
      end
  end.

(** The mesh [m] whose container [k] carries the animation data [a]. *)
Definition anim_mesh (m : Mesh) (k : Key) (a : AnimData) : Mesh :=
  with_shape_keys (Some (with_animation_data (Some a) k)) m.

(** The key frames recorded in an animation-data block. *)
Definition anim_keyframes (a : AnimData) : list (string * Z) :=
  match action a with
  | Some act => act_keyframes act
  | None => []
  end.

(** The key frames [kfs0] once each of [kfs] is keyed, in order. *)
Definition keyed_all (kfs kfs0 : list (string * Z)) : list (string * Z) :=
  foldl (λ l kf, keyed_at kf.1 kf.2 l) kfs0 kfs.

(** The block [a] once the key frames [kfs] are inserted, in order. *)
Definition insert_keyframes (kfs : list (string * Z)) (a : AnimData) : AnimData :=
  match kfs with
  | [] => a
  | _ :: _ =>
      with_action
        (Some {| act_name := match action a with
                             | Some act => act_name act
                             | None => "KeyAction"
                             end;
                 act_keyframes := keyed_all kfs (anim_keyframes a) |}) a
  end.

(** One key frame per driver of [a], at [frame]. *)
Definition frame_keyframes (a : AnimData) (frame : Z) : list (string * Z) :=
  map (λ d, (drv_data_path d, frame)) (drivers a).

(** One visit of the bake loop to a mesh. *)
Definition bake_mesh (frame : Z) (m : Mesh) : Mesh :=
  match shape_keys m with
  | Some k =>
      match animation_data k with
      | Some a => anim_mesh m k (insert_keyframes (frame_keyframes a frame) a)
      | None => m
      end
  | None => m
  end.

(** The datablocks [ms] after [f] was applied at each of [keys] in turn. *)
Definition visit {A} (f : A → A) (keys : list nat) (ms : gmap nat A) : gmap nat A :=
  foldl (λ ms key, alter f key ms) ms keys.

Definition bake_frames (frames : list Z) (keys : list nat) (ms : gmap nat Mesh)
  : gmap nat Mesh :=
  foldl (λ ms frame, visit (bake_mesh frame) keys ms) ms frames.

(** A mesh object whose shape-key container has animation data. *)
Definition has_anim (s : Bpy) (ob : nat) : Prop :=
  ∃ o m k a, objects s !! ob = Some o ∧ meshes s !! data o = Some m ∧
             shape_keys m = Some k ∧ animation_data k = Some a.

(** The animation data [a] after the bake visited it at each of [frames]. *)
Definition bake_anim (frames : list Z) (a : AnimData) : AnimData :=
  foldl (λ a frame, insert_keyframes (frame_keyframes a frame) a) a frames.

(** *** Pose reset *)

(** What [reset_pose] leaves in a bone; the second assignment to
    [rotation_euler] is the one that lasts. *)
Definition bone_is_reset (b : Bone) : Prop :=
  bone_location b = (0, 0, 0)%Q ∧
  bone_rotation_quaternion b = (1, 0, 0, 0)%Q ∧
  bone_rotation_euler b = (1, 1, 1)%Q.

Definition reset_object (o : Object) : Object :=
  with_pose (map reset_bone <$> pose o) o.

(** The store after [reset_pose(t)]. *)
Definition reset_step (t : nat) (s : Bpy) : Bpy :=
  set_objects (alter reset_object t) (add_event (EvResetPose t) s).

(** [armature.object] for the modifier that [reset_armature_pose] picks
    on the object [o]. *)
Definition first_target (o : Object) : option nat :=
  first_armature_modifier (modifiers o) ≫= λ p, mod_object p.2.

Definition first_targets (s : Bpy) (objs : list nat) : list nat :=
  omap (λ ob, objects s !! ob ≫= first_target) objs.

(** An object that [reset_armature_pose] can process: it exists, and the
    armature it is bound to, if any, exists and has a pose. *)
Definition armature_ready (s : Bpy) (ob : nat) : Prop :=
  ∃ o, objects s !! ob = Some o ∧
       ∀ t, first_target o = Some t →
            ∃ rig, objects s !! t = Some rig ∧ is_Some (pose rig).

(** The body of the loop of [reset_armature_pose]. *)
Definition reset_armature_body (processed_armature : list PyRef) (obj : nat)
  : Py (list PyRef) :=
  o ← get_object obj;
  match first_armature_modifier (modifiers o) with
  | Some (i, armature) =>
      match mod_object armature with
      | Some armature_object =>
          if decide (RefObject armature_object ∉ processed_armature) then
            reset_pose armature_object ;;
            mret (processed_armature ++ [RefModifier obj i])
          else mret processed_armature
      | None => mret processed_armature
      end
  | None => mret processed_armature
  end.

(** *** Copies *)

(** The [i]-th copy (counted from 0) that [copy_object(obj, times, offset)]
    makes of the object [o], when [c] is the identifier it gets: it has
    its own mesh, stored right after it. *)
Definition copy_of (o : Object) (offset : float) (i c : nat) : Object :=
  with_location_x (location_x o + offset * inject_Z (Z.of_nat (i + 1)))%Q
    (with_obj_name (obj_name o +:+ "_shapekey_" +:+ pretty (i + 1)%nat)
       (with_data (S c) o)).

(** The store after that copy of the object [o] with mesh [m]. *)
Definition copy_step (o : Object) (m : Mesh) (offset : float) (i : nat) (s : Bpy) : Bpy :=
  set_scene_objects (λ l, l ++ [next_id s])
    (set_objects <[next_id s := copy_of o offset i (next_id s)]>
       (set_meshes <[S (next_id s) := m]>
          (set_next_id (S (S (next_id s))) s))).

(** The body of the loop of [copy_object]. *)
Definition copy_body (obj : nat) (offset : float) (objects : list nat) (i : nat)
  : Py (list nat) :=
  copy_obj ← object_copy obj;
  o ← get_object obj;
  new_data ← mesh_copy (data o);
  update_object copy_obj (with_data new_data) ;;
  o ← get_object obj;
  update_object copy_obj (with_obj_name (obj_name o +:+ "_shapekey_" +:+ pretty (i + 1)%nat)) ;;
  update_object copy_obj (λ c,
    with_location_x (location_x c + offset * inject_Z (Z.of_nat (i + 1)))%Q c) ;;
  collection_link copy_obj ;;
  mret (objects ++ [copy_obj]).

(** The identifiers of the copies, when [n] is the first free one. *)
Definition copy_ids (n times : nat) : list nat :=
  map (λ i, n + 2 * i) (seq 0 times).

(** Whether the object [ob] has shape keys. *)
Definition keyed (s : Bpy) (ob : nat) : bool :=
  match objects s !! ob with
  | Some o =>
      match meshes s !! data o with
      | Some m => bool_decide (shape_keys m ≠ None)
      | None => false
      end
  | None => false
  end.

(** *** Joining shapes *)





(** *** The receiver of [apply_all_modifiers_with_sk] *)

(** The geometry [g] with the modifiers of [o] that the host accepts
    baked in (what [apply_modifiers] leaves in a mesh of shape [g]). *)
Definition baked_geometry (o : Object) (g : Geom) : Geom :=
  baked (clear_control_edges <$> modifiers o) g.

(** The modifiers [apply_modifiers] leaves on the stack of [o]. *)
Definition armature_stack (o : Object) : list Modifier :=
  filter (λ md, mod_type md = ARMATURE) (modifiers o).

(** The shape that [join_shapes] reads off a donor made from the shape
    [g]: the baked geometry as deformed by the armature modifiers still
    on the donor's stack. *)
Definition donor_shape (o : Object) (g : Geom) : Geom :=
  fold_left (λ g md, ModifierResult md g) (armature_stack o) (baked_geometry o g).

(** The receiver's key for the original key [osk]: the key that
    [join_shapes] makes of the donor, with the metadata of [osk]
    assigned to it. *)
Definition carried_key (o : Object) (osk : ShapeKey) : ShapeKey :=
  restored osk (new_shape_key (sk_name osk) (donor_shape o (sk_data osk))).

(** The receiver's keys once [n] non-basis keys have been carried over:
    a fresh basis, then the carried keys in the original order. *)
Definition receiver_blocks (o : Object) (m : Mesh) (k : Key) (n : nat) : list ShapeKey :=
  new_shape_key "Basis" (baked_geometry o (geometry m)) ::
  map (carried_key o) (take n (drop 1 (key_blocks k))).

(** The receiver's mesh when the loop over the non-basis keys is about to
    visit key [i]. *)
Definition receiver_mesh_at (o : Object) (m : Mesh) (k : Key) (i : nat) : Mesh :=
  {| shape_keys :=
       if decide (i ≤ 1)%nat then None
       else Some {| key_name := "Key";
                    key_blocks := receiver_blocks o m k (i - 1);
                    animation_data := None |};
     geometry := baked_geometry o (geometry m) |}.

(** What the loop keeps besides: the receiver's mesh is as described, and
    no datablock made since [s0] is left except the receiver and its
    mesh. *)
Definition donor_exact (s0 : Bpy) (rid : nat) (o : Object) (m : Mesh) (k : Key)
    (i : nat) (s : Bpy) : Prop :=
  meshes s !! S rid = Some (receiver_mesh_at o m k i) ∧
  (∀ x, (next_id s0 ≤ x)%nat → x ≠ rid → objects s !! x = None) ∧
  (∀ x, (next_id s0 ≤ x)%nat → x ≠ S rid → meshes s !! x = None).

(** [copy_driver] over a list of drivers. *)
Fixpoint copy_drivers (ds : list Driver) : Res (list Driver) :=
  match ds with
  | [] => Ok []
  | d :: rest => d' ← copy_driver d; ds' ← copy_drivers rest; Ok (d' :: ds')
  end.

(** The animation data of the receiver's container after the transfer
    from the block [src], which has no NLA track and whose drivers were
    copied to [ds']. *)
Definition transferred (src : AnimData) (ds' : list Driver) (dst : AnimData) : AnimData :=
  {| action := match action src with
               | Some act => Some act
               | None => action dst
               end;
     drivers := drivers dst ++ ds';
     nla_tracks := nla_tracks dst |}.

(** The object that replaces the original [o]: under the fresh identifier
    [rid], with the original's name and the armature modifiers only. *)
Definition receiver_object (o : Object) (rid : nat) : Object :=
  with_obj_name (obj_name o)
    (with_modifiers (armature_stack o)
       (with_obj_name "sk_receiver" (object_copy_of rid o))).

(** Its mesh: the baked geometry, a container named after the original
    object with the carried keys, and the transferred animation data. *)
Definition receiver_mesh (o : Object) (m : Mesh) (k : Key) (ds' : list Driver) : Mesh :=
  {| shape_keys :=
       Some {| key_name := obj_name o +:+ ".SK";
               key_blocks := receiver_blocks o m k (length (key_blocks k) - 1);
               animation_data :=
                 Some (transferred (default empty_animation_data (animation_data k)) ds'
                         empty_animation_data) |};
     geometry := baked_geometry o (geometry m) |}.

(** What the loop of [apply_all_modifiers_with_sk] leaves of the object
    [obj] of its batch: without shape keys the modifiers are applied in
    place; with shape keys the object and its mesh are gone, and the
    receiver [rid] stands for them. *)
Definition pass_result (obj : nat) (o : Object) (m : Mesh) (rid : nat) (s' : Bpy) : Prop :=
  match shape_keys m with
  | None =>
      objects s' !! obj = Some (with_modifiers (armature_stack o) o) ∧
      meshes s' !! data o = Some (with_geometry (baked_geometry o (geometry m)) m)
  | Some k =>
      objects s' !! obj = None ∧ meshes s' !! data o = None ∧
      ∃ ds', copy_drivers (drivers (default empty_animation_data (animation_data k))) = Ok ds' ∧
        objects s' !! rid = Some (receiver_object o rid) ∧
        meshes s' !! S rid = Some (receiver_mesh o m k ds')
  end.

(** The filter of the list comprehension in [SK_OT_apply_mods.execute]. *)
Definition is_mesh (s : Bpy) (ob : nat) : bool :=
  match objects s !! ob with
  | Some o => bool_decide (obj_type o = MESH)
  | None => false
  end.

(** [self.objects] of [SK_OT_apply_mods.execute]: the selected mesh
    objects, in selection order. *)
Definition mesh_selection (s : Bpy) : list nat :=
  filter (λ ob, is_mesh s ob) (selected s).

(** ** Properties

    *** Running computations *)

Lemma run_bind {A B} (m : Py A) (f : A → Py B) s :
  (m ≫= f) s = match m s with
               | (Ok a, s') => f a s'
               | (Raise e, s') => (Raise e, s')
               end.
Proof. reflexivity. Qed.

Lemma bind_ok {A B} (m : Py A) (f : A → Py B) s a s' :
  m s = (Ok a, s') → (m ≫= f) s = f a s'.
Proof. intros H. rewrite run_bind, H. reflexivity. Qed.

Lemma bind_raise {A B} (m : Py A) (f : A → Py B) s e s' :
  m s = (Raise e, s') → (m ≫= f) s = (Raise e, s').
Proof. intros H. rewrite run_bind, H. reflexivity. Qed.

(** C7.  While the trigger [BAKE_SHAPEKEY_ANIMATION_EXECUTE] is not set,
    [sk.bake_shapekey_animation] returns FINISHED and leaves the whole
    store as it was: no frame change, no key frame, no report. *)
Theorem bake_execute_gate s :
  BAKE_SHAPEKEY_ANIMATION_EXECUTE s = false →
  SK_OT_bake_shapekey_animation.execute s = (Ok FINISHED, s).
Proof.
  intros H. unfold SK_OT_bake_shapekey_animation.execute.
  rewrite run_bind. unfold SK_OT_bake_shapekey_animation.get_execute at 1.
  rewrite run_bind. cbn. rewrite H. reflexivity.
Qed.

Lemma bake_execute_gate_witness :
  BAKE_SHAPEKEY_ANIMATION_EXECUTE Examples.body_scene = false ∧
  SK_OT_bake_shapekey_animation.execute Examples.body_scene = (Ok FINISHED, Examples.body_scene).
Proof. split; [reflexivity | apply bake_execute_gate; reflexivity]. Defined.

Lemma comprehension_none {A} (l : list A) (p : A → Py bool) s :
  Forall (λ x, p x s = (Ok false, s)) l →
  comprehension l p s = (Ok [], s).
Proof.
  induction 1 as [|x l Hx Hl IH]; [reflexivity|].
  cbn [comprehension]. rewrite (bind_ok _ _ _ _ _ Hx), (bind_ok _ _ _ _ _ IH).
  reflexivity.
Qed.

(** C6.  When no selected object is a mesh, [sk.apply_mods] reports an
    error and returns CANCELLED; the store it leaves differs from the
    one it found by that report only. *)
Theorem apply_mods_no_mesh_cancelled action reset s :
  Forall (λ ob, ∃ o, objects s !! ob = Some o ∧ obj_type o ≠ MESH) (selected s) →
  SK_OT_apply_mods.execute action reset s =
    (Ok CANCELLED,
     add_report (ERROR, "No Active object. Please select at least 1 mesh object") s).
Proof.
  intros Hsel. unfold SK_OT_apply_mods.execute.
  rewrite run_bind. cbn [get_state].
  erewrite bind_ok; cycle 1.
  { apply comprehension_none. eapply Forall_impl; [exact Hsel|].
    intros ob (o & Ho & Ht). cbn beta.
    unfold get_object. rewrite run_bind, Ho.
    rewrite bool_decide_eq_false_2 by done. reflexivity. }
  reflexivity.
Qed.

(** *** Driver toggling *)

Lemma upd_mesh_twice me m m' s : upd_mesh me m (upd_mesh me m' s) = upd_mesh me m s.
Proof. destruct s. unfold upd_mesh, set_meshes. cbn. f_equal. apply insert_insert_eq. Qed.

Lemma upd_mesh_id me m s : meshes s !! me = Some m → upd_mesh me m s = s.
Proof. intros H. destruct s. unfold upd_mesh, set_meshes. cbn in *. f_equal. by apply insert_id. Qed.

Lemma with_drivers_id ad : with_drivers (drivers ad) ad = ad.
Proof. by destruct ad. Qed.


Lemma get_object_run ob o s : objects s !! ob = Some o → get_object ob s = (Ok o, s).
Proof. intros H. unfold get_object. by rewrite H. Qed.

Lemma get_mesh_run me m s : meshes s !! me = Some m → get_mesh me s = (Ok m, s).
Proof. intros H. unfold get_mesh. by rewrite H. Qed.

Lemma put_mesh_run me m s : put_mesh me m s = (Ok tt, upd_mesh me m s).
Proof. reflexivity. Qed.

Lemma object_mesh_run ob o m s :
  objects s !! ob = Some o → meshes s !! data o = Some m →
  object_mesh ob s = (Ok (data o, m), s).
Proof.
  intros Ho Hm. unfold object_mesh.
  rewrite (bind_ok _ _ _ _ _ (get_object_run _ _ _ Ho)).
  rewrite (bind_ok _ _ _ _ _ (get_mesh_run _ _ _ Hm)). reflexivity.
Qed.

Lemma get_key_run key m k s :
  meshes s !! key = Some m → shape_keys m = Some k → get_key key s = (Ok k, s).
Proof.
  intros Hm Hk. unfold get_key.
  rewrite (bind_ok _ _ _ _ _ (get_mesh_run _ _ _ Hm)), Hk. reflexivity.
Qed.

Lemma update_key_run key m k f s :
  meshes s !! key = Some m → shape_keys m = Some k →
  update_key key f s = (Ok tt, upd_mesh key (with_shape_keys (Some (f k)) m) s).
Proof.
  intros Hm Hk. unfold update_key.
  rewrite (bind_ok _ _ _ _ _ (get_mesh_run _ _ _ Hm)), Hk. reflexivity.
Qed.

Lemma get_animation_data_run key m k ad s :
  meshes s !! key = Some m → shape_keys m = Some k → animation_data k = Some ad →
  get_animation_data key s = (Ok ad, s).
Proof.
  intros Hm Hk Ha. unfold get_animation_data.
  rewrite (bind_ok _ _ _ _ _ (get_key_run _ _ _ _ Hm Hk)), Ha. reflexivity.
Qed.

Lemma update_animation_data_run key m k ad f s :
  meshes s !! key = Some m → shape_keys m = Some k → animation_data k = Some ad →
  update_animation_data key f s =
    (Ok tt, upd_mesh key (with_shape_keys (Some (with_animation_data (Some (f ad)) k)) m) s).
Proof.
  intros Hm Hk Ha. unfold update_animation_data.
  rewrite (bind_ok _ _ _ _ _ (get_key_run _ _ _ _ Hm Hk)), Ha.
  by apply update_key_run.
Qed.


Section toggle.
Import SK_OT_toggle_shapekeys_drivers.
Variable a : ToggleAction.

Lemma update_driver_run key m k ad done d rest s :
  meshes s !! key = Some (drivers_mesh m k ad (done ++ d :: rest)) →
  update_driver key (length done) (set_mute a) s =
    (Ok tt, upd_mesh key (drivers_mesh m k ad ((done ++ [set_mute a d]) ++ rest)) s).
Proof.
  intros Hm. unfold update_driver.
  erewrite bind_ok by (eapply get_animation_data_run; [exact Hm|reflexivity..]).
  cbn [drivers with_drivers]. rewrite list_lookup_middle by done.
  erewrite update_animation_data_run by (first [exact Hm|reflexivity]).
  assert (<[length done := set_mute a d]> (done ++ d :: rest)
          = (done ++ [set_mute a d]) ++ rest) as ->; [|reflexivity].
  rewrite <- (Nat.add_0_r (length done)), insert_app_r. cbn. by rewrite <- app_assoc.
Qed.

Lemma toggle_loop key m k ad rest : ∀ done s num,
  meshes s !! key = Some (drivers_mesh m k ad (done ++ rest)) →
  for_fold (seq (length done) (length rest)) num
    (λ num i, update_driver key i (set_mute a) ;; mret (num + 1)%nat) s =
  (Ok (num + length rest)%nat,
   upd_mesh key (drivers_mesh m k ad (done ++ map (set_mute a) rest)) s).
Proof.
  induction rest as [|d rest IH]; intros done s num Hm.
  - cbn. rewrite Nat.add_0_r. by rewrite upd_mesh_id.
  - cbn [length seq for_fold]. rewrite run_bind.
    rewrite run_bind. erewrite update_driver_run by done. cbn [mret Py_ret].
    specialize (IH (done ++ [set_mute a d])).
    rewrite length_app in IH. cbn in IH. rewrite Nat.add_1_r in IH.
    rewrite IH.
    + rewrite upd_mesh_twice. f_equal; [f_equal; lia|].
      by rewrite <- app_assoc.
    + unfold upd_mesh. cbn. by rewrite lookup_insert_eq.
Qed.

Lemma drivers_mesh_id m k ad :
  shape_keys m = Some k → animation_data k = Some ad →
  drivers_mesh m k ad (drivers ad) = m.
Proof. destruct m, k, ad. cbn. intros -> ->. reflexivity. Qed.

Lemma toggle_object_run ob o m k n1 n2 s :
  objects s !! ob = Some o → meshes s !! data o = Some m → shape_keys m = Some k →
  let n := length (key_drivers s (data o)) in
  toggle_object a (n1, n2) ob s =
    (Ok ((n1 + n)%nat, if decide (0 < n) then (n2 + 1)%nat else n2),
     upd_mesh (data o) (toggle_mesh a m) s).
Proof.
  intros Ho Hm Hk n. subst n. unfold key_drivers, mesh_drivers. rewrite Hm, Hk.
  unfold toggle_object.
  rewrite (bind_ok _ _ _ _ _ (object_mesh_run _ _ _ _ Ho Hm)).
  rewrite (bind_ok _ _ _ _ _ (get_key_run _ _ _ _ Hm Hk)).
  unfold toggle_mesh, toggle_key. rewrite Hk.
  destruct (animation_data k) as [ad|] eqn:Ha.
  - rewrite run_bind. cbn [mret Py_ret].
    rewrite (bind_ok _ _ _ _ _ (get_animation_data_run _ _ _ _ _ Hm Hk Ha)).
    rewrite run_bind.
    pose proof (toggle_loop (data o) m k ad (drivers ad) [] s n1) as Hloop.
    cbn [length app] in Hloop. rewrite Hloop; [reflexivity|].
    by rewrite drivers_mesh_id.
  - rewrite run_bind. unfold animation_data_create.
    erewrite update_key_run by done. rewrite Ha.
    erewrite bind_ok; cycle 1.
    { eapply get_animation_data_run; [apply lookup_insert_eq|reflexivity..]. }
    cbn. by rewrite Nat.add_0_r.
Qed.

Lemma mesh_drivers_toggle m :
  mesh_drivers (toggle_mesh a m) = map (set_mute a) (mesh_drivers m).
Proof.
  unfold mesh_drivers, toggle_mesh. destruct (shape_keys m) as [k|] eqn:Hk; [|by rewrite Hk].
  cbn. by destruct (animation_data k).
Qed.

Lemma key_drivers_toggle_length key m s key' :
  meshes s !! key = Some m →
  length (key_drivers (upd_mesh key (toggle_mesh a m) s) key') =
  length (key_drivers s key').
Proof.
  intros Hm. unfold key_drivers, upd_mesh. cbn.
  destruct (decide (key = key')) as [<-|Hne].
  - rewrite lookup_insert_eq, Hm, mesh_drivers_toggle. apply length_map.
  - by rewrite lookup_insert_ne.
Qed.

Lemma has_keys_toggle key m s ob :
  meshes s !! key = Some m → has_keys s ob →
  has_keys (upd_mesh key (toggle_mesh a m) s) ob.
Proof.
  intros Hm (o & m' & k & Ho & Hm' & Hk). unfold has_keys, upd_mesh. cbn.
  destruct (decide (key = data o)) as [->|Hne].
  - exists o, (toggle_mesh a m), (toggle_key a k).
    rewrite lookup_insert_eq. split_and!; [done..|].
    assert (m' = m) as -> by congruence.
    unfold toggle_mesh. by rewrite Hk.
  - exists o, m', k. by rewrite lookup_insert_ne.
Qed.

Lemma set_meshes_upd_mesh f g key m s :
  f (<[key := m]> (meshes s)) = g (meshes s) →
  set_meshes f (upd_mesh key m s) = set_meshes g s.
Proof. intros H. destruct s. unfold upd_mesh, set_meshes in *. cbn in *. by f_equal. Qed.

Lemma insert_toggle_alter key m (ms : gmap nat Mesh) :
  ms !! key = Some m → <[key := toggle_mesh a m]> ms = alter (toggle_mesh a) key ms.
Proof.
  intros Hm. apply map_eq. intros i. rewrite lookup_insert, lookup_alter.
  repeat case_decide; subst; try done. by rewrite Hm.
Qed.

Lemma mesh_ids_cons s ob o obs :
  objects s !! ob = Some o → mesh_ids s (ob :: obs) = data o :: mesh_ids s obs.
Proof. intros Ho. unfold mesh_ids. cbn. by rewrite Ho. Qed.

Lemma toggle_objects_run obs : ∀ s n1 n2,
  Forall (has_keys s) obs →
  let keys := mesh_ids s obs in
  for_fold obs (n1, n2) (toggle_object a) s =
    (Ok ((n1 + toggled_drivers s keys)%nat, (n2 + toggled_objects s keys)%nat),
     set_meshes (toggle_meshes a keys) s).
Proof.
  induction obs as [|ob obs IH]; intros s n1 n2 Hall keys; subst keys.
  - cbn. rewrite !Nat.add_0_r. by destruct s.
  - apply Forall_cons in Hall as [(o & m & k & Ho & Hm & Hk) Hall].
    cbn [for_fold]. rewrite run_bind.
    rewrite (toggle_object_run ob o m k n1 n2 s Ho Hm Hk). cbv zeta.
    rewrite IH; cycle 1.
    { eapply Forall_impl; [exact Hall|]. intros ob'. by apply has_keys_toggle. }
    change (mesh_ids (upd_mesh (data o) (toggle_mesh a m) s) obs) with (mesh_ids s obs).
    rewrite (mesh_ids_cons _ _ _ _ Ho).
    set (keys := mesh_ids s obs).
    assert (Hlen : ∀ key', length (key_drivers (upd_mesh (data o) (toggle_mesh a m) s) key')
                           = length (key_drivers s key'))
      by (intros; by apply key_drivers_toggle_length).
    f_equal.
    + f_equal. f_equal.
      * unfold toggled_drivers. cbn [map sum_list]. rewrite Nat.add_assoc. f_equal.
        f_equal. apply map_ext. intros. apply Hlen.
      * unfold toggled_objects. rewrite filter_cons.
        assert (filter (λ key, 0 < length (key_drivers (upd_mesh (data o) (toggle_mesh a m) s) key)) keys
                = filter (λ key, 0 < length (key_drivers s key)) keys) as ->.
        { apply list_filter_iff. intros. by rewrite Hlen. }
        repeat case_decide; cbn [length]; lia.
    + apply set_meshes_upd_mesh. cbn [toggle_meshes foldl]. unfold toggle_meshes.
      by rewrite (insert_toggle_alter _ _ _ Hm).
Qed.

Lemma eligible_comprehension l s :
  Forall (λ ob, ∃ o, objects s !! ob = Some o ∧
                     (obj_type o = MESH → is_Some (meshes s !! data o))) l →
  comprehension l (λ obj,
    o ← get_object obj;
    if decide (obj_type o = MESH) then
      sks ← obj_shape_keys obj; mret (bool_decide (sks ≠ None))
    else mret false) s =
  (Ok (filter (λ ob, eligible s ob) l), s).
Proof.
  induction 1 as [|ob l (o & Ho & Hm) _ IH]; [reflexivity|].
  cbn [comprehension]. rewrite run_bind.
  rewrite (bind_ok _ _ _ _ _ (get_object_run _ _ _ Ho)).
  rewrite filter_cons.
  destruct (decide (obj_type o = MESH)) as [Ht|Ht].
  - destruct (Hm Ht) as [m Hm'].
    assert (He : eligible s ob = bool_decide (shape_keys m ≠ None)).
    { unfold eligible. rewrite Ho, decide_True, Hm' by done. done. }
    unfold obj_shape_keys.
    rewrite run_bind, (bind_ok _ _ _ _ _ (object_mesh_run _ _ _ _ Ho Hm')).
    cbn [mret Py_ret]. rewrite (bind_ok _ _ _ _ _ IH). rewrite He.
    by destruct (bool_decide (shape_keys m ≠ None)).
  - assert (He : eligible s ob = false).
    { unfold eligible. by rewrite Ho, decide_False. }
    cbn [mret Py_ret]. rewrite (bind_ok _ _ _ _ _ IH). by rewrite He.
Qed.

Lemma eligible_has_keys s ob : eligible s ob = true → has_keys s ob.
Proof.
  unfold eligible, has_keys. destruct (objects s !! ob) as [o|] eqn:Ho; [|done].
  destruct (decide (obj_type o = MESH)); [|done].
  destruct (meshes s !! data o) as [m|] eqn:Hm; [|done].
  intros Hb%bool_decide_eq_true. destruct (shape_keys m) as [k|] eqn:Hk; [|done].
  by exists o, m, k.
Qed.

Lemma toggle_execute_run s :
  selection_ok s →
  let obs := filter (λ ob, eligible s ob) (selected s) in
  let keys := mesh_ids s obs in
  execute a s =
    if decide (obs = []) then
      (Ok CANCELLED,
       add_report (ERROR, "No appropriate mesh selected. Please select at least 1 mesh with shape key that has driver on it") s)
    else
      (Ok FINISHED,
       add_report (INFO, toggled_message a (toggled_drivers s keys) (toggled_objects s keys))
         (set_meshes (toggle_meshes a keys) s)).
Proof.
  intros Hsel obs keys. unfold execute. rewrite run_bind. cbn [get_state].
  rewrite (bind_ok _ _ _ _ _ (eligible_comprehension _ _ Hsel)). fold obs.
  unfold validate_input. rewrite run_bind.
  destruct obs as [|ob obs'] eqn:Hobs.
  - reflexivity.
  - rewrite decide_False by done. cbn [mret Py_ret negb].
    rewrite decide_False by done.
    rewrite run_bind, toggle_objects_run; [reflexivity|].
    rewrite <- Hobs. apply Forall_forall. intros x Hx. subst obs.
    apply list_elem_of_filter in Hx as [Hx _]. apply eligible_has_keys.
    by apply Is_true_true.
Qed.
End toggle.

Section toggle_twice.
Import SK_OT_toggle_shapekeys_drivers.
Variable a : ToggleAction.

Lemma lookup_toggle_meshes keys : ∀ (ms : gmap nat Mesh) key,
  toggle_meshes a keys ms !! key =
  Nat.iter (occurrences key keys) (toggle_mesh a) <$> ms !! key.
Proof.
  induction keys as [|k keys IH]; intros ms key.
  - cbn. by destruct (ms !! key).
  - cbn [toggle_meshes foldl]. fold (toggle_meshes a keys (alter (toggle_mesh a) k ms)).
    rewrite IH, lookup_alter. unfold occurrences. rewrite filter_cons.
    repeat case_decide; subst; try done.
    cbn [length]. destruct (ms !! key); cbn; [|done].
    by rewrite Nat.iter_swap.
Qed.

Lemma toggle_execute_effect s :
  selection_ok s →
  (fst (execute a s) = Ok CANCELLED ∨ fst (execute a s) = Ok FINISHED) ∧
  objects (snd (execute a s)) = objects s ∧
  selected (snd (execute a s)) = selected s ∧
  meshes (snd (execute a s)) = toggle_meshes a (selected_keys s) (meshes s).
Proof.
  intros Hsel. rewrite (toggle_execute_run a s Hsel). unfold selected_keys.
  case_decide as Hobs; cbn; [rewrite Hobs|]; auto.
Qed.

Lemma shape_keys_iter_toggle n m :
  bool_decide (shape_keys (Nat.iter n (toggle_mesh a) m) ≠ None)
  = bool_decide (shape_keys m ≠ None).
Proof.
  induction n as [|n IH]; [done|]. rewrite Nat.iter_succ, <- IH.
  generalize (Nat.iter n (toggle_mesh a) m). intros x.
  unfold toggle_mesh. by destruct (shape_keys x) eqn:Hx; [|rewrite Hx].
Qed.

Lemma eligible_after s s' keys :
  objects s' = objects s → meshes s' = toggle_meshes a keys (meshes s) →
  ∀ ob, eligible s' ob = eligible s ob.
Proof.
  intros Ho Hm ob. unfold eligible. rewrite Ho, Hm.
  destruct (objects s !! ob) as [o|]; [|done].
  case_decide; [|done]. rewrite lookup_toggle_meshes.
  destruct (meshes s !! data o); cbn; [|done]. apply shape_keys_iter_toggle.
Qed.

Lemma selection_ok_after s s' keys :
  objects s' = objects s → selected s' = selected s →
  meshes s' = toggle_meshes a keys (meshes s) →
  selection_ok s → selection_ok s'.
Proof.
  intros Ho Hs Hm. unfold selection_ok. rewrite Hs, Ho, Hm.
  intros Hall. eapply Forall_impl; [exact Hall|].
  intros ob (o & Hob & Hmesh). exists o. split; [done|].
  intros Ht. rewrite lookup_toggle_meshes. destruct (Hmesh Ht) as [m ->]. by eexists.
Qed.

Lemma selected_keys_after s s' keys :
  objects s' = objects s → selected s' = selected s →
  meshes s' = toggle_meshes a keys (meshes s) →
  selected_keys s' = selected_keys s.
Proof.
  intros Ho Hs Hm. unfold selected_keys, mesh_ids. rewrite Hs, Ho.
  f_equal. apply list_filter_iff. intros ob.
  by rewrite (eligible_after s s' keys Ho Hm).
Qed.

(** Two runs in a row toggle every container twice as often as one. *)
Lemma toggle_twice_lookup s key :
  selection_ok s →
  let s1 := snd (execute a s) in
  let s2 := snd (execute a s1) in
  let n := occurrences key (selected_keys s) in
  meshes s1 !! key = Nat.iter n (toggle_mesh a) <$> meshes s !! key ∧
  meshes s2 !! key = Nat.iter (n + n) (toggle_mesh a) <$> meshes s !! key.
Proof.
  intros Hsel s1 s2 n.
  destruct (toggle_execute_effect s Hsel) as (_ & Ho & Hs & Hm).
  assert (Hsel1 : selection_ok s1) by (by eapply selection_ok_after).
  destruct (toggle_execute_effect s1 Hsel1) as (_ & Ho2 & Hs2 & Hm2).
  fold s1 in Ho, Hs, Hm. fold s2 in Ho2, Hs2, Hm2.
  rewrite (selected_keys_after s s1 _ Ho Hs Hm) in Hm2.
  rewrite Hm2, Hm, !lookup_toggle_meshes. fold n. split; [done|].
  destruct (meshes s !! key); cbn; [|done]. by rewrite Nat.iter_add.
Qed.
End toggle_twice.

Lemma toggle_mesh_MUTE_idem m :
  toggle_mesh MUTE (toggle_mesh MUTE m) = toggle_mesh MUTE m.
Proof.
  unfold toggle_mesh. destruct (shape_keys m) as [k|] eqn:Hk; [|by rewrite Hk].
  unfold toggle_key. destruct (animation_data k) as [ad|]; cbn; [|done].
  rewrite map_map.
  assert (map (λ d, SK_OT_toggle_shapekeys_drivers.set_mute MUTE
                      (SK_OT_toggle_shapekeys_drivers.set_mute MUTE d)) (drivers ad)
          = map (SK_OT_toggle_shapekeys_drivers.set_mute MUTE) (drivers ad)) as ->; [|done].
  apply map_ext. by intros [].
Qed.

Lemma iter_idem {A} (f : A → A) n x :
  (∀ y, f (f y) = f y) → Nat.iter (n + n) f x = Nat.iter n f x.
Proof.
  intros Hf. destruct n as [|n]; [done|].
  assert (H1 : ∀ k y, Nat.iter (S k) f y = f y).
  { induction k as [|k IH]; intros y; [done|].
    rewrite Nat.iter_succ. by rewrite IH. }
  change (S n + S n)%nat with (S (n + S n)). by rewrite !H1.
Qed.

(** C8.  [sk.toggle_shapekeys_drivers] with action MUTE is idempotent:
    a second run leaves every mesh, and so the mute flag of every driver,
    as the first run left it. *)
Theorem toggle_MUTE_idempotent s :
  selection_ok s →
  let once := snd (SK_OT_toggle_shapekeys_drivers.execute MUTE s) in
  let twice := snd (SK_OT_toggle_shapekeys_drivers.execute MUTE once) in
  meshes twice = meshes once ∧
  ∀ key, map drv_mute (key_drivers twice key) = map drv_mute (key_drivers once key).
Proof.
  intros Hsel once twice. subst once twice.
  set (once := snd (SK_OT_toggle_shapekeys_drivers.execute MUTE s)).
  set (twice := snd (SK_OT_toggle_shapekeys_drivers.execute MUTE once)).
  assert (Heq : meshes twice = meshes once).
  { apply map_eq. intros key.
    pose proof (toggle_twice_lookup MUTE s key Hsel) as H. cbv zeta in H.
    destruct H as [H1 H2]. fold once in H1, H2. fold twice in H2. rewrite H1, H2.
    destruct (meshes s !! key); cbn; [|done].
    f_equal. apply iter_idem, toggle_mesh_MUTE_idem. }
  split; [done|]. intros key. unfold key_drivers. by rewrite Heq.
Qed.

Lemma set_mute_TOGGLE_twice d :
  SK_OT_toggle_shapekeys_drivers.set_mute TOGGLE
    (SK_OT_toggle_shapekeys_drivers.set_mute TOGGLE d) = d.
Proof. destruct d as [? [] ? ? ? ?]; reflexivity. Qed.

Lemma mesh_drivers_iter a n m :
  mesh_drivers (Nat.iter n (toggle_mesh a) m) =
  Nat.iter n (map (SK_OT_toggle_shapekeys_drivers.set_mute a)) (mesh_drivers m).
Proof.
  induction n as [|n IH]; [done|]. by rewrite !Nat.iter_succ, mesh_drivers_toggle, IH.
Qed.

Lemma iter_involution {A} (f : A → A) n x :
  (∀ y, f (f y) = y) → Nat.iter (n + n) f x = x.
Proof.
  intros Hf. induction n as [|n IH]; [done|].
  rewrite Nat.add_succ_r. cbn [Nat.add].
  by rewrite !Nat.iter_succ, Hf.
Qed.

(** C9.  [sk.toggle_shapekeys_drivers] with action TOGGLE is an
    involution on the drivers: after two runs every container has the
    drivers, with the mute flags, it had before the first. *)
Theorem toggle_TOGGLE_involution s :
  selection_ok s →
  let once := snd (SK_OT_toggle_shapekeys_drivers.execute TOGGLE s) in
  let twice := snd (SK_OT_toggle_shapekeys_drivers.execute TOGGLE once) in
  ∀ key, key_drivers twice key = key_drivers s key.
Proof.
  intros Hsel once twice key. subst once twice.
  pose proof (toggle_twice_lookup TOGGLE s key Hsel) as H. cbv zeta in H.
  destruct H as [_ H2]. unfold key_drivers. rewrite H2.
  destruct (meshes s !! key); cbn; [|done].
  rewrite mesh_drivers_iter. apply iter_involution.
  intros l. rewrite map_map. rewrite <- (map_id l) at 2. apply map_ext.
  intros d. apply set_mute_TOGGLE_twice.
Qed.

(** *** Shape-key isolation *)

Lemma obj_shape_keys_run ob o m s :
  objects s !! ob = Some o → meshes s !! data o = Some m →
  obj_shape_keys ob s = (Ok (shape_keys m), s).
Proof.
  intros Ho Hm. unfold obj_shape_keys.
  by rewrite (bind_ok _ _ _ _ _ (object_mesh_run _ _ _ _ Ho Hm)).
Qed.

Lemma keyed_mesh_id m k :
  shape_keys m = Some k → key_blocks k ≠ [] →
  keyed_mesh k (key_blocks k) (geometry m) = m.
Proof.
  destruct m as [sk g], k as [n ks a]. cbn. intros -> Hne.
  unfold keyed_mesh. cbn. by destruct ks.
Qed.

Lemma shape_key_remove_at_keyed i k0 ks g :
  is_Some (ks !! i) →
  shape_key_remove_at i (keyed_mesh k0 ks g) =
    Ok (keyed_mesh k0 (delete i ks)
          match i, delete i ks with
          | O, first :: _ => sk_data first
          | _, _ => g
          end).
Proof.
  intros [x Hx]. unfold shape_key_remove_at, keyed_mesh. cbn.
  destruct ks as [|y ks]; [done|]. cbn [shape_keys key_blocks with_key_blocks].
  rewrite Hx. destruct i as [|i]; cbn.
  - by destruct ks.
  - destruct ks as [|z ks]; [done|]. by cbn.
Qed.

Section isolate.
Variables (ob : nat) (o : Object) (k0 : Key) (sk_keep : Z).

Lemma shape_key_remove_run i ks g s :
  objects s !! ob = Some o →
  meshes s !! data o = Some (keyed_mesh k0 ks g) →
  is_Some (ks !! i) →
  shape_key_remove ob i s =
    (Ok tt, upd_mesh (data o)
              (keyed_mesh k0 (delete i ks)
                 match i, delete i ks with
                 | O, first :: _ => sk_data first
                 | _, _ => g
                 end) s).
Proof.
  intros Ho Hm Hi. unfold shape_key_remove.
  rewrite (bind_ok _ _ _ _ _ (object_mesh_run _ _ _ _ Ho Hm)).
  by rewrite shape_key_remove_at_keyed.
Qed.

Lemma isolate_loop pre : ∀ tl g s,
  (0 ≤ sk_keep)%Z →
  objects s !! ob = Some o →
  meshes s !! data o = Some (keyed_mesh k0 (pre ++ tl) g) →
  for_each (rev (seq 0 (length pre))) (isolate_body ob sk_keep) s =
    (Ok tt,
     upd_mesh (data o)
       (keyed_mesh k0 (remaining sk_keep pre tl)
          match pre, Z.to_nat sk_keep, remaining sk_keep pre tl with
          | _ :: _, S _, first :: _ => sk_data first
          | _, _, _ => g
          end) s).
Proof.
  induction pre as [|y pre IH] using rev_ind; intros tl g s Hk Ho Hm.
  - cbn. unfold remaining. cbn. by rewrite upd_mesh_id.
  - rewrite length_app. cbn [length]. rewrite Nat.add_1_r, seq_S, rev_app_distr.
    cbn [rev app for_each Nat.add]. rewrite run_bind. unfold isolate_body at 1.
    destruct (decide (Z.of_nat (length pre) ≠ sk_keep)) as [Hne|Heq].
    + erewrite shape_key_remove_run; [|done|done|]; cycle 1.
      { rewrite <- app_assoc. cbn [app]. rewrite list_lookup_middle by done. by eexists. }
      rewrite <- app_assoc. cbn [app]. rewrite delete_middle.
      erewrite IH; [|done|done|]; cycle 1.
      { unfold upd_mesh. cbn. apply lookup_insert_eq. }
      rewrite upd_mesh_twice. f_equal. f_equal.
      assert (Hrem : remaining sk_keep (pre ++ [y]) tl = remaining sk_keep pre tl).
      { unfold remaining. f_equal. f_equal.
        destruct (decide (Z.to_nat sk_keep < length pre)).
        - by rewrite lookup_app_l.
        - rewrite !lookup_ge_None_2; [done|lia|rewrite length_app; cbn; lia]. }
      rewrite Hrem. f_equal. clear IH Hm.
      destruct pre as [|p pre]; cbn [length app delete].
      * destruct (Z.to_nat sk_keep) eqn:Hz; [cbn in Hne; lia|].
        unfold remaining. rewrite Hz. cbn. by destruct n.
      * destruct (Z.to_nat sk_keep) eqn:Hz; [done|].
        cbn [app] in Hrem. by rewrite Hrem.
    + cbn [mret Py_ret]. apply dec_stable in Heq.
      assert (Hz : Z.to_nat sk_keep = length pre) by lia.
      rewrite <- app_assoc in Hm. cbn [app] in Hm.
      erewrite IH; [|done|done|exact Hm].
      assert (Hrem : remaining sk_keep (pre ++ [y]) tl = y :: tl).
      { unfold remaining. rewrite Hz, list_lookup_middle by done. done. }
      assert (Hrem' : remaining sk_keep pre (y :: tl) = y :: tl).
      { unfold remaining. rewrite Hz, lookup_ge_None_2 by lia. done. }
      rewrite Hrem, Hrem'. do 3 f_equal. rewrite Hz.
      destruct pre as [|p pre]; cbn [app length] in *; [done|].
      by rewrite Hrem, Hrem'.
Qed.
End isolate.

Lemma apply_shapekey_out_of_range ob o m k sk_keep s :
  objects s !! ob = Some o → meshes s !! data o = Some m → shape_keys m = Some k →
  (sk_keep < 0 ∨ Z.of_nat (length (key_blocks k)) < sk_keep)%Z →
  apply_shapekey ob sk_keep s = (Ok tt, s).
Proof.
  intros Ho Hm Hk Hr. unfold apply_shapekey.
  rewrite (bind_ok _ _ _ _ _ (obj_shape_keys_run _ _ _ _ Ho Hm)), Hk.
  destruct (sk_keep <? 0)%Z eqn:H1; [done|].
  destruct (sk_keep >? Z.of_nat (length (key_blocks k)))%Z eqn:H2; [done|]. lia.
Qed.

Lemma apply_shapekey_valid ob o m k i ski s :
  objects s !! ob = Some o → meshes s !! data o = Some m → shape_keys m = Some k →
  key_blocks k !! i = Some ski →
  apply_shapekey ob (Z.of_nat i) s =
    (Ok tt,
     upd_mesh (data o)
       {| shape_keys := None;
          geometry := match i with O => geometry m | S _ => sk_data ski end |} s).
Proof.
  intros Ho Hm Hk Hi. unfold apply_shapekey.
  rewrite (bind_ok _ _ _ _ _ (obj_shape_keys_run _ _ _ _ Ho Hm)), Hk.
  pose proof (lookup_lt_Some _ _ _ Hi) as Hlt.
  destruct (Z.of_nat i <? 0)%Z eqn:H1; [lia|].
  destruct (Z.of_nat i >? Z.of_nat (length (key_blocks k)))%Z eqn:H2; [lia|].
  cbn [orb]. rewrite run_bind.
  assert (Hne : key_blocks k ≠ []) by (intros E; by rewrite E in Hi).
  change (for_each ?l _ s) with (for_each l (isolate_body ob (Z.of_nat i)) s).
  rewrite (isolate_loop ob o k (Z.of_nat i) (key_blocks k) [] (geometry m) s); [|lia|done|]; cycle 1.
  { rewrite app_nil_r, Hm. by rewrite keyed_mesh_id. }
  unfold remaining. rewrite Nat2Z.id, Hi. cbn [option_list app].
  erewrite shape_key_remove_run; [|done|unfold upd_mesh; cbn; apply lookup_insert_eq|by eexists].
  rewrite upd_mesh_twice. do 2 f_equal. cbn [delete].
  unfold keyed_mesh. f_equal. cbn.
  destruct (key_blocks k) as [|s0 l] eqn:Hkb; [done|].
  destruct i; [done|]. by rewrite Hi.
Qed.

Lemma apply_shapekey_length ob o m k s :
  objects s !! ob = Some o → meshes s !! data o = Some m → shape_keys m = Some k →
  key_blocks k ≠ [] →
  apply_shapekey ob (Z.of_nat (length (key_blocks k))) s =
    (Raise ReferenceError, upd_mesh (data o) (with_shape_keys None m) s).
Proof.
  intros Ho Hm Hk Hne. unfold apply_shapekey.
  rewrite (bind_ok _ _ _ _ _ (obj_shape_keys_run _ _ _ _ Ho Hm)), Hk.
  set (n := length (key_blocks k)).
  destruct (Z.of_nat n <? 0)%Z eqn:H1; [lia|].
  destruct (Z.of_nat n >? Z.of_nat n)%Z eqn:H2; [lia|].
  cbn [orb]. rewrite run_bind.
  change (for_each ?l _ s) with (for_each l (isolate_body ob (Z.of_nat n)) s).
  subst n.
  rewrite (isolate_loop ob o k _ (key_blocks k) [] (geometry m) s); [|lia|done|]; cycle 1.
  { rewrite app_nil_r, Hm. by rewrite keyed_mesh_id. }
  unfold remaining. rewrite Nat2Z.id, lookup_ge_None_2 by lia. cbn [option_list app].
  unfold shape_key_remove.
  erewrite bind_ok; cycle 1.
  { apply object_mesh_run; [done|]. unfold upd_mesh. cbn. apply lookup_insert_eq. }
  cbn. unfold raise. do 2 f_equal. unfold keyed_mesh, with_shape_keys. f_equal.
  destruct (key_blocks k) as [|s0 l] eqn:Hkb; [done|]. cbn [length].
  by rewrite lookup_ge_None_2 by (cbn; lia).
Qed.

(** *** Modifier application *)

Lemma build_id s :
  s = build (objects s) (meshes s) (selected s) (active s) (reports s) (trace s) s.
Proof. by destruct s. Qed.


Section build_steps.
Context (objs : gmap nat Object) (mes : gmap nat Mesh) (sel : list nat)
  (act : option nat) (rep : list (ReportLevel * string)) (tr : list Event) (s : Bpy).

Lemma get_object_build ob o :
  objs !! ob = Some o →
  get_object ob (build objs mes sel act rep tr s) = (Ok o, build objs mes sel act rep tr s).
Proof. intros H. unfold get_object. cbn. by rewrite H. Qed.

Lemma get_mesh_build me m :
  mes !! me = Some m →
  get_mesh me (build objs mes sel act rep tr s) = (Ok m, build objs mes sel act rep tr s).
Proof. intros H. unfold get_mesh. cbn. by rewrite H. Qed.

Lemma put_object_build ob o :
  put_object ob o (build objs mes sel act rep tr s) =
    (Ok tt, build (<[ob := o]> objs) mes sel act rep tr s).
Proof. reflexivity. Qed.

Lemma put_mesh_build me m :
  put_mesh me m (build objs mes sel act rep tr s) =
    (Ok tt, build objs (<[me := m]> mes) sel act rep tr s).
Proof. reflexivity. Qed.

Lemma add_event_build e :
  modify (add_event e) (build objs mes sel act rep tr s) =
    (Ok tt, build objs mes sel act rep (tr ++ [e]) s).
Proof. reflexivity. Qed.

Lemma report_build lvl msg :
  report lvl msg (build objs mes sel act rep tr s) =
    (Ok tt, build objs mes sel act (rep ++ [(lvl, msg)]) tr s).
Proof. reflexivity. Qed.

Lemma get_state_build :
  get_state (build objs mes sel act rep tr s) =
    (Ok (build objs mes sel act rep tr s), build objs mes sel act rep tr s).
Proof. reflexivity. Qed.
End build_steps.


Lemma baked_cons md ms g :
  baked (md :: ms) g =
  baked ms (if decide (mod_type md ≠ ARMATURE)
            then (if mod_applicable md then ModifierResult md g else g) else g).
Proof.
  unfold baked. rewrite filter_cons.
  destruct (decide (mod_type md ≠ ARMATURE)), (mod_applicable md);
    (rewrite decide_True by done) || (rewrite decide_False by (intros [??]; done)); done.
Qed.

Lemma failure_reports_cons o md ms :
  failure_reports o (md :: ms) =
  (if decide (mod_type md ≠ ARMATURE)
   then (if mod_applicable md then [] else [(INFO, invalid_modifier_message md o)]) else [])
  ++ failure_reports o ms.
Proof.
  unfold failure_reports. rewrite filter_cons.
  destruct (decide (mod_type md ≠ ARMATURE)), (mod_applicable md);
    (rewrite decide_True by done) || (rewrite decide_False by (intros [??]; done)); done.
Qed.

Lemma call_events_cons ob md ms :
  call_events ob (md :: ms) =
  (if decide (mod_type md ≠ ARMATURE)
   then EvModifierApply ob (mod_name md) ::
        (if mod_applicable md then [] else [EvModifierRemove ob (mod_name md)])
   else [])
  ++ call_events ob ms.
Proof.
  unfold call_events. rewrite filter_cons.
  destruct (decide (mod_type md ≠ ARMATURE)); done.
Qed.

Lemma filter_armature_cons md ms :
  filter (λ md, mod_type md = ARMATURE) (md :: ms) =
  (if decide (mod_type md ≠ ARMATURE) then [] else [md])
  ++ filter (λ md, mod_type md = ARMATURE) ms.
Proof.
  rewrite filter_cons.
  destruct (decide (mod_type md ≠ ARMATURE)) as [H|H].
  - by rewrite decide_False.
  - rewrite decide_True; [done|]. by destruct (decide (mod_type md = ARMATURE)).
Qed.

Lemma NoDup_names_drop (kept rest : list Modifier) md :
  NoDup (mod_name <$> (kept ++ md :: rest)) → NoDup (mod_name <$> (kept ++ rest)).
Proof.
  rewrite !fmap_app, fmap_cons. intros (H1 & H2 & H3)%NoDup_app.
  apply NoDup_cons in H3 as [H3 H4]. apply NoDup_app.
  split_and!; [done| |done]. intros x Hx Hx'. apply (H2 x Hx). by right.
Qed.

Lemma deselect_loop xs : ∀ objs mes sel act rep tr s,
  for_each xs (λ o, select_set o false) (build objs mes sel act rep tr s) =
    (Ok tt, build objs mes (deselect xs sel) act rep tr s).
Proof.
  induction xs as [|x xs IH]; intros; [reflexivity|].
  cbn [for_each].
  rewrite (bind_ok _ _ _ tt (build objs mes (filter (λ y, y ≠ x) sel) act rep tr s)) by done.
  by rewrite IH.
Qed.

Lemma list_find_middle (kept rest : list Modifier) md :
  NoDup (mod_name <$> (kept ++ md :: rest)) →
  list_find (λ m, mod_name m = mod_name md) (kept ++ md :: rest) = Some (length kept, md).
Proof.
  intros Hnd. apply list_find_Some. split_and!.
  - by apply list_lookup_middle.
  - done.
  - intros j y Hj Hlt Hname.
    rewrite lookup_app_l in Hj by done.
    rewrite fmap_app, fmap_cons in Hnd.
    apply NoDup_app in Hnd as (_ & Hdisj & _).
    apply (Hdisj (mod_name y)).
    + apply list_elem_of_fmap. exists y. split; [done|]. by eapply list_elem_of_lookup_2.
    + rewrite Hname. apply list_elem_of_here.
Qed.

Lemma find_modifier_middle kept rest md :
  NoDup (mod_name <$> (kept ++ md :: rest)) →
  find_modifier (mod_name md) (kept ++ md :: rest) = Some md.
Proof. intros H. unfold find_modifier. by rewrite list_find_middle. Qed.

Lemma remove_modifier_middle kept rest md :
  NoDup (mod_name <$> (kept ++ md :: rest)) →
  remove_modifier (mod_name md) (kept ++ md :: rest) = kept ++ rest.
Proof.
  intros H. unfold remove_modifier. rewrite list_find_middle by done.
  apply delete_middle.
Qed.

Section apply_modifiers.
Variables (ob : nat) (o : Object).

Lemma flags_loop rest : ∀ done objs mes sel act rep tr s,
  objs !! ob = Some (with_modifiers (done ++ rest) o) →
  for_each (imap (λ i md, (length done + i, md)%nat) rest)
    (λ '(i, modifier),
      if decide (mod_type modifier = SUBSURF)
      then set_show_only_control_edges ob i false
      else mret tt)
    (build objs mes sel act rep tr s) =
  (Ok tt,
   build (<[ob := with_modifiers (done ++ (clear_control_edges <$> rest)) o]> objs)
         mes sel act rep (tr ++ flag_events ob rest) s).
Proof.
  induction rest as [|md rest IH]; intros done objs mes sel act rep tr s Hob.
  - cbn. unfold flag_events. cbn. rewrite !app_nil_r in *. by rewrite insert_id.
  - cbn [imap for_each]. rewrite run_bind.
    assert (Hnext : ∀ objs' tr',
      objs' !! ob = Some (with_modifiers ((done ++ [clear_control_edges md]) ++ rest) o) →
      for_each (imap ((λ i md0, (length done + i, md0)%nat) ∘ S) rest)
        (λ '(i, modifier),
          if decide (mod_type modifier = SUBSURF)
          then set_show_only_control_edges ob i false
          else mret tt)
        (build objs' mes sel act rep tr' s) =
      (Ok tt,
       build (<[ob := with_modifiers (done ++ clear_control_edges md :: (clear_control_edges <$> rest)) o]> objs')
         mes sel act rep (tr' ++ flag_events ob rest) s)).
    { intros objs' tr' Hob'.
      rewrite (imap_ext _ (λ i md0, (length (done ++ [clear_control_edges md]) + i, md0)%nat)).
      - rewrite IH by done. by rewrite <- app_assoc.
      - intros i x _. cbn. rewrite length_app. cbn. f_equal. lia. }
    rewrite fmap_cons. unfold clear_control_edges at 1 2. unfold flag_events. rewrite filter_cons.
    destruct (decide (mod_type md = SUBSURF)) as [Ht|Ht].
    + unfold set_show_only_control_edges.
      erewrite bind_ok by (by apply get_object_build).
      cbn [modifiers with_modifiers].
      rewrite Nat.add_0_r, list_lookup_middle by done.
      rewrite run_bind, add_event_build, put_object_build.
      rewrite Hnext.
      * rewrite insert_insert_eq, <- app_assoc. by unfold clear_control_edges; rewrite decide_True.
      * rewrite lookup_insert_eq. f_equal. unfold with_modifiers. cbn. f_equal.
        rewrite <- (Nat.add_0_r (length done)), insert_app_r. cbn.
        rewrite <- app_assoc. cbn. by unfold clear_control_edges; rewrite decide_True.
    + cbn [mret Py_ret]. rewrite Hnext.
      * by unfold clear_control_edges; rewrite decide_False.
      * rewrite Hob. do 2 f_equal. rewrite <- app_assoc. cbn.
        by unfold clear_control_edges; rewrite decide_False.
Qed.

Variable m : Mesh.

Lemma apply_loop rest : ∀ kept objs mes sel rep tr g s,
  objs !! ob = Some (with_modifiers (kept ++ rest) o) →
  mes !! data o = Some (with_geometry g m) →
  NoDup (mod_name <$> (kept ++ rest)) →
  for_each rest (apply_body ob) (build objs mes sel (Some ob) rep tr s) =
  (Ok tt,
   build (<[ob := with_modifiers (kept ++ filter (λ md, mod_type md = ARMATURE) rest) o]> objs)
         (<[data o := with_geometry (baked rest g) m]> mes)
         sel (Some ob) (rep ++ failure_reports o rest) (tr ++ call_events ob rest) s).
Proof.
  induction rest as [|md rest IH]; intros kept objs mes sel rep tr g s Hob Hme Hnd.
  - cbn. rewrite !app_nil_r in *. by rewrite !insert_id.
  - cbn [for_each]. rewrite run_bind. unfold apply_body at 1.
    rewrite baked_cons, failure_reports_cons, call_events_cons, filter_armature_cons.
    destruct (decide (mod_type md ≠ ARMATURE)) as [Hna|Ha].
    + unfold try_except, modifier_apply.
      rewrite run_bind, get_state_build. cbn [active build].
      rewrite run_bind, add_event_build.
      erewrite bind_ok by (by apply get_object_build).
      cbn [modifiers with_modifiers data].
      rewrite find_modifier_middle by done.
      destruct (mod_applicable md) eqn:Happ.
      * erewrite bind_ok by (by apply get_mesh_build).
        rewrite run_bind, put_mesh_build, put_object_build.
        rewrite remove_modifier_middle by done.
        rewrite (IH kept _ _ _ _ _ (ModifierResult md g)).
        -- rewrite !insert_insert_eq. cbn. by rewrite <- !app_assoc.
        -- by rewrite lookup_insert_eq.
        -- by rewrite lookup_insert_eq.
        -- by eapply NoDup_names_drop.
      * cbn [raise].
        erewrite bind_ok by (by apply get_object_build).
        rewrite run_bind, report_build.
        unfold modifier_remove. rewrite run_bind, get_state_build. cbn [active build].
        rewrite run_bind, add_event_build.
        erewrite bind_ok by (by apply get_object_build).
        cbn [modifiers with_modifiers data].
        rewrite find_modifier_middle by done.
        rewrite put_object_build, remove_modifier_middle by done.
        rewrite (IH kept _ _ _ _ _ g).
        -- rewrite !insert_insert_eq. cbn. by rewrite <- !app_assoc.
        -- by rewrite lookup_insert_eq.
        -- done.
        -- by eapply NoDup_names_drop.
    + cbn [mret Py_ret].
      rewrite (IH (kept ++ [md]) _ _ _ _ _ g).
      -- cbn. by rewrite <- !app_assoc.
      -- by rewrite <- app_assoc.
      -- done.
      -- by rewrite <- app_assoc.
Qed.
End apply_modifiers.

Lemma clear_control_edges_name md : mod_name (clear_control_edges md) = mod_name md.
Proof. unfold clear_control_edges. by case_decide. Qed.

Lemma clear_control_edges_type md : mod_type (clear_control_edges md) = mod_type md.
Proof. unfold clear_control_edges. by case_decide. Qed.

Lemma clear_control_edges_applicable md :
  mod_applicable (clear_control_edges md) = mod_applicable md.
Proof. unfold clear_control_edges. by case_decide. Qed.

Lemma clear_control_edges_armature md :
  mod_type md = ARMATURE → clear_control_edges md = md.
Proof. intros H. unfold clear_control_edges. rewrite decide_False; [done|]. by rewrite H. Qed.

Lemma filter_armature_clear (ms : list Modifier) :
  filter (λ md, mod_type md = ARMATURE) (clear_control_edges <$> ms) =
  filter (λ md, mod_type md = ARMATURE) ms.
Proof.
  induction ms as [|md ms IH]; [done|].
  rewrite fmap_cons, !filter_cons, clear_control_edges_type, IH.
  case_decide; [|done]. by rewrite clear_control_edges_armature.
Qed.

Lemma call_events_clear ob (ms : list Modifier) :
  call_events ob (clear_control_edges <$> ms) = call_events ob ms.
Proof.
  induction ms as [|md ms IH]; [done|].
  rewrite fmap_cons, !call_events_cons, IH.
  by rewrite clear_control_edges_type, clear_control_edges_name, clear_control_edges_applicable.
Qed.

Lemma failure_reports_clear o (ms : list Modifier) :
  failure_reports o (clear_control_edges <$> ms) = failure_reports o ms.
Proof.
  induction ms as [|md ms IH]; [done|].
  rewrite fmap_cons, !failure_reports_cons, IH.
  rewrite clear_control_edges_type, clear_control_edges_applicable.
  unfold invalid_modifier_message.
  by rewrite clear_control_edges_type, clear_control_edges_name.
Qed.

Lemma apply_modifiers_run ob o m s :
  objects s !! ob = Some o →
  meshes s !! data o = Some m →
  NoDup (mod_name <$> modifiers o) →
  apply_modifiers ob s = (Ok tt, apply_modifiers_result ob o m s).
Proof.
  intros Hob Hme Hnd. unfold apply_modifiers.
  rewrite (bind_ok _ _ _ o s) by (unfold get_object; by rewrite Hob).
  rewrite run_bind. rewrite (build_id s) at 1.
  rewrite (flags_loop ob o (modifiers o) [] (objects s)); cycle 1.
  { rewrite Hob. by destruct o. }
  cbn [app]. rewrite run_bind, get_state_build. cbn [scene_objects build].
  rewrite run_bind, deselect_loop.
  rewrite run_bind.
  change (select_set ob true ?st) with
    (Ok tt, build (<[ob:=with_modifiers (clear_control_edges <$> modifiers o) o]> (objects s))
              (meshes s) (select ob (deselect (scene_objects s) (selected s))) (active s)
              (reports s) (trace s ++ flag_events ob (modifiers o)) s).
  cbv beta iota. rewrite run_bind.
  change (set_active_object ob ?st) with
    (Ok tt, build (<[ob:=with_modifiers (clear_control_edges <$> modifiers o) o]> (objects s))
              (meshes s) (select ob (deselect (scene_objects s) (selected s))) (Some ob)
              (reports s) (trace s ++ flag_events ob (modifiers o)) s).
  cbv beta iota.
  erewrite bind_ok by (apply get_object_build; apply lookup_insert_eq).
  cbn [modifiers with_modifiers].
  change (for_each ?l _ ?st) with (for_each l (apply_body ob) st).
  rewrite (apply_loop ob o m _ [] _ _ _ _ _ (geometry m)).
  - unfold apply_modifiers_result. rewrite insert_insert_eq. cbn [app].
    by rewrite filter_armature_clear, call_events_clear, failure_reports_clear, <- app_assoc.
  - by rewrite lookup_insert_eq.
  - rewrite Hme. by destruct m.
  - cbn [app]. rewrite <- list_fmap_compose.
    erewrite list_fmap_ext; [exact Hnd|]. intros i x _. apply clear_control_edges_name.
Qed.

Lemma geom_modifiers_baked ms g :
  geom_modifiers (baked ms g) =
  geom_modifiers g ++ filter (λ md, mod_type md ≠ ARMATURE ∧ mod_applicable md = true) ms.
Proof.
  revert g. induction ms as [|md ms IH]; intros g.
  - cbn. by rewrite app_nil_r.
  - rewrite baked_cons, IH, filter_cons.
    destruct (decide (mod_type md ≠ ARMATURE)), (mod_applicable md) eqn:Ha;
      (rewrite decide_True by done) || (rewrite decide_False by (intros [??]; done));
      cbn; by rewrite <- ?app_assoc.
Qed.

Lemma apply_calls_app t1 t2 : apply_calls (t1 ++ t2) = apply_calls t1 ++ apply_calls t2.
Proof. unfold apply_calls. apply omap_app. Qed.

Lemma apply_calls_flag_events ob (ms : list Modifier) : apply_calls (flag_events ob ms) = [].
Proof.
  unfold flag_events. induction (filter _ ms) as [|md l IH]; [done|]. by cbn.
Qed.

Lemma apply_calls_call_events ob (ms : list Modifier) :
  apply_calls (call_events ob ms) = mod_name <$> filter (λ md, mod_type md ≠ ARMATURE) ms.
Proof.
  induction ms as [|md ms IH]; [done|].
  rewrite call_events_cons, apply_calls_app, IH, filter_cons.
  destruct (decide (mod_type md ≠ ARMATURE)); [|done].
  by destruct (mod_applicable md).
Qed.

Lemma remove_calls_app t1 t2 : remove_calls (t1 ++ t2) = remove_calls t1 ++ remove_calls t2.
Proof. unfold remove_calls. apply omap_app. Qed.

Lemma remove_calls_flag_events ob (ms : list Modifier) : remove_calls (flag_events ob ms) = [].
Proof.
  unfold flag_events. induction (filter _ ms) as [|md l IH]; [done|]. by cbn.
Qed.

Lemma remove_calls_call_events ob (ms : list Modifier) :
  remove_calls (call_events ob ms) =
  mod_name <$> filter (λ md, mod_type md ≠ ARMATURE ∧ mod_applicable md = false) ms.
Proof.
  induction ms as [|md ms IH]; [done|].
  rewrite call_events_cons, remove_calls_app, IH, filter_cons.
  destruct (decide (mod_type md ≠ ARMATURE)), (mod_applicable md) eqn:Ha;
    (rewrite decide_True by done) || (rewrite decide_False by (intros [??]; done)); done.
Qed.

(** C3.  [apply_modifiers] first clears the control-edge flag of every
    Subsurf modifier, then calls [modifier_apply] once for every modifier
    that is not an armature, in stack order.  The armature modifiers are
    what is left on the stack, untouched; the modifiers the host accepted
    are baked into the mesh in stack order, Subsurf ones with the flag
    off. *)
Theorem apply_modifiers_stack_order ob o m s :
  objects s !! ob = Some o →
  meshes s !! data o = Some m →
  NoDup (mod_name <$> modifiers o) →
  ∃ s' o' m',
    apply_modifiers ob s = (Ok tt, s') ∧
    objects s' !! ob = Some o' ∧ meshes s' !! data o = Some m' ∧
    trace s' = trace s ++ flag_events ob (modifiers o) ++ call_events ob (modifiers o) ∧
    apply_calls (call_events ob (modifiers o)) =
      mod_name <$> filter (λ md, mod_type md ≠ ARMATURE) (modifiers o) ∧
    apply_calls (flag_events ob (modifiers o)) = [] ∧
    modifiers o' = filter (λ md, mod_type md = ARMATURE) (modifiers o) ∧
    geom_modifiers (geometry m') =
      geom_modifiers (geometry m) ++
      filter (λ md, mod_type md ≠ ARMATURE ∧ mod_applicable md = true)
             (clear_control_edges <$> modifiers o).
Proof.
  intros Hob Hme Hnd.
  exists (apply_modifiers_result ob o m s),
         (with_modifiers (filter (λ md, mod_type md = ARMATURE) (modifiers o)) o),
         (with_geometry (baked (clear_control_edges <$> modifiers o) (geometry m)) m).
  split_and!.
  - by apply apply_modifiers_run.
  - apply lookup_insert_eq.
  - apply lookup_insert_eq.
  - reflexivity.
  - apply apply_calls_call_events.
  - apply apply_calls_flag_events.
  - reflexivity.
  - apply geom_modifiers_baked.
Qed.

Lemma filter_armature_NoDup (ms : list Modifier) :
  NoDup (mod_name <$> ms) → NoDup (mod_name <$> filter (λ md, mod_type md = ARMATURE) ms).
Proof.
  intros H. eapply sublist_NoDup; [exact H|]. apply fmap_sublist, sublist_filter.
Qed.

Lemma batch_body_run next x o m s :
  objects s !! x = Some o → meshes s !! data o = Some m →
  NoDup (mod_name <$> modifiers o) →
  batch_body next x s =
    match shape_keys m with
    | Some _ => (Ok (next ++ [x]), s)
    | None => (Ok next, apply_modifiers_result x o m s)
    end.
Proof.
  intros Ho Hm Hnames. unfold batch_body.
  rewrite (bind_ok _ _ _ _ _ (obj_shape_keys_run _ _ _ _ Ho Hm)).
  destruct (shape_keys m); [done|].
  by rewrite run_bind, (apply_modifiers_run x o m s Ho Hm Hnames).
Qed.

Lemma batch_run objs : ∀ s next,
  NoDup objs → Forall (mesh_object_ok s) objs →
  ∃ s' next' rep,
    for_fold objs next batch_body s = (Ok next', s') ∧
    reports s' = reports s ++ rep ∧
    Forall (λ r, r.1 = INFO) rep ∧
    (∀ x, x ∉ objs → objects s' !! x = objects s !! x) ∧
    (∀ me m, meshes s !! me = Some m →
       ∃ m', meshes s' !! me = Some m' ∧ shape_keys m' = shape_keys m) ∧
    (∀ x o m, x ∈ objs → objects s !! x = Some o → meshes s !! data o = Some m →
       match shape_keys m with
       | Some _ => objects s' !! x = Some o
       | None =>
           objects s' !! x =
             Some (with_modifiers (filter (λ md, mod_type md = ARMATURE) (modifiers o)) o) ∧
           ∀ r, r ∈ failure_reports o (modifiers o) → r ∈ rep
       end).
Proof.
  induction objs as [|x objs IH]; intros s next Hnd Hok.
  - exists s, next, []. split_and!; try done.
    + by rewrite app_nil_r.
    + intros me m Hm. by exists m.
    + intros x o m Hx. by apply not_elem_of_nil in Hx.
  - apply NoDup_cons in Hnd as [Hx Hnd].
    apply Forall_cons in Hok as [(o & m & Ho & Hm & Hnames) Hok].
    cbn [for_fold].
    rewrite run_bind, (batch_body_run next x o m s Ho Hm Hnames).
    destruct (shape_keys m) as [k|] eqn:Hk.
    +
      destruct (IH s (next ++ [x]) Hnd Hok) as (s' & next' & rep & Hrun & Hrep & Hinfo & Hout & Hmes & Hin).
      exists s', next', rep. split_and!; try done.
      * intros y Hy. apply Hout. intros ?. apply Hy. by right.
      * intros y oy my Hy Hoy Hmy. apply elem_of_cons in Hy as [->|Hy]; [|by apply Hin].
        assert (oy = o) as -> by congruence. assert (my = m) as -> by congruence.
        rewrite Hk. by rewrite Hout.
    + set (s1 := apply_modifiers_result x o m s).
      assert (Hok1 : Forall (mesh_object_ok s1) objs).
      { apply Forall_forall. intros y Hy. rewrite Forall_forall in Hok.
        destruct (Hok y Hy) as (oy & my & Hoy & Hmy & Hny).
        assert (y ≠ x) by (intros ->; done).
        destruct (decide (data oy = data o)) as [Heq|Hne].
        - eexists oy, _. split_and!; [|rewrite Heq; apply lookup_insert_eq|done].
          subst s1. cbn. by rewrite lookup_insert_ne.
        - exists oy, my. split_and!; [| |done]; subst s1; cbn; by rewrite lookup_insert_ne. }
      destruct (IH s1 next Hnd Hok1) as (s' & next' & rep & Hrun & Hrep & Hinfo & Hout & Hmes & Hin).
      exists s', next', (failure_reports o (modifiers o) ++ rep). split_and!.
      * done.
      * rewrite Hrep. subst s1. cbn. by rewrite app_assoc.
      * apply Forall_app. split; [|done]. unfold failure_reports. by apply Forall_fmap, Forall_true.
      * intros y Hy. rewrite Hout by (intros ?; apply Hy; by right).
        subst s1. cbn. rewrite lookup_insert_ne; [done|]. intros ->. apply Hy. by left.
      * intros me my Hmy. destruct (decide (me = data o)) as [->|Hne].
        -- destruct (Hmes (data o) (with_geometry (baked (clear_control_edges <$> modifiers o) (geometry m)) m))
             as (m' & Hm' & Hsk); [subst s1; cbn; apply lookup_insert_eq|].
           exists m'. split; [done|]. rewrite Hsk. cbn. congruence.
        -- apply Hmes. subst s1. cbn. by rewrite lookup_insert_ne.
      * intros y oy my Hy Hoy Hmy. apply elem_of_cons in Hy as [->|Hy].
        -- assert (oy = o) as -> by congruence. assert (my = m) as -> by congruence.
           rewrite Hk. split.
           ++ rewrite Hout by done. subst s1. cbn. apply lookup_insert_eq.
           ++ intros r Hr. apply elem_of_app. by left.
        -- assert (y ≠ x) by (intros ->; done).
           assert (Hoy1 : objects s1 !! y = Some oy) by (subst s1; cbn; by rewrite lookup_insert_ne).
           destruct (decide (data oy = data o)) as [Heq|Hne].
           ++ specialize (Hin y oy _ Hy Hoy1 ltac:(subst s1; cbn; rewrite Heq; apply lookup_insert_eq)).
              cbn [shape_keys with_geometry] in Hin.
              assert (my = m) as -> by (rewrite Heq in Hmy; congruence).
              rewrite Hk in *. destruct Hin as [? Hin]. split; [done|].
              intros r Hr. apply elem_of_app. right. by apply Hin.
           ++ specialize (Hin y oy my Hy Hoy1 ltac:(subst s1; cbn; by rewrite lookup_insert_ne)).
              destruct (shape_keys my); [done|]. destruct Hin as [? Hin]. split; [done|].
              intros r Hr. apply elem_of_app. right. by apply Hin.
Qed.

Lemma failure_report_elem o (ms : list Modifier) md :
  md ∈ ms → mod_type md ≠ ARMATURE → mod_applicable md = false →
  (INFO, invalid_modifier_message md o) ∈ failure_reports o ms.
Proof.
  intros Hin Ht Ha. unfold failure_reports.
  apply list_elem_of_fmap. exists md. split; [done|].
  apply list_elem_of_filter. by split.
Qed.

(** C2.  A modifier the host refuses to apply is reported at level INFO
    with a message naming it and the object, and removed without being
    baked; the rest of the stack is still handled ([apply_modifiers]
    returns normally, every other non-armature modifier gets its
    [modifier_apply] call and the stack ends with the armature modifiers
    only).  In a batch, every object without shape keys is processed to
    the end and the operator returns FINISHED. *)
Theorem apply_modifiers_failure_recovered :
  (∀ ob o m s md,
     objects s !! ob = Some o → meshes s !! data o = Some m →
     NoDup (mod_name <$> modifiers o) →
     md ∈ modifiers o → mod_type md ≠ ARMATURE → mod_applicable md = false →
     ∃ s' o' m',
       apply_modifiers ob s = (Ok tt, s') ∧
       objects s' !! ob = Some o' ∧ meshes s' !! data o = Some m' ∧
       (INFO, invalid_modifier_message md o) ∈ reports s' ∧
       Forall (λ r, r.1 = INFO) (drop (length (reports s)) (reports s')) ∧
       mod_name md ∈ remove_calls (trace s') ∧
       (mod_name md ∉ mod_name <$> modifiers o') ∧
       (mod_name md ∉ mod_name <$> drop (length (geom_modifiers (geometry m)))
                                        (geom_modifiers (geometry m'))) ∧
       apply_calls (trace s') =
         apply_calls (trace s) ++
         (mod_name <$> filter (λ md, mod_type md ≠ ARMATURE) (modifiers o)) ∧
       modifiers o' = filter (λ md, mod_type md = ARMATURE) (modifiers o) ∧
       geom_modifiers (geometry m') =
         geom_modifiers (geometry m) ++
         filter (λ md, mod_type md ≠ ARMATURE ∧ mod_applicable md = true)
                (clear_control_edges <$> modifiers o)) ∧
  (∀ objs s,
     NoDup objs → Forall (mesh_object_ok s) objs →
     ∃ s',
       SK_OT_apply_mods.apply_all_modifiers objs s = (Ok FINISHED, s') ∧
       ∀ x o m, x ∈ objs → objects s !! x = Some o → meshes s !! data o = Some m →
                shape_keys m = None →
         objects s' !! x =
           Some (with_modifiers (filter (λ md, mod_type md = ARMATURE) (modifiers o)) o) ∧
         ∀ md, md ∈ modifiers o → mod_type md ≠ ARMATURE → mod_applicable md = false →
               (INFO, invalid_modifier_message md o) ∈ reports s').
Proof.
  split.
  - intros ob o m s md Hob Hme Hnd Hin Ht Ha.
    exists (apply_modifiers_result ob o m s),
           (with_modifiers (filter (λ md, mod_type md = ARMATURE) (modifiers o)) o),
           (with_geometry (baked (clear_control_edges <$> modifiers o) (geometry m)) m).
    split_and!.
    + by apply apply_modifiers_run.
    + apply lookup_insert_eq.
    + apply lookup_insert_eq.
    + cbn. apply elem_of_app. right. by apply failure_report_elem.
    + cbn. rewrite drop_app_length. unfold failure_reports. by apply Forall_fmap, Forall_true.
    + cbn. rewrite !remove_calls_app, remove_calls_flag_events, remove_calls_call_events.
      apply elem_of_app. right. cbn. apply list_elem_of_fmap. exists md. split; [done|].
      apply list_elem_of_filter. by split.
    + cbn. intros (md' & Hname & [Ht' Hin']%list_elem_of_filter)%list_elem_of_fmap.
      assert (md' = md) as ->; [|by rewrite Ht' in Ht].
      apply list_elem_of_lookup in Hin as [i Hi]. apply list_elem_of_lookup in Hin' as [j Hj].
      assert (i = j) as ->; [|congruence].
      eapply NoDup_lookup; [exact Hnd| |]; rewrite list_lookup_fmap.
      * by rewrite Hi.
      * rewrite Hj. cbn. by rewrite Hname.
    + cbn. rewrite geom_modifiers_baked, drop_app_length.
      intros (md' & Hname & [[_ Ha'] Hin']%list_elem_of_filter)%list_elem_of_fmap.
      apply list_elem_of_fmap in Hin' as (md'' & -> & Hin'').
      rewrite clear_control_edges_name in Hname. rewrite clear_control_edges_applicable in Ha'.
      assert (md'' = md) as ->; [|congruence].
      apply list_elem_of_lookup in Hin as [i Hi]. apply list_elem_of_lookup in Hin'' as [j Hj].
      assert (i = j) as ->; [|congruence].
      eapply NoDup_lookup; [exact Hnd| |]; rewrite list_lookup_fmap.
      * by rewrite Hi.
      * rewrite Hj. cbn. by rewrite Hname.
    + cbn. by rewrite !apply_calls_app, apply_calls_flag_events, apply_calls_call_events.
    + reflexivity.
    + cbn. apply geom_modifiers_baked.
  - intros objs s Hnd Hok.
    destruct (batch_run objs s [] Hnd Hok)
      as (s' & next' & rep & Hrun & Hrep & Hinfo & Hout & Hmes & Hin).
    unfold SK_OT_apply_mods.apply_all_modifiers.
    change (for_fold objs [] _) with (for_fold objs [] batch_body).
    rewrite (bind_ok _ _ _ _ _ Hrun).
    assert (Hsel : ∀ l st, ∃ sel,
      for_each l (λ obj, select_set obj true) st = (Ok tt, set_selected (λ _, sel) st)).
    { induction l as [|y l IHl]; intros st.
      - exists (selected st). by destruct st.
      - cbn [for_each].
        rewrite (bind_ok _ _ _ tt (set_selected (λ l, if decide (y ∈ l) then l else l ++ [y]) st)) by done.
        destruct (IHl (set_selected (λ l, if decide (y ∈ l) then l else l ++ [y]) st)) as [sel ->].
        by exists sel. }
    rewrite run_bind. cbn [select_all_DESELECT modify].
    destruct (Hsel next' (set_selected (λ _, []) s')) as [sel Hs].
    rewrite (bind_ok _ _ _ _ _ Hs). eexists. split; [reflexivity|].
    intros x o m Hx Ho Hm Hk. specialize (Hin x o m Hx Ho Hm). rewrite Hk in Hin.
    destruct Hin as [Hx' Hr]. split; [exact Hx'|].
    intros md Hmd Ht Ha. cbn. rewrite Hrep. apply elem_of_app. right.
    apply Hr. by apply failure_report_elem.
Qed.

(** *** The shape-key preserving bake *)

Lemma update_object_run ob o f s :
  objects s !! ob = Some o → update_object ob f s = (Ok tt, upd_object ob (f o) s).
Proof. intros H. unfold update_object. by rewrite (bind_ok _ _ _ _ _ (get_object_run _ _ _ H)). Qed.

Lemma Bpy_eq (s1 s2 : Bpy) :
  objects s1 = objects s2 → meshes s1 = meshes s2 → next_id s1 = next_id s2 →
  scene_objects s1 = scene_objects s2 → selected s1 = selected s2 →
  active s1 = active s2 →
  scene_frame_start s1 = scene_frame_start s2 → scene_frame_end s1 = scene_frame_end s2 →
  frame_current s1 = frame_current s2 →
  BAKE_SHAPEKEY_ANIMATION_FRAME_START s1 = BAKE_SHAPEKEY_ANIMATION_FRAME_START s2 →
  BAKE_SHAPEKEY_ANIMATION_FRAME_END s1 = BAKE_SHAPEKEY_ANIMATION_FRAME_END s2 →
  BAKE_SHAPEKEY_ANIMATION_EXECUTE s1 = BAKE_SHAPEKEY_ANIMATION_EXECUTE s2 →
  reports s1 = reports s2 → trace s1 = trace s2 →
  vertex_count s1 = vertex_count s2 →
  s1 = s2.
Proof. destruct s1, s2. cbn. by intros -> -> -> -> -> -> -> -> -> -> -> -> -> -> ->. Qed.

Ltac st_simpl :=
  cbn [objects meshes next_id scene_objects selected active reports trace vertex_count
       scene_frame_start scene_frame_end frame_current
       BAKE_SHAPEKEY_ANIMATION_FRAME_START BAKE_SHAPEKEY_ANIMATION_FRAME_END
       BAKE_SHAPEKEY_ANIMATION_EXECUTE
       set_objects set_meshes set_next_id set_scene_objects set_selected set_active
       set_frame_current set_bake_globals
       add_report add_event upd_mesh upd_object build copy_result
       apply_modifiers_result].

Ltac st_eq := apply Bpy_eq; st_simpl; try reflexivity.

Ltac map_simpl :=
  repeat first
    [ rewrite lookup_insert_eq
    | rewrite lookup_insert_ne by (done || lia)
    | rewrite lookup_delete_eq
    | rewrite lookup_delete_ne by (done || lia) ].

Ltac lookup_tac := st_simpl; map_simpl; first [eassumption | reflexivity].

Ltac py_step :=
  rewrite ?run_bind;
  first
    [ erewrite get_object_run by lookup_tac
    | erewrite get_mesh_run by lookup_tac
    | erewrite update_object_run by lookup_tac
    | progress cbn [fresh_id put_object put_mesh modify collection_link raise
                    select_set set_active_object get_state mret Py_ret] ];
  cbv beta iota.

Lemma copy_object_0_run obj o m s :
  objects s !! obj = Some o → meshes s !! data o = Some m → obj ≠ next_id s →
  copy_object_0 obj s = (Ok (next_id s), copy_result o m s).
Proof.
  intros Ho Hm Hne. unfold copy_object_0, copy_object. cbn [seq for_fold].
  unfold object_copy, mesh_copy.
  repeat py_step. cbn [app mret Py_ret]. f_equal.
  st_eq. unfold object_copy_of. cbn. by rewrite !insert_insert_eq.
Qed.

Lemma deselect_subseteq xs : ∀ sel, sel ⊆ xs → deselect xs sel = [].
Proof.
  induction xs as [|x xs IH]; intros sel Hsub.
  - cbn. destruct sel as [|y sel]; [done|].
    exfalso. eapply not_elem_of_nil, (Hsub y). by left.
  - cbn. apply IH. intros y [Hne Hy]%list_elem_of_filter.
    apply Hsub in Hy. by apply elem_of_cons in Hy as [->|Hy].
Qed.

(** [add_objs_shapekeys] with one source: the source becomes the
    selection and the destination the active object; the destination
    gets a key if the source is a mesh object with as many vertices as
    the destination, and is left as it is otherwise. *)
Lemma add_objs_shapekeys_run dst src ro rm so sm s :
  selected s ⊆ scene_objects s →
  objects s !! src = Some so → meshes s !! data so = Some sm →
  objects s !! dst = Some ro → meshes s !! data ro = Some rm →
  src ≠ dst → obj_type so = MESH →
  add_objs_shapekeys dst [src] s =
    (Ok tt,
     build (objects s)
           (if decide (vertex_count s (geometry sm) = vertex_count s (geometry rm))
            then <[data ro := joined rm so sm]> (meshes s) else meshes s)
           [src] (Some dst) (reports s) (trace s) s).
Proof.
  intros Hsel Hso Hsm Hro Hrm Hne Htype. unfold add_objs_shapekeys.
  rewrite (build_id s) at 1. rewrite run_bind, get_state_build. cbv beta iota.
  cbn [scene_objects build].
  rewrite run_bind, deselect_loop, deselect_subseteq by done. cbv beta iota.
  cbn [for_each]. unfold join_shapes.
  repeat py_step. st_simpl.
  rewrite (decide_False (P := src ∈ [])) by apply not_elem_of_nil.
  cbn [app]. rewrite filter_cons, decide_True, filter_nil by done.
  cbn [for_each]. unfold join_shape, object_mesh.
  repeat py_step. rewrite decide_True by done.
  repeat py_step. st_simpl.
  case_decide; by repeat py_step.
Qed.

Lemma key_block_run ob o m k i sk s :
  objects s !! ob = Some o → meshes s !! data o = Some m → shape_keys m = Some k →
  key_blocks k !! i = Some sk →
  key_block ob i s = (Ok sk, s).
Proof.
  intros Ho Hm Hk Hi. unfold key_block.
  rewrite (bind_ok _ _ _ _ _ (obj_shape_keys_run _ _ _ _ Ho Hm)), Hk, Hi. done.
Qed.

Section restore_metadata.
Variables (obj receiver i : nat) (o ro : Object) (m rm : Mesh) (k rk : Key)
  (osk : ShapeKey).
Hypothesis Hne : data ro ≠ data o.
Hypothesis Hk : shape_keys m = Some k.
Hypothesis Hosk : key_blocks k !! i = Some osk.
Hypothesis Hlt : i < length (key_blocks rk).

Lemma update_step (f : ShapeKey → ShapeKey) x s :
  objects s !! receiver = Some ro → meshes s !! data ro = Some (set_key_block i x rk rm) →
  update_key_block receiver i f s = (Ok tt, upd_mesh (data ro) (set_key_block i (f x) rk rm) s).
Proof.
  intros Hro Hrm. unfold update_key_block.
  rewrite (bind_ok _ _ _ _ _ (object_mesh_run _ _ _ _ Hro Hrm)).
  unfold set_key_block. cbn [shape_keys with_shape_keys key_blocks with_key_blocks].
  rewrite list_lookup_insert_eq by done.
  unfold put_mesh, modify, upd_mesh. do 3 f_equal.
  unfold with_shape_keys, with_key_blocks. cbn. by rewrite list_insert_insert_eq.
Qed.

Lemma restore_metadata_run sk s :
  objects s !! obj = Some o → meshes s !! data o = Some m →
  objects s !! receiver = Some ro → meshes s !! data ro = Some rm →
  shape_keys rm = Some rk → key_blocks rk !! i = Some sk →
  SK_OT_apply_mods.restore_metadata obj receiver i s =
    (Ok tt, upd_mesh (data ro) (set_key_block i (restored osk sk) rk rm) s).
Proof.
  intros Ho Hm Hro Hrm Hrk Hsk.
  assert (Hid : set_key_block i sk rk rm = rm).
  { unfold set_key_block. rewrite list_insert_id by done. destruct rm, rk. cbn in *. by subst. }
  unfold SK_OT_apply_mods.restore_metadata.
  erewrite bind_ok by (by eapply key_block_run).
  rewrite <- Hid in Hrm.
  erewrite bind_ok by (by eapply key_block_run).
  rewrite run_bind, (update_step _ sk s) by done. cbv beta iota.
  assert (Hst : ∀ x,
    objects (upd_mesh (data ro) (set_key_block i x rk rm) s) !! obj = Some o ∧
    meshes (upd_mesh (data ro) (set_key_block i x rk rm) s) !! data o = Some m ∧
    objects (upd_mesh (data ro) (set_key_block i x rk rm) s) !! receiver = Some ro ∧
    meshes (upd_mesh (data ro) (set_key_block i x rk rm) s) !! data ro = Some (set_key_block i x rk rm)).
  { intros x. st_simpl. by map_simpl. }
  do 6
    (match goal with
     | |- context [upd_mesh (data ro) (set_key_block i ?x rk rm) s] =>
         destruct (Hst x) as (H1 & H2 & H3 & H4);
         rewrite (bind_ok _ _ _ _ _ (key_block_run _ _ _ _ _ _ _ H1 H2 Hk Hosk));
         rewrite run_bind, (update_step _ x _ H3 H4); clear H1 H2 H3 H4
     end;
     cbv beta iota; rewrite upd_mesh_twice).
  match goal with
  | |- context [upd_mesh (data ro) (set_key_block i ?x rk rm) s] =>
      destruct (Hst x) as (H1 & H2 & H3 & H4);
      rewrite (bind_ok _ _ _ _ _ (key_block_run _ _ _ _ _ _ _ H1 H2 Hk Hosk));
      rewrite (update_step _ x _ H3 H4); clear H1 H2 H3 H4
  end.
  by rewrite upd_mesh_twice.
Qed.
End restore_metadata.

Lemma objects_remove_run ob o s :
  objects s !! ob = Some o →
  objects_remove ob s = (Ok tt, remove_object ob s).
Proof.
  intros Ho. unfold objects_remove, remove_object.
  repeat py_step. cbv zeta. by case_decide.
Qed.

Lemma meshes_remove_run me m s :
  meshes s !! me = Some m →
  meshes_remove me s = (Ok tt, set_meshes (delete me) s).
Proof. intros Hm. unfold meshes_remove. by repeat py_step. Qed.

Lemma select_nil ob : select ob [] = [ob].
Proof. unfold select. by rewrite decide_False by apply not_elem_of_nil. Qed.

Lemma receiver_blocks_length o m k n :
  (n ≤ length (key_blocks k) - 1)%nat → length (receiver_blocks o m k n) = S n.
Proof.
  intros Hn. unfold receiver_blocks. cbn. rewrite length_map, length_take, length_drop. lia.
Qed.

Lemma receiver_blocks_S o m k n osk :
  key_blocks k !! S n = Some osk →
  receiver_blocks o m k (S n) = receiver_blocks o m k n ++ [carried_key o osk].
Proof.
  intros Hosk. unfold receiver_blocks.
  assert (Hd : drop 1 (key_blocks k) !! n = Some osk).
  { rewrite lookup_drop. by rewrite Nat.add_1_l. }
  rewrite (take_S_r _ _ _ Hd), map_app. reflexivity.
Qed.

Lemma leading_deform_armature ms :
  leading_deform (filter (λ md, mod_type md = ARMATURE) ms) =
    filter (λ md, mod_type md = ARMATURE) ms.
Proof.
  induction ms as [|md ms IH]; [done|]. rewrite filter_cons.
  case_decide as Ht; [|done]. cbn [leading_deform]. unfold deform_only at 1.
  by rewrite Ht, IH.
Qed.

Lemma receiver_mesh_step o m k i osk so sm :
  (1 ≤ i)%nat → key_blocks k !! i = Some osk →
  deformed_geometry so sm = donor_shape o (sk_data osk) →
  let rm := receiver_mesh_at o m k i in
  let new := new_shape_key (obj_name so) (deformed_geometry so sm) in
  let k0 := match shape_keys rm with
            | Some k => k
            | None => {| key_name := "Key";
                         key_blocks := [new_shape_key "Basis" (geometry rm)];
                         animation_data := None |}
            end in
  set_key_block i (restored osk new) (with_key_blocks (key_blocks k0 ++ [new]) k0)
    (joined rm so sm) = receiver_mesh_at o m k (S i).
Proof.
  intros Hi Hosk Hev rm new k0.
  pose proof (lookup_lt_Some _ _ _ Hosk) as Hlt.
  destruct i as [|n]; [lia|].
  assert (Hblocks : key_blocks k0 = receiver_blocks o m k n).
  { subst k0 rm. unfold receiver_mesh_at. cbn [shape_keys geometry].
    case_decide as Hn.
    - assert (n = 0) as -> by lia. reflexivity.
    - cbn. by rewrite Nat.sub_0_r. }
  assert (Hlen : length (key_blocks k0) = S n).
  { rewrite Hblocks. apply receiver_blocks_length. lia. }
  unfold receiver_mesh_at at 1. rewrite decide_False by lia.
  unfold set_key_block, joined, with_shape_keys, with_key_blocks.
  cbn [shape_keys key_blocks geometry key_name animation_data].
  f_equal. f_equal.
  assert (Hk0 : key_name k0 = "Key" ∧ animation_data k0 = None).
  { subst k0 rm. unfold receiver_mesh_at. cbn [shape_keys]. by case_decide. }
  destruct Hk0 as [-> ->]. f_equal.
  replace (S (S n) - 1)%nat with (S n) by lia.
  rewrite (receiver_blocks_S o m k n osk Hosk), <- Hblocks.
  rewrite <- Hlen at 1. rewrite <- (Nat.add_0_r (length (key_blocks k0))).
  rewrite insert_app_r. cbn [insert list_insert]. f_equal. f_equal.
  subst new. unfold restored, carried_key. cbn. by rewrite Hev.
Qed.

Section donor.
Variables (obj rid : nat) (o ro : Object) (m : Mesh) (k : Key) (s0 : Bpy).
Hypothesis Hk : shape_keys m = Some k.
Hypothesis Hnames : NoDup (mod_name <$> modifiers o).
Hypothesis Hne_data : data ro ≠ data o.
Hypothesis Hne_ob : rid ≠ obj.
Hypothesis Hfresh : (next_id s0 ≤ data ro)%nat.
Hypothesis Hdro : data ro = S rid.
Hypothesis Htype : obj_type o = MESH.
Hypothesis Hjoin : joinable s0 o m k.

Lemma donor_body_run i osk s :
  (1 ≤ i)%nat → key_blocks k !! i = Some osk →
  donor_inv obj rid o ro m k i s → frame_inv s0 s → donor_exact s0 rid o m k i s →
  ∃ s', donor_body obj rid i s = (Ok tt, s') ∧ donor_inv obj rid o ro m k (S i) s' ∧
        frame_inv s0 s' ∧ donor_exact s0 rid o m k (S i) s'.
Proof.
  intros Hi Hosk (Ho & Hm & Hro & (rm & Hrm & Hkeys) & (Hobs & Hmes & Hsel))
    (Hfv & Hf0 & Hf1 & Hf2 & Hf3) (Hx1 & Hx2 & Hx3).
  assert (Hrm_eq : rm = receiver_mesh_at o m k i) by (rewrite Hdro in Hrm; congruence).
  assert (Hobj_lt : obj < next_id s) by (apply Hobs; by eexists).
  assert (Hrid_lt : rid < next_id s) by (apply Hobs; by eexists).
  assert (Hdo_lt : data o < next_id s) by (apply Hmes; by eexists).
  assert (Hdr_lt : data ro < next_id s) by (apply Hmes; by eexists).
  set (bid := next_id s).
  set (oc := object_copy_of bid o).
  set (g := match i with O => geometry m | S _ => sk_data osk end).
  set (mc := {| shape_keys := None; geometry := g |}).
  unfold donor_body.
  rewrite (bind_ok _ _ _ _ _ (key_block_run _ _ _ _ _ _ _ Ho Hm Hk Hosk)).
  rewrite (bind_ok _ _ _ _ _ (copy_object_0_run obj o m s Ho Hm ltac:(lia))).
  fold bid.
  rewrite run_bind, (apply_shapekey_valid bid oc m k i osk); [|lookup_tac..|done|done].
  cbv beta iota. fold g. fold mc.
  rewrite run_bind, (apply_modifiers_run bid oc mc); [|lookup_tac| |done].
  2: { st_simpl. subst oc. cbn [data object_copy_of with_location_x with_obj_name with_data].
       by map_simpl. }
  cbv beta iota.
  assert (Hb1 : bid ≠ obj) by (subst bid; lia).
  assert (Hb2 : bid ≠ rid) by (subst bid; lia).
  assert (Hb3 : S bid ≠ data o) by (subst bid; lia).
  assert (Hb4 : S bid ≠ data ro) by (subst bid; lia).
  set (so := with_modifiers (filter (λ md, mod_type md = ARMATURE) (modifiers oc)) oc).
  set (sm := with_geometry (baked (clear_control_edges <$> modifiers oc) (geometry mc)) mc).
  assert (Hdoc : data oc = S bid) by done.
  rewrite Hdoc.
  set (s3 := apply_modifiers_result bid oc mc (upd_mesh (S bid) mc (copy_result o m s))).
  assert (Hsel3 : selected s3 = [bid]).
  { subst s3. st_simpl. fold bid. rewrite deselect_subseteq, select_nil; [done|].
    intros x Hx. apply elem_of_app. left. by apply Hsel. }
  rewrite run_bind, (add_objs_shapekeys_run rid bid ro rm so sm s3); cycle 1.
  { rewrite Hsel3. subst s3. st_simpl. fold bid. intros x ->%list_elem_of_singleton.
    apply elem_of_app. right. by left. }
  { subst s3. lookup_tac. }
  { subst s3. st_simpl. subst so. cbn [data with_modifiers]. rewrite ?Hdoc. by map_simpl. }
  { subst s3. st_simpl. fold bid. rewrite ?Hdoc. by map_simpl. }
  { subst s3. st_simpl. fold bid. rewrite ?Hdoc. by map_simpl. }
  { done. }
  { done. }
  rewrite decide_True; cycle 1.
  { subst s3. st_simpl. rewrite Hfv, Hrm_eq. subst sm mc g oc.
    destruct i; [lia|]. by apply (Hjoin (S i)). }
  cbv beta iota.
  set (new := new_shape_key (obj_name so) (deformed_geometry so sm)).
  set (k0 := match shape_keys rm with
             | Some k => k
             | None => {| key_name := "Key";
                          key_blocks := [new_shape_key "Basis" (geometry rm)];
                          animation_data := None |}
             end).
  set (rk' := with_key_blocks (key_blocks k0 ++ [new]) k0).
  assert (Hjoined : shape_keys (joined rm so sm) = Some rk') by done.
  assert (Hlen0 : length (key_blocks k0) = i).
  { subst k0. unfold receiver_keys_ok in Hkeys.
    destruct (shape_keys rm); [done|]. by subst i. }
  assert (Hnew : key_blocks rk' !! i = Some new).
  { subst rk'. cbn. rewrite <- Hlen0. by apply list_lookup_middle. }
  set (s4 := build (objects s3) (<[data ro:=joined rm so sm]> (meshes s3)) [bid]
               (Some rid) (reports s3) (trace s3) s3).
  rewrite run_bind,
    (restore_metadata_run obj rid i o ro m (joined rm so sm) k rk' osk
       Hne_data Hk Hosk ltac:(by eapply lookup_lt_Some) new s4);
    [| subst s4 s3; lookup_tac
     | subst s4 s3; st_simpl; by map_simpl
     | subst s4 s3; lookup_tac
     | subst s4 s3; st_simpl; by map_simpl
     | done | done ].
  cbv beta iota.
  set (rm' := set_key_block i (restored osk new) rk' (joined rm so sm)).
  rewrite run_bind, (get_object_run bid so) by (subst s4 s3; lookup_tac).
  cbv beta iota.
  rewrite run_bind, (objects_remove_run bid so) by (subst s4 s3; lookup_tac).
  cbv beta iota.
  assert (Hrem : remove_object bid (upd_mesh (data ro) rm' s4) =
                 set_selected (filter (λ x, x ≠ bid))
                   (set_scene_objects (filter (λ x, x ≠ bid))
                      (set_objects (delete bid) (upd_mesh (data ro) rm' s4)))).
  { unfold remove_object. cbv zeta. rewrite decide_False; [done|].
    subst s4. st_simpl. intros [=]. done. }
  rewrite Hrem.
  rewrite (meshes_remove_run (data so) sm); cycle 1.
  { subst s4 s3. st_simpl. subst so. cbn [data with_modifiers]. rewrite ?Hdoc. by map_simpl. }
  eexists. split; [reflexivity|]. split; [|split; [unfold frame_inv; split_and!|]].
  7: { unfold donor_exact. split_and!.
       - subst s4 s3. st_simpl. fold bid. change (data so) with (S bid).
         rewrite lookup_delete_ne by lia. rewrite <- Hdro. map_simpl.
         f_equal. subst rm' rk' k0 new. rewrite Hrm_eq.
         apply receiver_mesh_step; [done|done|]. subst so sm mc g oc.
         unfold deformed_geometry. cbn [modifiers with_modifiers].
         rewrite leading_deform_armature. destruct i; [lia|done].
       - intros x Hx Hxr. subst s4 s3. st_simpl. fold bid.
         destruct (decide (x = bid)) as [->|Hxb]; [by map_simpl|].
         map_simpl. by apply Hx2.
       - intros x Hx Hxr. subst s4 s3. st_simpl. fold bid. subst so.
         cbn [data with_modifiers]. rewrite ?Hdoc.
         destruct (decide (x = S bid)) as [->|Hxb]; [by map_simpl|].
         assert (x ≠ data ro) by (rewrite Hdro; done).
         map_simpl. by apply Hx3. }
  2: { subst s4 s3. st_simpl. done. }
  2: { subst s4 s3. st_simpl. fold bid. lia. }
  2: { intros x Hx. subst s4 s3. st_simpl. fold bid.
       rewrite <- (Hf1 x Hx). assert (x ≠ bid) by (subst bid; lia). by map_simpl. }
  2: { intros x Hx. subst s4 s3. st_simpl. fold bid. subst so. cbn [data with_modifiers].
       rewrite ?Hdoc. rewrite <- (Hf2 x Hx).
       assert (x ≠ S bid) by (subst bid; lia). assert (x ≠ data ro) by lia.
       by map_simpl. }
  2: { intros x Hx. subst s4 s3. st_simpl. fold bid. rewrite <- (Hf3 x Hx).
       assert (x ≠ bid) by (subst bid; lia).
       rewrite list_elem_of_filter, elem_of_app, list_elem_of_singleton. tauto. }
  unfold donor_inv. split_and!.
  - subst s4 s3. lookup_tac.
  - subst s4 s3. st_simpl. by map_simpl.
  - subst s4 s3. lookup_tac.
  - exists rm'. split; [subst s4 s3; st_simpl; by map_simpl|].
    unfold receiver_keys_ok. subst rm' rk'. unfold set_key_block.
    cbn [shape_keys with_shape_keys key_blocks with_key_blocks].
    rewrite length_insert, length_app. cbn. lia.
  - unfold store_ok. split_and!.
    + intros x. subst s4 s3. st_simpl. fold bid.
      destruct (decide (x = bid)) as [->|Hx]; [lia|].
      map_simpl. intros Hx'%Hobs. subst bid. lia.
    + intros x. subst s4 s3. st_simpl. fold bid. subst so. cbn [data with_modifiers].
      rewrite ?Hdoc.
      destruct (decide (x = S bid)) as [->|Hx]; [lia|].
      rewrite lookup_delete_ne by done.
      destruct (decide (x = data ro)) as [->|Hx']; [subst bid; lia|].
      map_simpl. intros Hx''%Hmes. subst bid. lia.
    + subst s4. st_simpl. rewrite filter_cons, decide_False by (intros H; by apply H).
      rewrite filter_nil. intros x Hx. by apply not_elem_of_nil in Hx.
Qed.
End donor.

Lemma donor_loop obj rid o ro m k s0 :
  shape_keys m = Some k → NoDup (mod_name <$> modifiers o) →
  data ro ≠ data o → rid ≠ obj → (next_id s0 ≤ data ro)%nat → data ro = S rid →
  obj_type o = MESH → joinable s0 o m k →
  ∀ n i s,
    (1 ≤ i)%nat → (i + n ≤ length (key_blocks k))%nat →
    donor_inv obj rid o ro m k i s → frame_inv s0 s → donor_exact s0 rid o m k i s →
    ∃ s', for_each (seq i n) (donor_body obj rid) s = (Ok tt, s') ∧
          donor_inv obj rid o ro m k (i + n) s' ∧ frame_inv s0 s' ∧
          donor_exact s0 rid o m k (i + n) s'.
Proof.
  intros Hk Hnames Hne1 Hne2 Hfresh Hdro Htype Hjoin.
  induction n as [|n IH]; intros i s Hi Hlen Hinv Hfr Hex.
  - exists s. rewrite Nat.add_0_r. done.
  - destruct (lookup_lt_is_Some_2 (key_blocks k) i) as [osk Hosk]; [lia|].
    destruct (donor_body_run obj rid o ro m k s0 Hk Hnames Hne1 Hne2 Hfresh Hdro Htype Hjoin
                i osk s Hi Hosk Hinv Hfr Hex)
      as (s1 & Hrun & Hinv1 & Hfr1 & Hex1).
    destruct (IH (S i) s1 ltac:(lia) ltac:(lia) Hinv1 Hfr1 Hex1)
      as (s' & Hrun' & Hinv' & Hfr' & Hex').
    exists s'. cbn [seq for_each]. rewrite (bind_ok _ _ _ _ _ Hrun).
    split; [done|]. by rewrite <- Nat.add_succ_comm.
Qed.

(** *** Animation transfer *)

Lemma copy_targets_ok targets : ∀ i new,
  (i + length targets ≤ length new)%nat →
  ∃ new', copy_targets i targets new = Ok new'.
Proof.
  induction targets as [|t targets IH]; intros i new Hlen.
  - by eexists.
  - cbn [copy_targets length] in *.
    destruct (lookup_lt_is_Some_2 new i) as [x ->]; [lia|].
    apply IH. rewrite length_insert. lia.
Qed.

Lemma copy_variables_ok vars :
  Forall (λ v, (length (var_targets v) ≤ num_targets (var_type v))%nat) vars →
  ∃ vars', copy_variables vars = Ok vars'.
Proof.
  induction 1 as [|v vars Hv _ [vars' IH]]; [by eexists|].
  cbn [copy_variables]. unfold copy_variable.
  destruct (copy_targets_ok (var_targets v) 0
              (replicate (num_targets (var_type v)) default_target)) as [ts Hts].
  { rewrite length_replicate. lia. }
  rewrite Hts. cbn. rewrite IH. by eexists.
Qed.

Lemma copy_driver_ok d :
  Forall (λ v, (length (var_targets v) ≤ num_targets (var_type v))%nat) (drv_variables d) →
  ∃ d', copy_driver d = Ok d'.
Proof.
  intros H. unfold copy_driver. destruct (copy_variables_ok _ H) as [vs ->]. by eexists.
Qed.

(** The transfer, exactly. *)

Lemma update_animation_data_anim dst rm rk a f s :
  meshes s !! dst = Some (anim_mesh rm rk a) →
  update_animation_data dst f s = (Ok tt, upd_mesh dst (anim_mesh rm rk (f a)) s).
Proof.
  intros H. by rewrite (update_animation_data_run dst _ _ a f s H eq_refl eq_refl).
Qed.

Lemma animation_data_create_anim key m k s :
  meshes s !! key = Some m → shape_keys m = Some k →
  animation_data_create key s =
    (Ok tt, upd_mesh key (anim_mesh m k (default empty_animation_data (animation_data k))) s).
Proof.
  intros Hm Hk. unfold animation_data_create. rewrite (update_key_run key m k _ s Hm Hk).
  do 3 f_equal. destruct k as [? ? [ad|]]; reflexivity.
Qed.

Lemma copy_drivers_ok ds :
  Forall (λ d, Forall (λ v, (length (var_targets v) ≤ num_targets (var_type v))%nat)
                      (drv_variables d)) ds →
  ∃ ds', copy_drivers ds = Ok ds'.
Proof.
  induction 1 as [|d ds Hd _ [ds' IH]]; [by eexists|].
  destruct (copy_driver_ok d Hd) as [d' Hd']. cbn [copy_drivers].
  rewrite Hd'. cbn. rewrite IH. by eexists.
Qed.

Lemma copy_drivers_exact dst rm rk s1 ds : ∀ a ds',
  copy_drivers ds = Ok ds' →
  for_each ds (copy_driver_body dst) (upd_mesh dst (anim_mesh rm rk a) s1) =
    (Ok tt, upd_mesh dst (anim_mesh rm rk (with_drivers (drivers a ++ ds') a)) s1).
Proof.
  induction ds as [|d ds IH]; intros a ds' Hcopy.
  - injection Hcopy as <-. cbn. by rewrite app_nil_r, with_drivers_id.
  - cbn [copy_drivers] in Hcopy.
    destruct (copy_driver d) as [d'|] eqn:Hd; [|done]. cbn in Hcopy.
    destruct (copy_drivers ds) as [ds''|] eqn:Hds; [|done]. cbn in Hcopy.
    injection Hcopy as <-.
    cbn [for_each]. rewrite run_bind. unfold copy_driver_body at 1.
    rewrite run_bind. unfold lift_res at 1. rewrite Hd.
    rewrite (update_animation_data_anim dst rm rk a) by (st_simpl; by map_simpl).
    rewrite upd_mesh_twice, (IH _ ds'') by done.
    do 3 f_equal. unfold with_drivers. cbn. by rewrite <- app_assoc.
Qed.

Lemma transfer_animation_exact src dst m rm k rk s :
  src ≠ dst →
  meshes s !! src = Some m → shape_keys m = Some k → drivers_ok k → no_nla_tracks k →
  meshes s !! dst = Some rm → shape_keys rm = Some rk →
  let ad1 := default empty_animation_data (animation_data k) in
  let ad0 := default empty_animation_data (animation_data rk) in
  ∃ ds',
    copy_drivers (drivers ad1) = Ok ds' ∧
    SK_OT_apply_mods.transfer_animation src dst s =
      (Ok tt,
       upd_mesh dst (anim_mesh rm rk (transferred ad1 ds' ad0))
         (upd_mesh src (anim_mesh m k ad1) s)).
Proof.
  intros Hne Hm Hk Hdrv Hnla Hrm Hrk ad1 ad0.
  assert (Hnone : nla_tracks ad1 = []).
  { subst ad1. destruct (animation_data k) as [ad|] eqn:Ha; [by apply Hnla|done]. }
  destruct (copy_drivers_ok (drivers ad1)) as [ds' Hds'].
  { subst ad1. destruct (animation_data k) as [ad|] eqn:Ha; [by apply Hdrv|by constructor]. }
  exists ds'. split; [done|].
  set (s1 := upd_mesh src (anim_mesh m k ad1) s).
  assert (Hget : ∀ rmX, get_animation_data src (upd_mesh dst rmX s1) =
                        (Ok ad1, upd_mesh dst rmX s1)).
  { intros. apply (get_animation_data_run src (anim_mesh m k ad1)
                      (with_animation_data (Some ad1) k)); [|reflexivity..].
    subst s1. st_simpl. by map_simpl. }
  unfold SK_OT_apply_mods.transfer_animation.
  rewrite run_bind, (animation_data_create_anim src m k s Hm Hk). cbv beta iota.
  fold ad1. fold s1.
  rewrite run_bind, (animation_data_create_anim dst rm rk s1);
    [|subst s1; st_simpl; by map_simpl|done].
  cbv beta iota. fold ad0.
  rewrite run_bind, Hget. cbv beta iota.
  set (a2 := match action ad1 with
             | Some act => with_action (Some act) ad0
             | None => ad0
             end).
  assert (Hact :
    match action ad1 with
    | Some act => update_animation_data dst (with_action (Some act))
    | None => mret tt
    end (upd_mesh dst (anim_mesh rm rk ad0) s1) =
    (Ok tt, upd_mesh dst (anim_mesh rm rk a2) s1)).
  { subst a2. destruct (action ad1).
    - rewrite (update_animation_data_anim dst rm rk ad0) by (st_simpl; by map_simpl).
      by rewrite upd_mesh_twice.
    - done. }
  rewrite run_bind, Hact. cbv beta iota.
  rewrite run_bind, Hget. cbv beta iota.
  rewrite run_bind.
  change (for_each (drivers ad1) _ ?st) with (for_each (drivers ad1) (copy_driver_body dst) st).
  rewrite (copy_drivers_exact dst rm rk s1 (drivers ad1) a2 ds' Hds'). cbv beta iota.
  rewrite run_bind, Hget. cbv beta iota.
  rewrite Hnone. cbn [for_each mret Py_ret]. do 3 f_equal.
  subst a2. unfold transferred, with_drivers, with_action. cbn.
  by destruct (action ad1).
Qed.


Lemma key_blocks_0_id_data_run ob o m k s :
  objects s !! ob = Some o → meshes s !! data o = Some m → shape_keys m = Some k →
  key_blocks k ≠ [] →
  key_blocks_0_id_data ob s = (Ok (data o), s).
Proof.
  intros Ho Hm Hk Hne. unfold key_blocks_0_id_data.
  rewrite (bind_ok _ _ _ _ _ (object_mesh_run _ _ _ _ Ho Hm)), Hk.
  by destruct (key_blocks k).
Qed.

Lemma remove_object_objects ob s : objects (remove_object ob s) = delete ob (objects s).
Proof. unfold remove_object. cbv zeta. by case_decide. Qed.

Lemma remove_object_meshes ob s : meshes (remove_object ob s) = meshes s.
Proof. unfold remove_object. cbv zeta. by case_decide. Qed.

Lemma remove_object_next_id ob s : next_id (remove_object ob s) = next_id s.
Proof. unfold remove_object. cbv zeta. by case_decide. Qed.

Lemma remove_object_vertex_count ob s : vertex_count (remove_object ob s) = vertex_count s.
Proof. unfold remove_object. cbv zeta. by case_decide. Qed.

Lemma remove_object_scene_objects ob s :
  scene_objects (remove_object ob s) = filter (λ x, x ≠ ob) (scene_objects s).
Proof. unfold remove_object. cbv zeta. by case_decide. Qed.

Lemma remove_object_selected ob s :
  selected (remove_object ob s) = filter (λ x, x ≠ ob) (selected s).
Proof. unfold remove_object. cbv zeta. by case_decide. Qed.

Lemma receiver_mesh_at_end o m k :
  (2 ≤ length (key_blocks k))%nat →
  receiver_mesh_at o m k (length (key_blocks k)) =
    {| shape_keys := Some {| key_name := "Key";
                             key_blocks := receiver_blocks o m k (length (key_blocks k) - 1);
                             animation_data := None |};
       geometry := baked_geometry o (geometry m) |}.
Proof. intros Hlen. unfold receiver_mesh_at. by rewrite decide_False by lia. Qed.

Lemma receiver_blocks_lookup o m k n i sk :
  (1 ≤ i)%nat → (i ≤ n)%nat → key_blocks k !! i = Some sk →
  receiver_blocks o m k n !! i = Some (carried_key o sk).
Proof.
  intros Hi Hn Hsk. destruct i as [|j]; [lia|].
  unfold receiver_blocks. cbn [lookup list_lookup].
  change (map (carried_key o) ?l !! j) with ((carried_key o <$> l) !! j).
  rewrite list_lookup_fmap, lookup_take_lt by lia.
  rewrite lookup_drop. by rewrite Nat.add_1_l, Hsk.
Qed.

(** One pass of the loop of [apply_all_modifiers_with_sk] over an object
    with a non-basis key, exactly: the pass succeeds; of the objects, the
    original is gone and the receiver has come under the first fresh
    identifier; of the meshes, the original's is gone and the receiver's
    has come; every intermediate copy has been deleted again. *)
Lemma apply_with_sk_full obj o m k s :
  objects s !! obj = Some o → meshes s !! data o = Some m → shape_keys m = Some k →
  (2 ≤ length (key_blocks k))%nat → obj_type o = MESH →
  NoDup (mod_name <$> modifiers o) → joinable s o m k →
  drivers_ok k → no_nla_tracks k → store_ok s →
  ∃ s' ds',
    SK_OT_apply_mods.apply_with_sk obj s = (Ok tt, s') ∧
    copy_drivers (drivers (default empty_animation_data (animation_data k))) = Ok ds' ∧
    objects s' = <[next_id s := receiver_object o (next_id s)]> (delete obj (objects s)) ∧
    meshes s' = <[S (next_id s) := receiver_mesh o m k ds']> (delete (data o) (meshes s)) ∧
    store_ok s' ∧ vertex_count s' = vertex_count s ∧ (next_id s ≤ next_id s')%nat ∧
    (∀ x, (x < next_id s)%nat → x ≠ obj → x ∈ scene_objects s' ↔ x ∈ scene_objects s).
Proof.
  intros Ho Hm Hk Hlen Htype Hnames Hjoin Hdrv Hnla (Hobs & Hmes & Hsel).
  assert (Hobj_lt : obj < next_id s) by (apply Hobs; by eexists).
  assert (Hdo_lt : data o < next_id s) by (apply Hmes; by eexists).
  assert (Hfree_o : ∀ x, (next_id s ≤ x)%nat → objects s !! x = None).
  { intros x Hx. destruct (objects s !! x) eqn:E; [|done].
    assert (x < next_id s) by (apply Hobs; by eexists). lia. }
  assert (Hfree_m : ∀ x, (next_id s ≤ x)%nat → meshes s !! x = None).
  { intros x Hx. destruct (meshes s !! x) eqn:E; [|done].
    assert (x < next_id s) by (apply Hmes; by eexists). lia. }
  set (rid := next_id s) in *.
  assert (Hr1 : rid ≠ obj) by (subst rid; lia).
  assert (Hr2 : S rid ≠ data o) by (subst rid; lia).
  destruct (lookup_lt_is_Some_2 (key_blocks k) 0) as [sk0 Hsk0]; [lia|].
  set (oc := with_obj_name "sk_receiver" (object_copy_of rid o)).
  set (mc := {| shape_keys := None; geometry := geometry m |}).
  set (ro := with_modifiers (filter (λ md, mod_type md = ARMATURE) (modifiers oc)) oc).
  set (rm0 := with_geometry (baked (clear_control_edges <$> modifiers oc) (geometry mc)) mc).
  unfold SK_OT_apply_mods.apply_with_sk.
  rewrite (bind_ok _ _ _ _ _ (obj_shape_keys_run _ _ _ _ Ho Hm)), Hk.
  rewrite (bind_ok _ _ _ _ _ (copy_object_0_run obj o m s Ho Hm ltac:(lia))). fold rid.
  rewrite run_bind, (update_object_run rid (object_copy_of rid o)) by lookup_tac.
  cbv beta iota. fold oc.
  rewrite run_bind.
  rewrite (apply_shapekey_valid rid oc m k 0 sk0); [|lookup_tac|st_simpl; by map_simpl|done|done].
  cbv beta iota. change (data oc) with (S rid). fold mc.
  rewrite run_bind, (apply_modifiers_run rid oc mc); [|lookup_tac|st_simpl; by map_simpl|done].
  cbv beta iota.
  set (s4 := apply_modifiers_result rid oc mc
               (upd_mesh (S rid) mc (upd_object rid oc (copy_result o m s)))).
  assert (Hinv : donor_inv obj rid o ro m k 1 s4).
  { unfold donor_inv. split_and!.
    - subst s4. lookup_tac.
    - subst s4. st_simpl. by map_simpl.
    - subst s4. lookup_tac.
    - exists rm0. split; [subst s4; st_simpl; by map_simpl|]. done.
    - unfold store_ok. split_and!.
      + intros x. subst s4. st_simpl. fold rid.
        destruct (decide (x = rid)) as [->|Hx]; [lia|].
        map_simpl. intros Hx'%Hobs. lia.
      + intros x. subst s4. st_simpl. fold rid.
        destruct (decide (x = S rid)) as [->|Hx]; [lia|].
        map_simpl. intros Hx'%Hmes. lia.
      + subst s4. st_simpl. fold rid.
        rewrite deselect_subseteq, select_nil.
        * intros x ->%list_elem_of_singleton. apply elem_of_app. right. by left.
        * intros x Hx. apply elem_of_app. left. by apply Hsel. }
  assert (Hs4 : obj_shape_keys obj s4 = (Ok (Some k), s4)).
  { destruct Hinv as (H1 & H2 & _). rewrite <- Hk. by eapply obj_shape_keys_run. }
  rewrite run_bind, Hs4. cbv beta iota. rewrite run_bind.
  change (for_each ?l _ s4) with (for_each l (donor_body obj rid) s4).
  assert (Hfr : frame_inv s s4).
  { unfold frame_inv. subst s4. st_simpl. fold rid. split_and!.
    - done.
    - lia.
    - intros x Hx. by map_simpl.
    - intros x Hx. change (data oc) with (S rid). by map_simpl.
    - intros x Hx. rewrite elem_of_app, list_elem_of_singleton. intuition lia. }
  assert (Hex : donor_exact s rid o m k 1 s4).
  { unfold donor_exact. subst s4. st_simpl. fold rid. change (data oc) with (S rid).
    split_and!.
    - by map_simpl.
    - intros x Hx Hxr. map_simpl. by apply Hfree_o.
    - intros x Hx Hxr. map_simpl. by apply Hfree_m. }
  destruct (donor_loop obj rid o ro m k s Hk Hnames ltac:(done) Hr1 ltac:(cbn; lia) eq_refl
              Htype Hjoin
              (length (key_blocks k) - 1) 1 s4 ltac:(lia) ltac:(lia) Hinv Hfr Hex)
    as (s5 & Hloop & Hinv5 & (Hfv & Hf0 & Hf1 & Hf2 & Hf3) & (Hx1 & Hx2 & Hx3)).
  rewrite Hloop. cbv beta iota.
  replace (1 + (length (key_blocks k) - 1))%nat with (length (key_blocks k)) in * by lia.
  destruct Hinv5 as (Ho5 & Hm5 & Hro5 & _ & (Hobs5 & Hmes5 & Hsel5)).
  rewrite (receiver_mesh_at_end o m k Hlen) in Hx1.
  set (rk5 := {| key_name := "Key";
                 key_blocks := receiver_blocks o m k (length (key_blocks k) - 1);
                 animation_data := None |}) in *.
  set (rm5 := {| shape_keys := Some rk5; geometry := baked_geometry o (geometry m) |}) in *.
  rewrite (bind_ok _ _ _ _ _ (get_object_run _ _ _ Ho5)).
  rewrite (bind_ok _ _ _ _ _ (key_blocks_0_id_data_run obj o m k s5 Ho5 Hm5 Hk
                                 ltac:(intros E; rewrite E in Hlen; cbn in Hlen; lia))).
  rewrite (bind_ok _ _ _ _ _ (key_blocks_0_id_data_run rid ro rm5 rk5 s5 Hro5 Hx1 eq_refl
                                 ltac:(done))).
  destruct (transfer_animation_exact (data o) (data ro) m rm5 k rk5 s5
              ltac:(done) Hm5 Hk Hdrv Hnla Hx1 eq_refl) as (ds' & Hds' & Htr).
  cbv zeta in Hds', Htr.
  rewrite run_bind, Htr. cbv beta iota.
  set (ad1 := default empty_animation_data (animation_data k)) in *.
  set (m6 := anim_mesh m k ad1).
  set (rm6 := anim_mesh rm5 rk5 (transferred ad1 ds' empty_animation_data)).
  change (default empty_animation_data (animation_data rk5)) with empty_animation_data.
  fold rm6.
  set (s6 := upd_mesh (data ro) rm6 (upd_mesh (data o) m6 s5)).
  rewrite (bind_ok _ _ _ o s6) by (apply get_object_run; subst s6; st_simpl; done).
  rewrite run_bind, (objects_remove_run obj o) by (subst s6; st_simpl; done).
  cbv beta iota.
  rewrite run_bind, (meshes_remove_run (data o) m6); cycle 1.
  { rewrite remove_object_meshes. subst s6. st_simpl. by map_simpl. }
  cbv beta iota.
  set (rk6 := with_animation_data (Some (transferred ad1 ds' empty_animation_data)) rk5).
  rewrite run_bind, (update_key_run (data ro) rm6 rk6); [|..|done]; cycle 1.
  { st_simpl. rewrite remove_object_meshes. subst s6. st_simpl. by map_simpl. }
  cbv beta iota.
  rewrite (update_object_run rid ro); cycle 1.
  { st_simpl. rewrite remove_object_objects. subst s6. st_simpl. by map_simpl. }
  assert (Hrid5 : rid < next_id s5) by (apply Hobs5; by eexists).
  assert (Hrme5 : S rid < next_id s5) by (apply Hmes5; by eexists).
  eexists _, ds'. split; [reflexivity|]. split; [done|]. split_and!.
  - st_simpl. rewrite remove_object_objects. subst s6. st_simpl.
    apply map_eq. intros x.
    destruct (decide (x = rid)) as [->|Hxr]; [by map_simpl|].
    destruct (decide (x = obj)) as [->|Hxo]; [by map_simpl|]. map_simpl.
    destruct (decide (x < rid)) as [Hlt|Hge]; [by apply Hf1|].
    rewrite Hx2, Hfree_o by lia. done.
  - st_simpl. rewrite remove_object_meshes. subst s6. st_simpl.
    change (data ro) with (S rid).
    apply map_eq. intros x.
    destruct (decide (x = S rid)) as [->|Hxr]; [by map_simpl|].
    destruct (decide (x = data o)) as [->|Hxo]; [by map_simpl|]. map_simpl.
    destruct (decide (x < rid)) as [Hlt|Hge]; [by apply Hf2|].
    rewrite Hx3, Hfree_m by lia. done.
  - unfold store_ok. st_simpl.
    rewrite remove_object_objects, remove_object_meshes, remove_object_next_id,
      remove_object_scene_objects, remove_object_selected.
    subst s6. st_simpl. change (data ro) with (S rid). split_and!.
    + intros x. destruct (decide (x = rid)) as [->|Hx]; [done|].
      destruct (decide (x = obj)) as [->|Hx']; map_simpl; [by intros [? ?]|apply Hobs5].
    + intros x. destruct (decide (x = S rid)) as [->|Hx]; [done|].
      destruct (decide (x = data o)) as [->|Hx']; map_simpl; [by intros [? ?]|].
      intros H. apply Hmes5. revert H. by map_simpl.
    + intros x [Hx Hin]%list_elem_of_filter. apply list_elem_of_filter. split; [done|].
      by apply Hsel5.
  - st_simpl. rewrite remove_object_vertex_count. subst s6. st_simpl. done.
  - st_simpl. rewrite remove_object_next_id. subst s6. st_simpl. lia.
  - intros x Hx Hne. st_simpl. rewrite remove_object_scene_objects. subst s6. st_simpl.
    rewrite <- (Hf3 x Hx), list_elem_of_filter. tauto.
Qed.

Lemma replace_size {A} (M : gmap nat A) i j x y :
  M !! i = Some y → M !! j = None → size (<[j := x]> (delete i M)) = size M.
Proof.
  intros Hi Hj. assert (i ≠ j) by (intros ->; congruence).
  rewrite map_size_insert_None by (by rewrite lookup_delete_ne).
  rewrite map_size_delete_Some by (by eexists).
  assert (size M ≠ 0); [|lia]. apply (map_size_ne_0_lookup_2 M i). by eexists.
Qed.

(** One pass of the loop of [apply_all_modifiers_with_sk], over an object
    with or without shape keys: the pass succeeds, touches nothing else
    that the store held, and leaves as many objects and meshes as there
    were. *)
Lemma apply_with_sk_step obj o m s :
  objects s !! obj = Some o → meshes s !! data o = Some m → obj_type o = MESH →
  NoDup (mod_name <$> modifiers o) → obj ∈ scene_objects s →
  (∀ k, shape_keys m = Some k →
     (2 ≤ length (key_blocks k))%nat ∧ joinable s o m k ∧ drivers_ok k ∧ no_nla_tracks k) →
  store_ok s →
  ∃ s1,
    SK_OT_apply_mods.apply_with_sk obj s = (Ok tt, s1) ∧ store_ok s1 ∧
    unchanged_except [obj] [data o] s s1 ∧
    size (objects s1) = size (objects s) ∧ size (meshes s1) = size (meshes s) ∧
    pass_result obj o m (next_id s) s1.
Proof.
  intros Ho Hm Htype Hnames Hscn Hkeys Hst. unfold pass_result.
  destruct (shape_keys m) as [k|] eqn:Hk.
  - destruct (Hkeys k eq_refl) as (Hlen & Hjoin & Hdrv & Hnla).
    destruct (apply_with_sk_full obj o m k s Ho Hm Hk Hlen Htype Hnames Hjoin Hdrv Hnla Hst)
      as (s1 & ds' & Hrun & Hds & Hobjs & Hmeshes & Hst1 & Hvc & Hnext & Hscn1).
    destruct Hst as (Hobs & Hmes & _).
    assert (Hobj_lt : obj < next_id s) by (apply Hobs; by eexists).
    assert (Hdo_lt : data o < next_id s) by (apply Hmes; by eexists).
    assert (Hfo : objects s !! next_id s = None).
    { destruct (objects s !! next_id s) eqn:E; [|done].
      assert (next_id s < next_id s) by (apply Hobs; by eexists). lia. }
    assert (Hfm : meshes s !! S (next_id s) = None).
    { destruct (meshes s !! S (next_id s)) eqn:E; [|done].
      assert (S (next_id s) < next_id s) by (apply Hmes; by eexists). lia. }
    exists s1. split; [done|]. split; [done|]. unfold unchanged_except.
    rewrite Hobjs, Hmeshes. split_and!.
    + done.
    + done.
    + intros x Hx [Hne _]%not_elem_of_cons. rewrite lookup_insert_ne by lia.
      by rewrite lookup_delete_ne.
    + intros x Hx [Hne _]%not_elem_of_cons. rewrite lookup_insert_ne by lia.
      by rewrite lookup_delete_ne.
    + intros x Hx [Hne _]%not_elem_of_cons. by apply Hscn1.
    + by eapply replace_size.
    + by eapply replace_size.
    + rewrite lookup_insert_ne by lia. apply lookup_delete_eq.
    + rewrite lookup_insert_ne by lia. apply lookup_delete_eq.
    + exists ds'. split_and!; [done|by map_simpl|by map_simpl].
  - destruct Hst as (Hobs & Hmes & Hsel).
    unfold SK_OT_apply_mods.apply_with_sk.
    rewrite (bind_ok _ _ _ _ _ (obj_shape_keys_run _ _ _ _ Ho Hm)), Hk.
    rewrite (apply_modifiers_run obj o m s Ho Hm Hnames).
    eexists. split; [reflexivity|]. unfold store_ok, unchanged_except. st_simpl. split_and!.
    + intros x. destruct (decide (x = obj)) as [->|Hx]; map_simpl; [|apply Hobs].
      intros _. apply Hobs. by eexists.
    + intros x. destruct (decide (x = data o)) as [->|Hx]; map_simpl; [|apply Hmes].
      intros _. apply Hmes. by eexists.
    + rewrite deselect_subseteq, select_nil by done.
      by intros x ->%list_elem_of_singleton.
    + done.
    + done.
    + intros x _ [Hne _]%not_elem_of_cons. by map_simpl.
    + intros x _ [Hne _]%not_elem_of_cons. by map_simpl.
    + done.
    + apply map_size_insert_Some. by eexists.
    + apply map_size_insert_Some. by eexists.
    + by map_simpl.
    + by map_simpl.
Qed.

Lemma unchanged_except_cons ob me obs mes s s1 s' :
  unchanged_except [ob] [me] s s1 → unchanged_except obs mes s1 s' →
  unchanged_except (ob :: obs) (me :: mes) s s'.
Proof.
  intros (Hv1 & Hn1 & Ho1 & Hm1 & Hs1) (Hv2 & Hn2 & Ho2 & Hm2 & Hs2).
  unfold unchanged_except. split_and!.
  - congruence.
  - lia.
  - intros x Hx [Hne Hnin]%not_elem_of_cons.
    rewrite Ho2 by (done || lia). apply Ho1; [done|]. by intros ->%list_elem_of_singleton.
  - intros x Hx [Hne Hnin]%not_elem_of_cons.
    rewrite Hm2 by (done || lia). apply Hm1; [done|]. by intros ->%list_elem_of_singleton.
  - intros x Hx [Hne Hnin]%not_elem_of_cons.
    rewrite Hs2 by (done || lia). apply Hs1; [done|]. by intros ->%list_elem_of_singleton.
Qed.

Lemma elem_of_mesh_ids s obs me :
  me ∈ mesh_ids s obs ↔ ∃ ob o, ob ∈ obs ∧ objects s !! ob = Some o ∧ data o = me.
Proof.
  unfold mesh_ids. rewrite list_elem_of_omap. split.
  - intros (ob & Hin & Hf). destruct (objects s !! ob) as [o|] eqn:Ho; [|done].
    injection Hf as <-. by exists ob, o.
  - intros (ob & o & Hin & Ho & <-). exists ob. by rewrite Ho.
Qed.

Lemma mesh_ids_ext s s' obs :
  (∀ ob, ob ∈ obs → objects s' !! ob = objects s !! ob) → mesh_ids s' obs = mesh_ids s obs.
Proof.
  intros Heq. unfold mesh_ids. apply list_omap_ext, Forall_Forall2_diag, Forall_forall.
  intros ob Hin. by rewrite Heq.
Qed.

Lemma sk_object_ok_lt s ob :
  store_ok s → sk_object_ok s ob →
  ob < next_id s ∧ ∀ o, objects s !! ob = Some o → data o < next_id s.
Proof.
  intros (Hobs & Hmes & _) (o & m & Ho & Hm & _). split.
  - apply Hobs. by eexists.
  - intros o' Ho'. rewrite Ho in Ho'. injection Ho' as <-. apply Hmes. by eexists.
Qed.

(** The batch that remains after one pass is still one that can be processed. *)
Lemma batch_ok_step ob o rest s s1 :
  batch_ok s (ob :: rest) → objects s !! ob = Some o →
  store_ok s1 → unchanged_except [ob] [data o] s s1 →
  batch_ok s1 rest ∧ mesh_ids s1 rest = mesh_ids s rest ∧
  ∀ x, x ∈ rest → objects s1 !! x = objects s !! x ∧
       ∀ o', objects s !! x = Some o' → meshes s1 !! data o' = meshes s !! data o'.
Proof.
  intros (Hst & Hnd & Hndm & Hall) Ho Hst1 (Hv1 & Hn1 & Ho1 & Hm1 & Hs1).
  apply NoDup_cons in Hnd as [Hnotin Hnd].
  rewrite (mesh_ids_cons _ _ _ _ Ho) in Hndm. apply NoDup_cons in Hndm as [Hmnotin Hndm].
  apply Forall_cons in Hall as [_ Hall]. rewrite Forall_forall in Hall.
  assert (Hsame : ∀ x, x ∈ rest → objects s1 !! x = objects s !! x ∧
            ∀ o', objects s !! x = Some o' → meshes s1 !! data o' = meshes s !! data o').
  { intros x Hin. destruct (sk_object_ok_lt s x Hst (Hall x Hin)) as [Hlt Hdlt]. split.
    - apply Ho1; [done|]. intros ->%list_elem_of_singleton. done.
    - intros o' Ho'. apply Hm1; [by apply Hdlt|].
      intros Heq%list_elem_of_singleton. apply Hmnotin, elem_of_mesh_ids. by exists x, o'. }
  assert (Hids : mesh_ids s1 rest = mesh_ids s rest).
  { apply mesh_ids_ext. intros x Hin. by apply Hsame. }
  split; [|done]. unfold batch_ok. split_and!; [done|done|by rewrite Hids|].
  apply Forall_forall. intros x Hin.
  destruct (Hsame x Hin) as [Hox Hmx].
  destruct (sk_object_ok_lt s x Hst (Hall x Hin)) as [Hlt _].
  destruct (Hall x Hin) as (o' & m' & Ho' & Hm' & Htype & Hnames & Hscn & Hkeys).
  exists o', m'. split_and!.
  - by rewrite Hox.
  - by rewrite (Hmx o' Ho').
  - done.
  - done.
  - apply Hs1; [done| |done]. intros ->%list_elem_of_singleton. done.
  - intros k Hk. destruct (Hkeys k Hk) as (Hlen & Hjoin & Hdrv & Hnla).
    split_and!; [done| |done|done]. unfold joinable. rewrite Hv1. apply Hjoin.
Qed.

(** What a pass left of an object stays as it is while the rest of the
    batch is processed. *)
Lemma pass_result_keep obj o m rid obs mes s1 s' :
  unchanged_except obs mes s1 s' → store_ok s1 →
  (obj < next_id s1)%nat → (data o < next_id s1)%nat →
  obj ∉ obs → data o ∉ mes → rid ∉ obs → S rid ∉ mes →
  pass_result obj o m rid s1 → pass_result obj o m rid s'.
Proof.
  intros (_ & _ & Ho2 & Hm2 & _) (Hobs1 & Hmes1 & _) Hlt Hdlt Hno Hnm Hnr Hnrm.
  unfold pass_result. destruct (shape_keys m) as [k|].
  - intros (Hgo & Hgm & ds' & Hds & Hro & Hrm). split_and!.
    + by rewrite Ho2.
    + by rewrite Hm2.
    + exists ds'. split_and!; [done| |].
      * rewrite Ho2; [done|apply Hobs1; by eexists|done].
      * rewrite Hm2; [done|apply Hmes1; by eexists|done].
  - intros (Hro & Hrm). split.
    + by rewrite Ho2.
    + by rewrite Hm2.
Qed.

(** The whole loop of [apply_all_modifiers_with_sk], exactly: it succeeds
    on a batch that can be processed, touches nothing outside the batch,
    leaves as many objects and meshes as there were, and leaves of every
    object of the batch what its pass left. *)
Lemma apply_all_modifiers_with_sk_full objs : ∀ s,
  batch_ok s objs →
  ∃ s',
    SK_OT_apply_mods.apply_all_modifiers_with_sk objs s = (Ok tt, s') ∧
    store_ok s' ∧ unchanged_except objs (mesh_ids s objs) s s' ∧
    size (objects s') = size (objects s) ∧ size (meshes s') = size (meshes s) ∧
    ∀ obj o m,
      obj ∈ objs → objects s !! obj = Some o → meshes s !! data o = Some m →
      ∃ rid, (next_id s ≤ rid)%nat ∧ pass_result obj o m rid s'.
Proof.
  unfold SK_OT_apply_mods.apply_all_modifiers_with_sk.
  induction objs as [|ob rest IH]; intros s Hbatch.
  - exists s. destruct Hbatch as (Hst & _). split_and!; [done|done| |done|done|].
    + unfold unchanged_except. split_and!; done.
    + intros obj o m Hin. by apply elem_of_nil in Hin.
  - pose proof Hbatch as (Hst & Hnd & Hndm & Hall).
    apply Forall_cons in Hall as [Hob Hall].
    destruct (sk_object_ok_lt s ob Hst Hob) as [Hlt Hdlt].
    destruct Hob as (o & m & Ho & Hm & Htype & Hnames & Hscn & Hkeys).
    specialize (Hdlt o Ho).
    apply NoDup_cons in Hnd as [Hnotin Hnd].
    rewrite (mesh_ids_cons _ _ _ _ Ho) in Hndm. apply NoDup_cons in Hndm as [Hmnotin Hndm].
    destruct (apply_with_sk_step ob o m s Ho Hm Htype Hnames Hscn Hkeys Hst)
      as (s1 & Hrun & Hst1 & Hfr & Hso & Hsm & Hres).
    destruct (batch_ok_step ob o rest s s1 Hbatch Ho Hst1 Hfr) as (Hbatch1 & Hids & Hsame).
    destruct (IH s1 Hbatch1) as (s' & Hrun' & Hst' & Hfr' & Hso' & Hsm' & Hmain).
    assert (Hn1 : (next_id s ≤ next_id s1)%nat) by apply Hfr.
    assert (Hv1 : vertex_count s1 = vertex_count s) by apply Hfr.
    assert (Hrest_lt : ∀ x, x ∈ rest → x < next_id s).
    { intros x Hx. rewrite Forall_forall in Hall. by apply (sk_object_ok_lt s x Hst), Hall. }
    assert (Hmesh_lt : ∀ x, x ∈ mesh_ids s rest → x < next_id s).
    { intros x (y & o' & Hy & Ho' & <-)%elem_of_mesh_ids. rewrite Forall_forall in Hall.
      by apply (sk_object_ok_lt s y Hst (Hall y Hy)). }
    exists s'. cbn [for_each]. rewrite (bind_ok _ _ _ _ _ Hrun).
    split_and!; [done|done| |lia|lia|].
    + rewrite (mesh_ids_cons _ _ _ _ Ho), <- Hids. by eapply unchanged_except_cons.
    + intros obj o' m' [->|Hin]%elem_of_cons Ho' Hm'.
      * rewrite Ho in Ho'. injection Ho' as <-. rewrite Hm in Hm'. injection Hm' as <-.
        exists (next_id s). split; [done|].
        apply (pass_result_keep ob o m (next_id s) rest (mesh_ids s1 rest) s1 s');
          [done|done|lia|lia|done|by rewrite Hids| |rewrite Hids|done].
        -- intros Hx%Hrest_lt. lia.
        -- intros Hx%Hmesh_lt. lia.
      * destruct (Hsame obj Hin) as [Hox Hmx].
        destruct (Hmain obj o' m' Hin) as (rid & Hrid & Hres');
          [by rewrite Hox|by rewrite (Hmx o' Ho')|].
        exists rid. split; [lia|done].
Qed.


(** C1 is violated for a shape key whose slider_min is not below 1.  A
    key added by the join has slider bounds 0 and 1, and the loop assigns
    slider_min (line 239) before slider_max (line 240), so the host limits
    the assigned slider_min to just under the new key's slider_max of 1.
    On an object without modifiers whose key "Smile" has slider_min 2,
    slider_max 5 and value 3, the run succeeds, the original is gone, and
    the key "Smile" of the receiver, which now carries the object's name,
    has the name, mute flag, slider_max, value, interpolation, lock flag
    and vertex group of the original key, but a slider_min below 1. *)
Theorem apply_all_modifiers_with_sk_clamps_slider_min :
  let original := Examples.shape_key "Smile" true 2 5 3 1 in
  let run := SK_OT_apply_mods.apply_all_modifiers_with_sk [1] Examples.undriven_scene in
  objects Examples.undriven_scene !! 1 = Some (Examples.mesh_object "Body" 101 []) ∧
  meshes Examples.undriven_scene !! 101 = Some Examples.undriven_mesh ∧
  key_blocks Examples.undriven_key !! 1 = Some original ∧
  fst run = Ok tt ∧
  objects (snd run) = {[ 200 := Examples.mesh_object "Body" 201 [] ]} ∧
  ∃ rm rk sk,
    meshes (snd run) = {[ 201 := rm ]} ∧ shape_keys rm = Some rk ∧
    length (key_blocks rk) = 3 ∧ key_blocks rk !! 1 = Some sk ∧
    sk_name sk = sk_name original ∧ sk_mute sk = sk_mute original ∧
    sk_slider_max sk = sk_slider_max original ∧ sk_value sk = sk_value original ∧
    sk_interpolation sk = sk_interpolation original ∧
    sk_lock_shape sk = sk_lock_shape original ∧
    sk_vertex_group sk = sk_vertex_group original ∧
    (sk_slider_min sk < 1)%Q ∧ (sk_slider_min original == 2)%Q.
Proof.
  cbv zeta. split_and!; [reflexivity|reflexivity|reflexivity|vm_compute; reflexivity|
                         vm_compute; reflexivity|].
  eexists _, _, _. split_and!; try (vm_compute; reflexivity).
Qed.

Lemma iter_toggle_created a m k n :
  shape_keys m = Some k → animation_data k = None →
  Nat.iter (S n) (toggle_mesh a) m =
    with_shape_keys (Some (with_animation_data (Some empty_animation_data) k)) m.
Proof.
  intros Hk Ha. induction n as [|n IH].
  - cbn. unfold toggle_mesh, toggle_key. by rewrite Hk, Ha.
  - rewrite Nat.iter_succ, IH. reflexivity.
Qed.

Lemma occurrences_pos key (keys : list nat) : key ∈ keys → 0 < occurrences key keys.
Proof.
  intros Hin. unfold occurrences.
  assert (Hf : key ∈ filter (λ k, k = key) keys) by (by apply list_elem_of_filter).
  destruct (filter (λ k, k = key) keys); [by apply not_elem_of_nil in Hf|cbn; lia].
Qed.

(** C10.  A selected mesh with shape keys whose container has no animation
    data gets an (empty) animation-data block from the operator, whatever
    the action and however many drivers the run reports. *)
Theorem toggle_creates_animation_data a s ob o m k :
  selection_ok s → ob ∈ selected s →
  objects s !! ob = Some o → obj_type o = MESH →
  meshes s !! data o = Some m → shape_keys m = Some k → animation_data k = None →
  ∃ s',
    SK_OT_toggle_shapekeys_drivers.execute a s = (Ok FINISHED, s') ∧
    reports s' = reports s ++
      [(INFO, SK_OT_toggle_shapekeys_drivers.toggled_message a
                (toggled_drivers s (selected_keys s))
                (toggled_objects s (selected_keys s)))] ∧
    meshes s' !! data o =
      Some (with_shape_keys (Some (with_animation_data (Some empty_animation_data) k)) m) ∧
    meshes s' ≠ meshes s.
Proof.
  intros Hsel Hin Ho Ht Hm Hk Ha.
  assert (Hel : eligible s ob = true).
  { unfold eligible. rewrite Ho, decide_True, Hm, Hk by done. done. }
  assert (Hob : ob ∈ filter (λ ob, eligible s ob) (selected s)).
  { apply list_elem_of_filter. split; [by rewrite Hel|done]. }
  assert (Hkey : data o ∈ selected_keys s).
  { unfold selected_keys, mesh_ids. apply list_elem_of_omap. exists ob. split; [done|].
    by rewrite Ho. }
  assert (Hlook : toggle_meshes a (selected_keys s) (meshes s) !! data o =
    Some (with_shape_keys (Some (with_animation_data (Some empty_animation_data) k)) m)).
  { rewrite lookup_toggle_meshes, Hm. cbn.
    destruct (occurrences (data o) (selected_keys s)) as [|n] eqn:Hn.
    - pose proof (occurrences_pos _ _ Hkey). lia.
    - f_equal. by apply iter_toggle_created. }
  rewrite (toggle_execute_run a s Hsel). rewrite decide_False; cycle 1.
  { intros E. rewrite E in Hob. by apply not_elem_of_nil in Hob. }
  eexists. split; [reflexivity|]. split_and!.
  - reflexivity.
  - exact Hlook.
  - cbn. intros E. unfold selected_keys in Hlook. rewrite E, Hm in Hlook.
    injection Hlook as Hlook.
    apply (f_equal shape_keys) in Hlook. rewrite Hk in Hlook. cbn in Hlook.
    injection Hlook as Hlook. apply (f_equal animation_data) in Hlook.
    rewrite Ha in Hlook. done.
Qed.

(** In a list that holds references to modifiers only, no reference to
    an object is ever found: this is why the deduplication of
    [reset_armature_pose] never triggers. *)
Lemma object_not_among_modifiers ob (processed : list PyRef) :
  Forall (λ r, ∃ owner i, r = RefModifier owner i) processed →
  RefObject ob ∉ processed.
Proof.
  intros Hall Hin. rewrite Forall_forall in Hall.
  destruct (Hall _ Hin) as (owner & i & E). discriminate.
Qed.

(** *** Evaluations on the example scenes *)

Lemma store_ok_intro s :
  map_Forall (λ x _, x < next_id s) (objects s) →
  map_Forall (λ x _, x < next_id s) (meshes s) →
  Forall (λ x, x ∈ scene_objects s) (selected s) →
  store_ok s.
Proof.
  intros H1 H2 H3. split_and!.
  - intros x [o Hx]. by apply (H1 x o).
  - intros x [m Hx]. by apply (H2 x m).
  - intros x Hx. rewrite Forall_forall in H3. by apply H3.
Qed.

(** The keys of the example meshes can be joined. *)
Ltac example_joinable :=
  let i := fresh "i" in let sk := fresh "sk" in
  let Hi := fresh "Hi" in let Hl := fresh "Hl" in
  intros i sk Hi Hl;
  destruct i as [|[|[|i]]]; [lia| | |]; vm_compute in Hl; try discriminate;
  injection Hl as <-; vm_compute; reflexivity.

Lemma mixed_scene_batch_ok : batch_ok Examples.mixed_scene [1; 2; 3].
Proof.
  unfold batch_ok. split_and!.
  - apply store_ok_intro; apply (bool_decide_unpack _); vm_compute; exact I.
  - apply (bool_decide_unpack _). vm_compute. exact I.
  - apply (bool_decide_unpack _). vm_compute. exact I.
  - repeat apply Forall_cons_2; [| | |apply Forall_nil_2].
    + exists Examples.body_object, Examples.body_mesh. split_and!; [reflexivity..| | |].
      * apply (bool_decide_unpack _). vm_compute. exact I.
      * apply (bool_decide_unpack _). vm_compute. exact I.
      * intros k [= <-]. split_and!.
        -- vm_compute. lia.
        -- example_joinable.
        -- intros ad [= <-]. repeat constructor.
        -- intros ad [= <-]. reflexivity.
    + exists (Examples.mesh_object "Cube" 102 Examples.body_stack), Examples.cube_mesh.
      split_and!; [reflexivity..| | |].
      * apply (bool_decide_unpack _). vm_compute. exact I.
      * apply (bool_decide_unpack _). vm_compute. exact I.
      * intros k [=].
    + exists (Examples.mesh_object "Face" 103 []), Examples.undriven_mesh.
      split_and!; [reflexivity..| | |].
      * apply (bool_decide_unpack _). vm_compute. exact I.
      * apply (bool_decide_unpack _). vm_compute. exact I.
      * intros k [= <-]. split_and!.
        -- vm_compute. lia.
        -- example_joinable.
        -- intros ad [=].
        -- intros ad [=].
Defined.


Lemma apply_modifiers_failure_recovered_witness :
  ∃ s' o' m',
    apply_modifiers 1 Examples.plain_scene = (Ok tt, s') ∧
    objects s' !! 1 = Some o' ∧ meshes s' !! 101 = Some m' ∧
    (INFO, "Removed invalid modifier Boolean (BOOLEAN) from Cube") ∈ reports s' ∧
    "Boolean" ∈ remove_calls (trace s') ∧
    ("Boolean" ∉ mod_name <$> modifiers o') ∧
    apply_calls (trace s') = ["Subdivision"; "Boolean"; "Solidify"] ∧
    mod_name <$> modifiers o' = ["Armature"] ∧
    mod_name <$> geom_modifiers (geometry m') = ["Subdivision"; "Solidify"].
Proof.
  destruct (proj1 apply_modifiers_failure_recovered 1 Examples.cube_object
              Examples.cube_mesh Examples.plain_scene Examples.boolean_modifier)
    as (s' & o' & m' & Hrun & Ho & Hm & Hrep & _ & Hrem & Hgone & _ & Hcalls & Hstack & Hgeom).
  - reflexivity.
  - reflexivity.
  - apply (bool_decide_unpack _). vm_compute. exact I.
  - apply (bool_decide_unpack _). vm_compute. exact I.
  - discriminate.
  - reflexivity.
  - exists s', o', m'. split_and!; try assumption.
    + by rewrite Hstack.
    + by rewrite Hgeom.
Defined.

Lemma apply_modifiers_stack_order_witness :
  ∃ s' o' m',
    apply_modifiers 1 Examples.plain_scene = (Ok tt, s') ∧
    objects s' !! 1 = Some o' ∧ meshes s' !! 101 = Some m' ∧
    trace s' = [EvSetControlEdges 1 "Subdivision" false;
                EvModifierApply 1 "Subdivision";
                EvModifierApply 1 "Boolean"; EvModifierRemove 1 "Boolean";
                EvModifierApply 1 "Solidify"] ∧
    mod_name <$> modifiers o' = ["Armature"] ∧
    geom_modifiers (geometry m') =
      [clear_control_edges (Examples.modifier "Subdivision" SUBSURF None true);
       Examples.modifier "Solidify" (OtherModifier "SOLIDIFY") None true].
Proof.
  destruct (apply_modifiers_stack_order 1 Examples.cube_object Examples.cube_mesh
              Examples.plain_scene)
    as (s' & o' & m' & Hrun & Ho & Hm & Htrace & _ & _ & Hstack & Hgeom).
  - reflexivity.
  - reflexivity.
  - apply (bool_decide_unpack _). vm_compute. exact I.
  - exists s', o', m'. split_and!; try assumption.
    by rewrite Hstack.
Defined.

Lemma apply_mods_no_mesh_cancelled_witness :
  SK_OT_apply_mods.execute ALL_MODIFIERS_WITH_SHAPEKEYS true Examples.rig_selected_scene =
    (Ok CANCELLED,
     add_report (ERROR, "No Active object. Please select at least 1 mesh object")
       Examples.rig_selected_scene).
Proof.
  apply (apply_mods_no_mesh_cancelled ALL_MODIFIERS_WITH_SHAPEKEYS true
           Examples.rig_selected_scene).
  repeat constructor. exists Examples.rig. split; [reflexivity|discriminate].
Defined.

Lemma selection_ok_body_scene : selection_ok Examples.body_scene.
Proof.
  repeat constructor. exists Examples.body_object. split; [reflexivity|].
  intros _. by exists Examples.body_mesh.
Defined.

Lemma toggle_MUTE_idempotent_witness :
  meshes (snd (SK_OT_toggle_shapekeys_drivers.execute MUTE
                 (snd (SK_OT_toggle_shapekeys_drivers.execute MUTE Examples.body_scene)))) =
  meshes (snd (SK_OT_toggle_shapekeys_drivers.execute MUTE Examples.body_scene)) ∧
  map drv_mute
    (key_drivers
       (snd (SK_OT_toggle_shapekeys_drivers.execute MUTE
               (snd (SK_OT_toggle_shapekeys_drivers.execute MUTE Examples.body_scene))))
       101) = [true; true].
Proof.
  destruct (toggle_MUTE_idempotent Examples.body_scene selection_ok_body_scene) as [H1 H2].
  split; [exact H1|]. rewrite (H2 101). reflexivity.
Defined.

Lemma toggle_TOGGLE_involution_witness :
  map drv_mute
    (key_drivers (snd (SK_OT_toggle_shapekeys_drivers.execute TOGGLE Examples.body_scene))
       101) = [false; true] ∧
  key_drivers
    (snd (SK_OT_toggle_shapekeys_drivers.execute TOGGLE
            (snd (SK_OT_toggle_shapekeys_drivers.execute TOGGLE Examples.body_scene))))
    101 =
  key_drivers Examples.body_scene 101.
Proof.
  split; [reflexivity|].
  exact (toggle_TOGGLE_involution Examples.body_scene selection_ok_body_scene 101).
Defined.

Lemma toggle_creates_animation_data_witness :
  ∃ s',
    SK_OT_toggle_shapekeys_drivers.execute TOGGLE Examples.undriven_scene =
      (Ok FINISHED, s') ∧
    reports s' = [(INFO, "Toggled 0 drivers for 0 objects")] ∧
    meshes s' !! 101 =
      Some (with_shape_keys
              (Some (with_animation_data (Some empty_animation_data) Examples.undriven_key))
              Examples.undriven_mesh) ∧
    meshes s' ≠ meshes Examples.undriven_scene.
Proof.
  apply (toggle_creates_animation_data TOGGLE Examples.undriven_scene 1
           (Examples.mesh_object "Body" 101 []) Examples.undriven_mesh Examples.undriven_key).
  - repeat constructor. eexists. split; [reflexivity|]. intros _. by eexists.
  - apply (bool_decide_unpack _). vm_compute. exact I.
  - reflexivity.
  - reflexivity.
  - reflexivity.
  - reflexivity.
  - reflexivity.
Defined.

(** C4 is violated: two meshes bound to the same armature get it reset
    twice in one run of [reset_armature_pose]. *)
Theorem reset_armature_pose_not_deduplicated :
  fst (reset_armature_pose [1; 2] Examples.shared_rig_scene) = Ok tt ∧
  trace (snd (reset_armature_pose [1; 2] Examples.shared_rig_scene)) =
    [EvResetPose 10; EvResetPose 10] ∧
  fst (SK_OT_apply_mods.execute ALL_MODIFIERS true Examples.shared_rig_scene) = Ok FINISHED ∧
  trace (snd (SK_OT_apply_mods.execute ALL_MODIFIERS true Examples.shared_rig_scene)) =
    [EvResetPose 10; EvResetPose 10].
Proof. vm_compute. done. Qed.

(** C5 is violated at the index equal to the number of keys: every shape
    key of the object is removed and the final removal raises. *)
Theorem apply_shapekey_at_length_removes_all_keys :
  apply_shapekey 1 3 Examples.body_scene =
    (Raise ReferenceError,
     upd_mesh 101 (with_shape_keys None Examples.body_mesh) Examples.body_scene) ∧
  obj_shape_keys 1 (snd (apply_shapekey 1 3 Examples.body_scene)) =
    (Ok None, snd (apply_shapekey 1 3 Examples.body_scene)).
Proof.
  assert (H : apply_shapekey 1 3 Examples.body_scene =
    (Raise ReferenceError,
     upd_mesh 101 (with_shape_keys None Examples.body_mesh) Examples.body_scene)).
  { exact (apply_shapekey_length 1 Examples.body_object Examples.body_mesh Examples.body_key
             Examples.body_scene eq_refl eq_refl eq_refl ltac:(discriminate)). }
  split; [exact H|]. rewrite H. reflexivity.
Qed.

Lemma bake_executes_when_triggered :
  let s := set_bake_globals (Some 1%Z) (Some 2%Z) true Examples.body_scene in
  fst (SK_OT_bake_shapekey_animation.execute s) = Ok FINISHED ∧
  frame_current (snd (SK_OT_bake_shapekey_animation.execute s)) = 2%Z ∧
  BAKE_SHAPEKEY_ANIMATION_EXECUTE (snd (SK_OT_bake_shapekey_animation.execute s)) = false ∧
  reports (snd (SK_OT_bake_shapekey_animation.execute s)) = [(INFO, "Baked keyframes")].
Proof. vm_compute. done. Qed.

(** * Further properties of the operators *)

(** ** [sk.toggle_shapekeys_drivers] *)

Lemma set_mute_fixed a d :
  a ≠ TOGGLE →
  drv_mute (SK_OT_toggle_shapekeys_drivers.set_mute a d) = bool_decide (a = MUTE).
Proof. intros Ha. by destruct a, d as [? [] ? ? ? ?]. Qed.

Lemma set_mute_settings a d :
  with_drv_mute false (SK_OT_toggle_shapekeys_drivers.set_mute a d) = with_drv_mute false d.
Proof. by destruct a, d as [? [] ? ? ? ?]. Qed.

Lemma iter_set_mute_settings a n ds :
  map (with_drv_mute false)
      (Nat.iter n (map (SK_OT_toggle_shapekeys_drivers.set_mute a)) ds) =
  map (with_drv_mute false) ds.
Proof.
  induction n as [|n IH]; [done|].
  rewrite Nat.iter_succ, map_map, <- IH.
  apply map_ext. intros d. apply set_mute_settings.
Qed.

Lemma iter_map_length {A} (f : A → A) n (l : list A) :
  length (Nat.iter n (map f) l) = length l.
Proof. induction n as [|n IH]; [done|]. by rewrite Nat.iter_succ, length_map. Qed.

Lemma iter_negb_parity n b : Nat.iter n negb b = if Nat.even n then b else negb b.
Proof.
  induction n as [|n IH]; [done|].
  rewrite Nat.iter_succ, IH, Nat.even_succ, <- Nat.negb_even.
  destruct (Nat.even n); cbn; [done|apply negb_involutive].
Qed.

Lemma iter_TOGGLE_flags n ds :
  map drv_mute (Nat.iter n (map (SK_OT_toggle_shapekeys_drivers.set_mute TOGGLE)) ds) =
  map (Nat.iter n negb) (map drv_mute ds).
Proof.
  induction n as [|n IH].
  - cbn. by rewrite map_id.
  - rewrite Nat.iter_succ, map_map.
    transitivity (map negb (map drv_mute
      (Nat.iter n (map (SK_OT_toggle_shapekeys_drivers.set_mute TOGGLE)) ds))).
    + rewrite map_map. apply map_ext. by intros [? [] ? ? ? ?].
    + rewrite IH, !map_map. apply map_ext. intros d. by rewrite Nat.iter_succ.
Qed.

Lemma iter_toggle_same_keys a n m : same_keys m (Nat.iter n (toggle_mesh a) m).
Proof.
  induction n as [|n IH].
  - cbn. unfold same_keys. split; [done|]. by destruct (shape_keys m).
  - rewrite Nat.iter_succ. revert IH. generalize (Nat.iter n (toggle_mesh a) m). intros x.
    unfold same_keys, toggle_mesh. intros [Hg Hk].
    destruct (shape_keys x) as [kx|] eqn:Hx; cbn; [|by rewrite Hx].
    split; [done|]. by destruct (shape_keys m).
Qed.

Lemma eligible_selected_key s ob o :
  ob ∈ selected s → eligible s ob = true → objects s !! ob = Some o →
  data o ∈ selected_keys s.
Proof.
  intros Hin Hel Ho. unfold selected_keys. apply elem_of_mesh_ids. exists ob, o.
  split_and!; [|done..]. apply list_elem_of_filter. split; [by rewrite Hel|done].
Qed.

Lemma toggle_execute_meshes a s :
  selection_ok s →
  meshes (snd (SK_OT_toggle_shapekeys_drivers.execute a s)) =
    toggle_meshes a (selected_keys s) (meshes s).
Proof. intros Hsel. by destruct (toggle_execute_effect a s Hsel) as (_ & _ & _ & H). Qed.

Lemma toggle_execute_drivers a s key :
  selection_ok s →
  key_drivers (snd (SK_OT_toggle_shapekeys_drivers.execute a s)) key =
    Nat.iter (occurrences key (selected_keys s))
      (map (SK_OT_toggle_shapekeys_drivers.set_mute a)) (key_drivers s key).
Proof.
  intros Hsel. unfold key_drivers.
  rewrite (toggle_execute_meshes a s Hsel), lookup_toggle_meshes.
  destruct (meshes s !! key) as [m|]; cbn.
  - apply mesh_drivers_iter.
  - generalize (occurrences key (selected_keys s)). intros n.
    induction n as [|n IH]; [done|]. by rewrite Nat.iter_succ, <- IH.
Qed.

(** X1.  After a run with action MUTE every driver on the container of every
    eligible selected object is muted, and after UNMUTE none is; the run
    returns FINISHED and the container keeps as many drivers. *)
Theorem toggle_sets_every_flag a s ob o :
  selection_ok s → a ≠ TOGGLE →
  ob ∈ selected s → eligible s ob = true → objects s !! ob = Some o →
  ∃ s',
    SK_OT_toggle_shapekeys_drivers.execute a s = (Ok FINISHED, s') ∧
    length (key_drivers s' (data o)) = length (key_drivers s (data o)) ∧
    Forall (λ d, drv_mute d = bool_decide (a = MUTE)) (key_drivers s' (data o)).
Proof.
  intros Hsel Ha Hin Hel Ho.
  pose proof (eligible_selected_key s ob o Hin Hel Ho) as Hkey.
  pose proof (toggle_execute_drivers a s (data o) Hsel) as Hdrv.
  pose proof (toggle_execute_run a s Hsel) as Hrun. cbv zeta in Hrun.
  rewrite decide_False in Hrun; cycle 1.
  { intros E. assert (Hob : ob ∈ filter (λ ob, eligible s ob) (selected s))
      by (apply list_elem_of_filter; split; [by rewrite Hel|done]).
    rewrite E in Hob. by apply not_elem_of_nil in Hob. }
  rewrite Hrun in Hdrv. cbn [snd] in Hdrv.
  eexists. split; [exact Hrun|]. rewrite Hdrv.
  destruct (occurrences (data o) (selected_keys s)) as [|n] eqn:Hn.
  { pose proof (occurrences_pos _ _ Hkey). lia. }
  rewrite Nat.iter_succ. split.
  - by rewrite length_map, iter_map_length.
  - apply Forall_forall. intros d (d0 & -> & _)%list_elem_of_fmap.
    by apply set_mute_fixed.
Qed.

Lemma unmuted_mesh_toggle a m : unmuted_mesh (toggle_mesh a m) = unmuted_mesh m.
Proof.
  destruct m as [[k|] g]; [|done]. destruct k as [n bs [ad|]]; [|done].
  destruct ad as [act ds tracks]. unfold unmuted_mesh, toggle_mesh, unmuted_key, toggle_key.
  cbn. assert (E : map (with_drv_mute false) (map (SK_OT_toggle_shapekeys_drivers.set_mute a) ds)
                   = map (with_drv_mute false) ds).
  { rewrite map_map. apply map_ext. intros d. apply set_mute_settings. }
  by rewrite E.
Qed.

Lemma unmuted_mesh_iter a n m : unmuted_mesh (Nat.iter n (toggle_mesh a) m) = unmuted_mesh m.
Proof.
  induction n as [|n IH]; [done|]. by rewrite Nat.iter_succ, unmuted_mesh_toggle.
Qed.

(** X2.  Whatever the action, a run changes nothing but mute flags (and the
    presence of an empty animation-data block).  Every mesh is, up to the
    mute flags of the drivers on its shape-key container, the mesh it was:
    the same geometry, and a container with the same name, key blocks,
    action and NLA tracks, and the same drivers in number and order with
    their data path, type, expression, self flag and variables.  Objects,
    selection, active object, scene membership, current frame and the
    host calls made so far are untouched, and no mesh is added or
    removed. *)
Theorem toggle_changes_only_mute_flags a s :
  selection_ok s →
  let s' := snd (SK_OT_toggle_shapekeys_drivers.execute a s) in
  objects s' = objects s ∧ selected s' = selected s ∧
  scene_objects s' = scene_objects s ∧ active s' = active s ∧
  frame_current s' = frame_current s ∧ trace s' = trace s ∧
  (∀ key, map (with_drv_mute false) (key_drivers s' key) =
          map (with_drv_mute false) (key_drivers s key)) ∧
  (∀ key, unmuted_mesh <$> meshes s' !! key = unmuted_mesh <$> meshes s !! key) ∧
  (∀ key, match meshes s !! key, meshes s' !! key with
          | Some m, Some m' => same_keys m m'
          | None, None => True
          | _, _ => False
          end).
Proof.
  intros Hsel s'. subst s'.
  destruct (toggle_execute_effect a s Hsel) as (_ & Ho & Hs & Hm).
  split_and!; [done|done| | | | | | |].
  - rewrite (toggle_execute_run a s Hsel). cbv zeta. by case_decide.
  - rewrite (toggle_execute_run a s Hsel). cbv zeta. by case_decide.
  - rewrite (toggle_execute_run a s Hsel). cbv zeta. by case_decide.
  - rewrite (toggle_execute_run a s Hsel). cbv zeta. by case_decide.
  - intros key. rewrite (toggle_execute_drivers a s key Hsel).
    apply iter_set_mute_settings.
  - intros key. rewrite Hm, lookup_toggle_meshes.
    destruct (meshes s !! key) as [m|]; cbn; [|done]. by rewrite unmuted_mesh_iter.
  - intros key. rewrite Hm, lookup_toggle_meshes.
    destruct (meshes s !! key) as [m|]; cbn; [|done]. apply iter_toggle_same_keys.
Qed.

(** X3.  With no mesh with shape keys in the selection the operator reports
    an error, returns CANCELLED and changes nothing else. *)
Theorem toggle_no_eligible_cancelled a s :
  selection_ok s → filter (λ ob, eligible s ob) (selected s) = [] →
  SK_OT_toggle_shapekeys_drivers.execute a s =
    (Ok CANCELLED,
     add_report (ERROR, "No appropriate mesh selected. Please select at least 1 mesh with shape key that has driver on it") s).
Proof.
  intros Hsel Hnone. rewrite (toggle_execute_run a s Hsel). by rewrite decide_True.
Qed.

(** X4.  A successful run ends with one INFO report that names the action,
    the number of drivers visited and the number of visited objects that
    carry at least one driver; a container reached through several
    selected objects is counted once per object. *)
Theorem toggle_report_counts a s :
  selection_ok s → filter (λ ob, eligible s ob) (selected s) ≠ [] →
  ∃ s',
    SK_OT_toggle_shapekeys_drivers.execute a s = (Ok FINISHED, s') ∧
    reports s' = reports s ++
      [(INFO, SK_OT_toggle_shapekeys_drivers.action_word a +:+ " " +:+
              pretty (sum_list (map (λ key, length (key_drivers s key)) (selected_keys s)))
              +:+ " drivers for " +:+
              pretty (length (filter (λ key, 0 < length (key_drivers s key)) (selected_keys s)))
              +:+ " objects")].
Proof.
  intros Hsel Hsome. rewrite (toggle_execute_run a s Hsel). rewrite decide_False by done.
  eexists. split; [reflexivity|]. reflexivity.
Qed.

(** X5.  Action TOGGLE flips the mute flag of a driver once per selected
    object that reaches its container: the flags of a container reached
    an odd number of times are negated, those of a container reached an
    even number of times (a mesh shared by two selected objects) end as
    they were. *)
Theorem toggle_TOGGLE_flips_by_parity s key :
  selection_ok s →
  let s' := snd (SK_OT_toggle_shapekeys_drivers.execute TOGGLE s) in
  map drv_mute (key_drivers s' key) =
    if Nat.even (occurrences key (selected_keys s))
    then map drv_mute (key_drivers s key)
    else map negb (map drv_mute (key_drivers s key)).
Proof.
  intros Hsel s'. subst s'.
  rewrite (toggle_execute_drivers TOGGLE s key Hsel), iter_TOGGLE_flags.
  destruct (Nat.even (occurrences key (selected_keys s))) eqn:Hev.
  - rewrite <- (map_id (map drv_mute (key_drivers s key))) at 2.
    apply map_ext. intros b. by rewrite iter_negb_parity, Hev.
  - apply map_ext. intros b. by rewrite iter_negb_parity, Hev.
Qed.

Lemma selection_ok_shared_mesh_scene : selection_ok MoreExamples.shared_mesh_scene.
Proof.
  repeat constructor.
  - exists Examples.body_object. split; [reflexivity|]. intros _. by exists Examples.body_mesh.
  - exists (Examples.mesh_object "Body.001" 101 []). split; [reflexivity|].
    intros _. by exists Examples.body_mesh.
Defined.

Lemma selection_ok_rig_selected_scene : selection_ok Examples.rig_selected_scene.
Proof. repeat constructor. exists Examples.rig. split; [reflexivity|discriminate]. Defined.

Lemma toggle_sets_every_flag_witness :
  ∃ s',
    SK_OT_toggle_shapekeys_drivers.execute UNMUTE Examples.body_scene = (Ok FINISHED, s') ∧
    length (key_drivers s' 101) = 2 ∧
    Forall (λ d, drv_mute d = false) (key_drivers s' 101).
Proof.
  apply (toggle_sets_every_flag UNMUTE Examples.body_scene 1 Examples.body_object).
  - exact selection_ok_body_scene.
  - discriminate.
  - apply (bool_decide_unpack _). vm_compute. exact I.
  - reflexivity.
  - reflexivity.
Defined.

Lemma toggle_changes_only_mute_flags_witness :
  let s' := snd (SK_OT_toggle_shapekeys_drivers.execute TOGGLE Examples.body_scene) in
  objects s' = objects Examples.body_scene ∧ selected s' = selected Examples.body_scene ∧
  scene_objects s' = scene_objects Examples.body_scene ∧
  active s' = active Examples.body_scene ∧
  frame_current s' = frame_current Examples.body_scene ∧
  trace s' = trace Examples.body_scene ∧
  (∀ key, map (with_drv_mute false) (key_drivers s' key) =
          map (with_drv_mute false) (key_drivers Examples.body_scene key)) ∧
  (∀ key, unmuted_mesh <$> meshes s' !! key =
          unmuted_mesh <$> meshes Examples.body_scene !! key) ∧
  (∀ key, match meshes Examples.body_scene !! key, meshes s' !! key with
          | Some m, Some m' => same_keys m m'
          | None, None => True
          | _, _ => False
          end).
Proof.
  exact (toggle_changes_only_mute_flags TOGGLE Examples.body_scene selection_ok_body_scene).
Defined.

Lemma toggle_no_eligible_cancelled_witness :
  SK_OT_toggle_shapekeys_drivers.execute MUTE Examples.rig_selected_scene =
    (Ok CANCELLED,
     add_report (ERROR, "No appropriate mesh selected. Please select at least 1 mesh with shape key that has driver on it")
       Examples.rig_selected_scene).
Proof.
  apply (toggle_no_eligible_cancelled MUTE Examples.rig_selected_scene).
  - exact selection_ok_rig_selected_scene.
  - reflexivity.
Defined.

Lemma toggle_report_counts_witness :
  ∃ s',
    SK_OT_toggle_shapekeys_drivers.execute MUTE MoreExamples.shared_mesh_scene =
      (Ok FINISHED, s') ∧
    reports s' = [(INFO, "Muted 4 drivers for 2 objects")].
Proof.
  apply (toggle_report_counts MUTE MoreExamples.shared_mesh_scene).
  - exact selection_ok_shared_mesh_scene.
  - discriminate.
Defined.

Lemma toggle_TOGGLE_flips_by_parity_witness :
  map drv_mute
    (key_drivers (snd (SK_OT_toggle_shapekeys_drivers.execute TOGGLE Examples.body_scene)) 101)
    = [false; true] ∧
  map drv_mute
    (key_drivers
       (snd (SK_OT_toggle_shapekeys_drivers.execute TOGGLE MoreExamples.shared_mesh_scene)) 101)
    = [true; false].
Proof.
  split.
  - exact (toggle_TOGGLE_flips_by_parity Examples.body_scene 101 selection_ok_body_scene).
  - exact (toggle_TOGGLE_flips_by_parity MoreExamples.shared_mesh_scene 101
             selection_ok_shared_mesh_scene).
Defined.

(** ** [sk.bake_shapekey_animation] *)



(** X7.  The frame getters never return [None]: a bound that was never set is
    first set to 0 clamped into the scene's frame range, and that value
    is stored; a bound that is set is returned and the store is left as
    it is. *)
Theorem bake_frame_getters_initialise s :
  (∃ f, SK_OT_bake_shapekey_animation.get_start_frame s =
          (Ok (Some f),
           set_bake_globals (Some f) (BAKE_SHAPEKEY_ANIMATION_FRAME_END s)
             (BAKE_SHAPEKEY_ANIMATION_EXECUTE s) s) ∧
        f = default (Z.max (scene_frame_start s) (Z.min 0 (scene_frame_end s)))
              (BAKE_SHAPEKEY_ANIMATION_FRAME_START s)) ∧
  (∃ f, SK_OT_bake_shapekey_animation.get_end_frame s =
          (Ok (Some f),
           set_bake_globals (BAKE_SHAPEKEY_ANIMATION_FRAME_START s) (Some f)
             (BAKE_SHAPEKEY_ANIMATION_EXECUTE s) s) ∧
        f = default (Z.max (scene_frame_start s) (Z.min 0 (scene_frame_end s)))
              (BAKE_SHAPEKEY_ANIMATION_FRAME_END s)).
Proof.
  destruct s; cbn. split.
  - match goal with |- context [default _ ?x] => destruct x end;
      eexists; split; reflexivity.
  - match goal with |- context [default _ ?x] => destruct x end;
      eexists; split; reflexivity.
Qed.

Lemma with_shape_keys_id m k : shape_keys m = Some k → with_shape_keys (Some k) m = m.
Proof. destruct m. cbn. by intros ->. Qed.

Lemma anim_mesh_id m k a :
  shape_keys m = Some k → animation_data k = Some a → anim_mesh m k a = m.
Proof. destruct m, k. cbn. by intros -> ->. Qed.

Lemma insert_keyframes_cons kf kfs a :
  insert_keyframes kfs (insert_keyframes [kf] a) = insert_keyframes (kf :: kfs) a.
Proof.
  destruct kfs as [|kf' kfs]; [done|].
  unfold insert_keyframes, anim_keyframes, with_action. reflexivity.
Qed.

Lemma keyframe_insert_run key m k a path frame s :
  meshes s !! key = Some (anim_mesh m k a) →
  keyframe_insert key path frame s =
    (Ok tt, upd_mesh key (anim_mesh m k (insert_keyframes [(path, frame)] a)) s).
Proof.
  intros Hm. unfold keyframe_insert, animation_data_create.
  rewrite run_bind, (update_key_run key _ _ _ s Hm eq_refl). cbn [animation_data with_animation_data].
  erewrite update_animation_data_run; [|apply lookup_insert_eq|reflexivity|reflexivity].
  rewrite upd_mesh_twice. do 2 f_equal.
  unfold anim_mesh, insert_keyframes, anim_keyframes, with_shape_keys, with_animation_data,
    with_action. cbn. by destruct (action a).
Qed.

Lemma keyframes_loop key m k frame ds : ∀ a s,
  meshes s !! key = Some (anim_mesh m k a) →
  for_each ds (λ fcurve, keyframe_insert key (drv_data_path fcurve) frame) s =
    (Ok tt,
     upd_mesh key
       (anim_mesh m k (insert_keyframes (map (λ d, (drv_data_path d, frame)) ds) a)) s).
Proof.
  induction ds as [|d ds IH]; intros a s Hm.
  - cbn. by rewrite upd_mesh_id.
  - cbn [for_each map]. rewrite run_bind, (keyframe_insert_run key m k a _ _ s Hm).
    rewrite (IH (insert_keyframes [(drv_data_path d, frame)] a)) by apply lookup_insert_eq.
    by rewrite upd_mesh_twice, insert_keyframes_cons.
Qed.

Lemma bake_body_run frame ob o m k a s :
  objects s !! ob = Some o → meshes s !! data o = Some m →
  shape_keys m = Some k → animation_data k = Some a →
  bake_body frame ob s = (Ok tt, upd_mesh (data o) (bake_mesh frame m) s).
Proof.
  intros Ho Hm Hk Ha. unfold bake_body.
  rewrite (bind_ok _ _ _ _ _ (object_mesh_run _ _ _ _ Ho Hm)), Hk, Ha.
  rewrite (keyframes_loop (data o) m k frame (drivers a) a s)
    by (by rewrite anim_mesh_id).
  unfold bake_mesh. by rewrite Hk, Ha.
Qed.

Lemma bake_body_no_animation frame ob o m k s :
  objects s !! ob = Some o → meshes s !! data o = Some m →
  shape_keys m = Some k → animation_data k = None →
  bake_body frame ob s = (Raise AttributeError, s).
Proof.
  intros Ho Hm Hk Ha. unfold bake_body.
  by rewrite (bind_ok _ _ _ _ _ (object_mesh_run _ _ _ _ Ho Hm)), Hk, Ha.
Qed.

Lemma bake_mesh_has_anim frame m k a :
  shape_keys m = Some k → animation_data k = Some a →
  ∃ k' a', shape_keys (bake_mesh frame m) = Some k' ∧ animation_data k' = Some a'.
Proof. intros Hk Ha. unfold bake_mesh. rewrite Hk, Ha. by eexists _, _. Qed.

Lemma has_anim_bake frame key m s ob :
  meshes s !! key = Some m → has_anim s ob →
  has_anim (upd_mesh key (bake_mesh frame m) s) ob.
Proof.
  intros Hm (o & m' & k & a & Ho & Hm' & Hk & Ha). unfold has_anim, upd_mesh. cbn.
  destruct (decide (key = data o)) as [->|Hne].
  - assert (m' = m) as -> by congruence.
    destruct (bake_mesh_has_anim frame m k a Hk Ha) as (k' & a' & Hk' & Ha').
    exists o, (bake_mesh frame m), k', a'. by rewrite lookup_insert_eq.
  - exists o, m', k, a. by rewrite lookup_insert_ne.
Qed.

Lemma insert_alter {A} (f : A → A) key m (ms : gmap nat A) :
  ms !! key = Some m → <[key := f m]> ms = alter f key ms.
Proof.
  intros Hm. apply map_eq. intros i. rewrite lookup_insert, lookup_alter.
  repeat case_decide; subst; try done. by rewrite Hm.
Qed.

Lemma bake_objects_run frame obs : ∀ s,
  Forall (has_anim s) obs →
  for_each obs (bake_body frame) s =
    (Ok tt, set_meshes (visit (bake_mesh frame) (mesh_ids s obs)) s).
Proof.
  induction obs as [|ob obs IH]; intros s Hall.
  - cbn. by destruct s.
  - apply Forall_cons in Hall as [(o & m & k & a & Ho & Hm & Hk & Ha) Hall].
    cbn [for_each]. rewrite run_bind, (bake_body_run frame ob o m k a s Ho Hm Hk Ha).
    rewrite IH; cycle 1.
    { eapply Forall_impl; [exact Hall|]. intros ob'. by apply has_anim_bake. }
    change (mesh_ids (upd_mesh (data o) (bake_mesh frame m) s) obs) with (mesh_ids s obs).
    rewrite (mesh_ids_cons _ _ _ _ Ho). f_equal.
    apply set_meshes_upd_mesh. cbn [visit foldl]. unfold visit.
    by rewrite (insert_alter _ _ _ _ Hm).
Qed.

Lemma lookup_visit {A} (f : A → A) keys : ∀ (ms : gmap nat A) key,
  visit f keys ms !! key = Nat.iter (occurrences key keys) f <$> ms !! key.
Proof.
  induction keys as [|k keys IH]; intros ms key.
  - cbn. by destruct (ms !! key).
  - cbn [visit foldl]. fold (visit f keys (alter f k ms)).
    rewrite IH, lookup_alter. unfold occurrences. rewrite filter_cons.
    repeat case_decide; subst; try done.
    cbn [length]. destruct (ms !! key); cbn; [|done].
    by rewrite Nat.iter_swap.
Qed.

Lemma has_anim_visit frame keys s ob :
  has_anim s ob → has_anim (set_meshes (visit (bake_mesh frame) keys) s) ob.
Proof.
  intros (o & m & k & a & Ho & Hm & Hk & Ha). unfold has_anim. cbn.
  assert (Hn : ∀ n, ∃ k' a', shape_keys (Nat.iter n (bake_mesh frame) m) = Some k' ∧
                             animation_data k' = Some a').
  { induction n as [|n (k' & a' & Hk' & Ha')]; [by exists k, a|].
    rewrite Nat.iter_succ. by eapply bake_mesh_has_anim. }
  destruct (Hn (occurrences (data o) keys)) as (k' & a' & Hk' & Ha').
  exists o, (Nat.iter (occurrences (data o) keys) (bake_mesh frame) m), k', a'.
  split_and!; [done| |done|done]. by rewrite lookup_visit, Hm.
Qed.

Lemma last_cons_default {A} (x d : A) l : default d (last (x :: l)) = default x (last l).
Proof.
  revert x d. induction l as [|y l IH]; intros x d; [done|].
  change (last (x :: y :: l)) with (last (y :: l)). by rewrite !(IH y).
Qed.

Lemma bake_frames_run obs frames : ∀ s,
  Forall (has_anim s) obs →
  for_each frames (λ frame, frame_set frame ;; for_each obs (bake_body frame)) s =
    (Ok tt,
     set_frame_current (default (frame_current s) (last frames))
       (set_meshes (bake_frames frames (mesh_ids s obs)) s)).
Proof.
  induction frames as [|frame frames IH]; intros s Hall.
  - cbn. by destruct s.
  - cbn [for_each]. rewrite run_bind. unfold frame_set at 1. rewrite run_bind.
    cbn [modify]. rewrite bake_objects_run by done.
    rewrite IH; cycle 1.
    { eapply Forall_impl; [exact Hall|]. intros ob Hob.
      by apply (has_anim_visit frame _ (set_frame_current frame s)). }
    f_equal. apply Bpy_eq; try reflexivity.
    st_simpl. by rewrite last_cons_default.
Qed.

Lemma bake_execute_run s :
  selection_ok s → BAKE_SHAPEKEY_ANIMATION_EXECUTE s = true →
  let s1 := add_report (INFO, "Baked keyframes") s in
  let obs := filter (λ ob, eligible s ob) (selected s) in
  SK_OT_bake_shapekey_animation.execute s =
    if decide (obs = []) then
      (Ok CANCELLED,
       add_report (ERROR, "No appropriate mesh selected. Please select at least 1 mesh with shape keys") s1)
    else
      match BAKE_SHAPEKEY_ANIMATION_FRAME_START s, BAKE_SHAPEKEY_ANIMATION_FRAME_END s with
      | Some fs, Some fe =>
          match for_each (SK_OT_bake_shapekey_animation.range fs (fe + 1))
                  (λ frame, frame_set frame ;; for_each obs (bake_body frame)) s1 with
          | (Ok _, s2) =>
              (Ok FINISHED,
               set_bake_globals (BAKE_SHAPEKEY_ANIMATION_FRAME_START s2)
                 (BAKE_SHAPEKEY_ANIMATION_FRAME_END s2) false s2)
          | (Raise e, s2) => (Raise e, s2)
          end
      | _, _ => (Raise TypeError, s1)
      end.
Proof.
  intros Hsel Hex s1 obs. unfold SK_OT_bake_shapekey_animation.execute.
  rewrite run_bind. unfold SK_OT_bake_shapekey_animation.get_execute at 1.
  rewrite run_bind. cbn [get_state mret Py_ret]. rewrite Hex. cbn [negb].
  rewrite run_bind. cbn [report modify]. fold s1.
  rewrite run_bind. cbn [get_state].
  rewrite (bind_ok _ _ _ _ _ (eligible_comprehension (selected s1) s1 Hsel)).
  change (filter (λ ob, eligible s1 ob) (selected s1)) with obs.
  unfold SK_OT_bake_shapekey_animation.validate_input. rewrite run_bind.
  destruct obs as [|ob obs'] eqn:Hobs; [reflexivity|].
  rewrite decide_False by done. cbn [mret Py_ret negb].
  rewrite decide_False by done. rewrite run_bind. cbn [get_state].
  change (BAKE_SHAPEKEY_ANIMATION_FRAME_START s1) with (BAKE_SHAPEKEY_ANIMATION_FRAME_START s).
  change (BAKE_SHAPEKEY_ANIMATION_FRAME_END s1) with (BAKE_SHAPEKEY_ANIMATION_FRAME_END s).
  destruct (BAKE_SHAPEKEY_ANIMATION_FRAME_START s) as [fs|]; [|reflexivity].
  destruct (BAKE_SHAPEKEY_ANIMATION_FRAME_END s) as [fe|]; [|reflexivity].
  rewrite run_bind.
  change (for_each (SK_OT_bake_shapekey_animation.range fs (fe + 1)) _ s1)
    with (for_each (SK_OT_bake_shapekey_animation.range fs (fe + 1))
            (λ frame, frame_set frame ;; for_each (ob :: obs') (bake_body frame)) s1).
  destruct (for_each _ _ s1) as [[[]|e] s2]; reflexivity.
Qed.

(** X8.  When the trigger is set but no selected object is a mesh with shape
    keys, the operator has already reported "Baked keyframes" when it
    reports the error and returns CANCELLED; the trigger stays set and no
    frame or key frame is touched. *)
Theorem bake_no_eligible_cancelled s :
  selection_ok s → BAKE_SHAPEKEY_ANIMATION_EXECUTE s = true →
  filter (λ ob, eligible s ob) (selected s) = [] →
  ∃ s',
    SK_OT_bake_shapekey_animation.execute s = (Ok CANCELLED, s') ∧
    reports s' = reports s ++
      [(INFO, "Baked keyframes");
       (ERROR, "No appropriate mesh selected. Please select at least 1 mesh with shape keys")] ∧
    BAKE_SHAPEKEY_ANIMATION_EXECUTE s' = true ∧
    meshes s' = meshes s ∧ frame_current s' = frame_current s.
Proof.
  intros Hsel Hex Hnone. rewrite (bake_execute_run s Hsel Hex). cbv zeta.
  rewrite decide_True by done. eexists. split; [reflexivity|].
  cbn. by rewrite <- app_assoc.
Qed.

(** X9.  The operator reads the two frame globals directly, not through their
    getters: when the trigger is set and a mesh with shape keys is
    selected while a bound was never set, building the frame range raises
    TypeError, after the "Baked keyframes" report; the trigger stays
    set. *)
Theorem bake_unset_frame_raises s :
  selection_ok s → BAKE_SHAPEKEY_ANIMATION_EXECUTE s = true →
  filter (λ ob, eligible s ob) (selected s) ≠ [] →
  BAKE_SHAPEKEY_ANIMATION_FRAME_START s = None ∨ BAKE_SHAPEKEY_ANIMATION_FRAME_END s = None →
  SK_OT_bake_shapekey_animation.execute s =
    (Raise TypeError, add_report (INFO, "Baked keyframes") s).
Proof.
  intros Hsel Hex Hsome Hunset. rewrite (bake_execute_run s Hsel Hex). cbv zeta.
  rewrite decide_False by done.
  destruct Hunset as [-> | ->]; [done|].
  by destruct (BAKE_SHAPEKEY_ANIMATION_FRAME_START s).
Qed.

(** X10.  A mesh with shape keys whose container never got animation data
    makes the bake raise AttributeError at its first visit: with the
    trigger set, both bounds set to a non-empty range and such an object
    first among the eligible ones, the operator raises after moving to
    the first frame, and the trigger stays set. *)
Theorem bake_missing_animation_data_raises s fs fe ob obs o m k :
  selection_ok s → BAKE_SHAPEKEY_ANIMATION_EXECUTE s = true →
  BAKE_SHAPEKEY_ANIMATION_FRAME_START s = Some fs →
  BAKE_SHAPEKEY_ANIMATION_FRAME_END s = Some fe → (fs ≤ fe)%Z →
  filter (λ ob, eligible s ob) (selected s) = ob :: obs →
  objects s !! ob = Some o → meshes s !! data o = Some m →
  shape_keys m = Some k → animation_data k = None →
  SK_OT_bake_shapekey_animation.execute s =
    (Raise AttributeError,
     set_frame_current fs (add_report (INFO, "Baked keyframes") s)).
Proof.
  intros Hsel Hex Hfs Hfe Hle Hobs Ho Hm Hk Ha.
  rewrite (bake_execute_run s Hsel Hex). cbv zeta.
  rewrite Hobs, decide_False, Hfs, Hfe by done.
  unfold SK_OT_bake_shapekey_animation.range.
  destruct (Z.to_nat (fe + 1 - fs)) as [|n] eqn:Hn; [lia|].
  cbn [seq map for_each]. rewrite !run_bind. cbn [frame_set modify].
  rewrite Z.add_0_r, run_bind.
  by rewrite (bake_body_no_animation fs ob o m k
               (set_frame_current fs (add_report (INFO, "Baked keyframes") s)) Ho Hm Hk Ha).
Qed.

Lemma insert_keyframes_drivers kfs a : drivers (insert_keyframes kfs a) = drivers a.
Proof. by destruct kfs. Qed.

Lemma insert_keyframes_nla_tracks kfs a : nla_tracks (insert_keyframes kfs a) = nla_tracks a.
Proof. by destruct kfs. Qed.

Lemma insert_keyframes_keyframes kfs a :
  anim_keyframes (insert_keyframes kfs a) = keyed_all kfs (anim_keyframes a).
Proof. by destruct kfs. Qed.

Lemma keyed_all_app kfs1 kfs2 kfs0 :
  keyed_all (kfs1 ++ kfs2) kfs0 = keyed_all kfs2 (keyed_all kfs1 kfs0).
Proof. apply foldl_app. Qed.

Lemma elem_of_keyed_at kf path frame kfs :
  kf ∈ keyed_at path frame kfs ↔ kf ∈ kfs ∨ kf = (path, frame).
Proof.
  unfold keyed_at. case_decide as Hin.
  - split; [by left|]. by intros [?| ->].
  - rewrite elem_of_app, list_elem_of_singleton. done.
Qed.

Lemma elem_of_keyed_all kf kfs : ∀ kfs0,
  kf ∈ keyed_all kfs kfs0 ↔ kf ∈ kfs0 ∨ kf ∈ kfs.
Proof.
  induction kfs as [|[path frame] kfs IH]; intros kfs0.
  - cbn. rewrite elem_of_nil. tauto.
  - unfold keyed_all in *. cbn [foldl fst snd].
    rewrite IH, elem_of_keyed_at, elem_of_cons. tauto.
Qed.

Lemma keyed_all_NoDup kfs : ∀ kfs0, NoDup kfs0 → NoDup (keyed_all kfs kfs0).
Proof.
  induction kfs as [|[path frame] kfs IH]; intros kfs0 Hnd; [done|].
  unfold keyed_all in *. cbn [foldl fst snd]. apply IH. unfold keyed_at.
  case_decide as Hin; [done|].
  apply NoDup_app. split_and!; [done| |apply NoDup_singleton].
  intros x Hx ->%list_elem_of_singleton. done.
Qed.

Lemma keyed_all_prefix kfs : ∀ kfs0, kfs0 `prefix_of` keyed_all kfs kfs0.
Proof.
  induction kfs as [|[path frame] kfs IH]; intros kfs0; [done|].
  unfold keyed_all in *. cbn [foldl fst snd]. etrans; [|apply IH]. unfold keyed_at.
  case_decide; [done|]. by apply prefix_app_r.
Qed.

Lemma bake_anim_spec frames : ∀ a,
  drivers (bake_anim frames a) = drivers a ∧
  nla_tracks (bake_anim frames a) = nla_tracks a ∧
  anim_keyframes (bake_anim frames a) =
    keyed_all (flat_map (frame_keyframes a) frames) (anim_keyframes a).
Proof.
  induction frames as [|frame frames IH]; intros a.
  - done.
  - cbn [bake_anim foldl flat_map].
    fold (bake_anim frames (insert_keyframes (frame_keyframes a frame) a)).
    destruct (IH (insert_keyframes (frame_keyframes a frame) a)) as (Hd & Hn & Hk).
    rewrite Hd, Hn, Hk, insert_keyframes_drivers, insert_keyframes_nla_tracks,
      insert_keyframes_keyframes, keyed_all_app.
    split_and!; [done|done|]. f_equal. apply flat_map_ext. intros f.
    unfold frame_keyframes. by rewrite insert_keyframes_drivers.
Qed.

Lemma foldl_bake_mesh m k frames : ∀ a,
  foldl (λ m frame, bake_mesh frame m) (anim_mesh m k a) frames =
  anim_mesh m k (bake_anim frames a).
Proof.
  induction frames as [|frame frames IH]; intros a; [done|].
  cbn [foldl].
  change (bake_mesh frame (anim_mesh m k a))
    with (anim_mesh m k (insert_keyframes (frame_keyframes a frame) a)).
  by rewrite IH.
Qed.

Lemma occurrences_NoDup key (keys : list nat) :
  NoDup keys → key ∈ keys → occurrences key keys = 1.
Proof.
  unfold occurrences. induction 1 as [|x keys Hx Hnd IH]; intros Hin.
  - by apply not_elem_of_nil in Hin.
  - rewrite filter_cons. apply elem_of_cons in Hin as [<-|Hin].
    + rewrite decide_True by done. cbn. f_equal.
      destruct (filter (λ k, k = key) keys) as [|y l] eqn:Hf; [done|].
      assert (Hy : y ∈ filter (λ k, k = key) keys) by (rewrite Hf; left).
      apply list_elem_of_filter in Hy as [-> Hy]. done.
    + rewrite decide_False by (intros ->; done). by apply IH.
Qed.

Lemma lookup_bake_frames frames keys key : ∀ (ms : gmap nat Mesh),
  occurrences key keys = 1 →
  bake_frames frames keys ms !! key =
    (λ m, foldl (λ m frame, bake_mesh frame m) m frames) <$> ms !! key.
Proof.
  induction frames as [|frame frames IH]; intros ms Hocc.
  - cbn. by destruct (ms !! key).
  - cbn [bake_frames foldl].
    fold (bake_frames frames keys (visit (bake_mesh frame) keys ms)).
    rewrite IH, lookup_visit, Hocc by done. by destruct (ms !! key).
Qed.

Lemma elem_of_range fs fe frame :
  In frame (SK_OT_bake_shapekey_animation.range fs (fe + 1)) ↔ (fs ≤ frame ≤ fe)%Z.
Proof.
  unfold SK_OT_bake_shapekey_animation.range. rewrite in_map_iff. split.
  - intros (i & <- & Hi%in_seq). lia.
  - intros Hfr. exists (Z.to_nat (frame - fs)). split; [lia|]. apply in_seq. lia.
Qed.

Lemma last_range fs fe :
  last (SK_OT_bake_shapekey_animation.range fs (fe + 1)) =
    if decide (fs ≤ fe)%Z then Some fe else None.
Proof.
  unfold SK_OT_bake_shapekey_animation.range. case_decide as Hle.
  - destruct (Z.to_nat (fe + 1 - fs)) as [|n] eqn:Hn; [lia|].
    rewrite seq_S, map_app. cbn [map]. rewrite last_snoc. f_equal. lia.
  - by replace (Z.to_nat (fe + 1 - fs)) with 0%nat by lia.
Qed.

(** X11.  A triggered bake over the stored frame range: for every frame of
    [range(START, END + 1)] in order, and for every driver of the
    object's shape-key container in order, the property at the driver's
    data path is keyed at the frame in the container's action.  A key
    frame that already sits at that path and frame is replaced, not
    doubled: afterwards a pair is a key frame of the action exactly when
    it was one before or is a driver's data path with a frame of the
    range; the key frames there were come first, in their order, and
    none is listed twice if none was.  Drivers and NLA tracks stay as
    they are, the scene ends on the last frame of the range, and the
    trigger is cleared.  Stated for a selection in which no two eligible
    objects share a mesh and every eligible object's container has
    animation data. *)
Theorem bake_inserts_keyframes s fs fe ob o m k a :
  selection_ok s → BAKE_SHAPEKEY_ANIMATION_EXECUTE s = true →
  BAKE_SHAPEKEY_ANIMATION_FRAME_START s = Some fs →
  BAKE_SHAPEKEY_ANIMATION_FRAME_END s = Some fe →
  Forall (has_anim s) (filter (λ ob, eligible s ob) (selected s)) →
  NoDup (selected_keys s) →
  ob ∈ selected s → eligible s ob = true →
  objects s !! ob = Some o → meshes s !! data o = Some m →
  shape_keys m = Some k → animation_data k = Some a →
  ∃ s' a',
    SK_OT_bake_shapekey_animation.execute s = (Ok FINISHED, s') ∧
    BAKE_SHAPEKEY_ANIMATION_EXECUTE s' = false ∧
    reports s' = reports s ++ [(INFO, "Baked keyframes")] ∧
    frame_current s' = (if decide (fs ≤ fe)%Z then fe else frame_current s) ∧
    objects s' = objects s ∧
    meshes s' !! data o = Some (anim_mesh m k a') ∧
    drivers a' = drivers a ∧ nla_tracks a' = nla_tracks a ∧
    anim_keyframes a' =
      keyed_all
        (flat_map (λ frame, map (λ d, (drv_data_path d, frame)) (drivers a))
                  (SK_OT_bake_shapekey_animation.range fs (fe + 1)))
        (anim_keyframes a) ∧
    (∀ path frame,
       (path, frame) ∈ anim_keyframes a' ↔
       (path, frame) ∈ anim_keyframes a ∨
       ((∃ d, d ∈ drivers a ∧ drv_data_path d = path) ∧ (fs ≤ frame ≤ fe)%Z)) ∧
    anim_keyframes a `prefix_of` anim_keyframes a' ∧
    (NoDup (anim_keyframes a) → NoDup (anim_keyframes a')).
Proof.
  intros Hsel Hex Hfs Hfe Hanim Hnd Hin Hel Ho Hm Hk Ha.
  pose proof (eligible_selected_key s ob o Hin Hel Ho) as Hkey.
  rewrite (bake_execute_run s Hsel Hex). cbv zeta.
  rewrite decide_False, Hfs, Hfe; cycle 1.
  { intros E. assert (Hob : ob ∈ filter (λ ob, eligible s ob) (selected s))
      by (apply list_elem_of_filter; split; [by rewrite Hel|done]).
    rewrite E in Hob. by apply not_elem_of_nil in Hob. }
  rewrite (bake_frames_run _ _ (add_report (INFO, "Baked keyframes") s)) by done.
  destruct (bake_anim_spec (SK_OT_bake_shapekey_animation.range fs (fe + 1)) a)
    as (Hd & Hn & Hkf).
  eexists _, (bake_anim (SK_OT_bake_shapekey_animation.range fs (fe + 1)) a).
  split; [reflexivity|]. split_and!; [done|done| |done| |done|done|done| | |].
  - st_simpl. rewrite last_range. by case_decide.
  - st_simpl.
    change (mesh_ids (add_report (INFO, "Baked keyframes") s)
              (filter (λ ob, eligible s ob) (selected s))) with (selected_keys s).
    rewrite lookup_bake_frames by (by apply occurrences_NoDup).
    rewrite Hm. cbn. rewrite <- (anim_mesh_id m k a Hk Ha) at 1.
    by rewrite foldl_bake_mesh.
  - intros path frame. rewrite Hkf, elem_of_keyed_all. apply or_iff_compat_l.
    rewrite list_elem_of_In, in_flat_map. split.
    + intros (f & Hf%elem_of_range & Hpair%list_elem_of_In).
      apply list_elem_of_fmap in Hpair as (d & [= -> ->] & Hdrv).
      split; [by exists d|lia].
    + intros ((d & Hdrv & <-) & Hfr). exists frame. split; [by apply elem_of_range|].
      apply list_elem_of_In, list_elem_of_fmap. by exists d.
  - rewrite Hkf. apply keyed_all_prefix.
  - intros Hnd0. rewrite Hkf. by apply keyed_all_NoDup.
Qed.

Lemma bake_no_eligible_cancelled_witness :
  ∃ s',
    SK_OT_bake_shapekey_animation.execute
      (MoreExamples.armed None None Examples.rig_selected_scene) = (Ok CANCELLED, s') ∧
    reports s' =
      [(INFO, "Baked keyframes");
       (ERROR, "No appropriate mesh selected. Please select at least 1 mesh with shape keys")] ∧
    BAKE_SHAPEKEY_ANIMATION_EXECUTE s' = true ∧
    meshes s' = meshes Examples.rig_selected_scene ∧ frame_current s' = 1%Z.
Proof.
  apply (bake_no_eligible_cancelled (MoreExamples.armed None None Examples.rig_selected_scene)).
  - exact selection_ok_rig_selected_scene.
  - reflexivity.
  - reflexivity.
Defined.

Lemma bake_unset_frame_raises_witness :
  SK_OT_bake_shapekey_animation.execute
    (MoreExamples.armed (Some 1%Z) None Examples.body_scene) =
    (Raise TypeError,
     add_report (INFO, "Baked keyframes")
       (MoreExamples.armed (Some 1%Z) None Examples.body_scene)).
Proof.
  apply (bake_unset_frame_raises (MoreExamples.armed (Some 1%Z) None Examples.body_scene)).
  - exact selection_ok_body_scene.
  - reflexivity.
  - discriminate.
  - by right.
Defined.

Lemma bake_missing_animation_data_raises_witness :
  SK_OT_bake_shapekey_animation.execute
    (MoreExamples.armed (Some 3%Z) (Some 5%Z) Examples.undriven_scene) =
    (Raise AttributeError,
     set_frame_current 3
       (add_report (INFO, "Baked keyframes")
          (MoreExamples.armed (Some 3%Z) (Some 5%Z) Examples.undriven_scene))).
Proof.
  apply (bake_missing_animation_data_raises
           (MoreExamples.armed (Some 3%Z) (Some 5%Z) Examples.undriven_scene)
           3 5 1 [] (Examples.mesh_object "Body" 101 []) Examples.undriven_mesh
           Examples.undriven_key).
  - repeat constructor. eexists. split; [reflexivity|]. intros _. by eexists.
  - reflexivity.
  - reflexivity.
  - reflexivity.
  - lia.
  - reflexivity.
  - reflexivity.
  - reflexivity.
  - reflexivity.
  - reflexivity.
Defined.

Lemma bake_inserts_keyframes_witness :
  ∃ s' a',
    SK_OT_bake_shapekey_animation.execute
      (MoreExamples.armed (Some 3%Z) (Some 4%Z) Examples.body_scene) = (Ok FINISHED, s') ∧
    BAKE_SHAPEKEY_ANIMATION_EXECUTE s' = false ∧
    frame_current s' = 4%Z ∧
    meshes s' !! 101 = Some (anim_mesh Examples.body_mesh Examples.body_key a') ∧
    length (drivers a') = 2 ∧
    anim_keyframes a' =
      [("key_blocks[Smile].value", 3%Z); ("key_blocks[Frown].value", 3%Z);
       ("key_blocks[Smile].value", 4%Z); ("key_blocks[Frown].value", 4%Z)].
Proof.
  destruct (bake_inserts_keyframes
              (MoreExamples.armed (Some 3%Z) (Some 4%Z) Examples.body_scene)
              3 4 1 Examples.body_object Examples.body_mesh Examples.body_key
              {| action := None;
                 drivers := [Examples.driver "key_blocks[Smile].value" true;
                             Examples.driver "key_blocks[Frown].value" false];
                 nla_tracks := [] |})
    as (s' & a' & Hrun & Hex & _ & Hfr & _ & Hm & Hd & _ & Hkf & _).
  - exact selection_ok_body_scene.
  - reflexivity.
  - reflexivity.
  - reflexivity.
  - repeat constructor. by eexists _, _, _, _.
  - apply (bool_decide_unpack _). vm_compute. exact I.
  - apply (bool_decide_unpack _). vm_compute. exact I.
  - reflexivity.
  - reflexivity.
  - reflexivity.
  - reflexivity.
  - reflexivity.
  - exists s', a'. split_and!.
    + exact Hrun.
    + exact Hex.
    + exact Hfr.
    + exact Hm.
    + by rewrite Hd.
    + exact Hkf.
Defined.

(** ** Pose reset *)

Lemma reset_bone_is_reset b : bone_is_reset (reset_bone b).
Proof. by split_and!. Qed.

Lemma reset_object_idem o : reset_object (reset_object o) = reset_object o.
Proof.
  unfold reset_object. destruct o as [? ? ? ? ? [bones|]]; cbn; [|done].
  unfold with_pose. cbn. do 2 f_equal. rewrite map_map. by apply map_ext.
Qed.

Lemma reset_pose_run t rig bones s :
  objects s !! t = Some rig → pose rig = Some bones →
  reset_pose t s = (Ok tt, reset_step t s).
Proof.
  intros Ht Hp. unfold reset_pose. rewrite run_bind. cbn [modify].
  rewrite (bind_ok _ _ _ rig (add_event (EvResetPose t) s)) by (by apply get_object_run).
  rewrite Hp. unfold put_object, modify, reset_step. f_equal.
  apply Bpy_eq; try reflexivity. st_simpl.
  rewrite <- (insert_alter reset_object t rig) by done.
  unfold reset_object. by rewrite Hp.
Qed.

(** X12.  [reset_pose] on an object with a pose: every bone ends with location
    (0, 0, 0), quaternion (1, 0, 0, 0) and Euler rotation (1, 1, 1) (the
    value of the second assignment to [rotation_euler], not zero); the
    number of bones, the rest of the object, every other object and all
    meshes are as they were. *)
Theorem reset_pose_sets_bones ob o bones s :
  objects s !! ob = Some o → pose o = Some bones →
  ∃ s' o' bones',
    reset_pose ob s = (Ok tt, s') ∧
    objects s' !! ob = Some o' ∧ pose o' = Some bones' ∧
    length bones' = length bones ∧
    Forall (λ b, bone_location b = (0, 0, 0)%Q ∧
                 bone_rotation_quaternion b = (1, 0, 0, 0)%Q ∧
                 bone_rotation_euler b = (1, 1, 1)%Q) bones' ∧
    obj_name o' = obj_name o ∧ obj_type o' = obj_type o ∧ data o' = data o ∧
    modifiers o' = modifiers o ∧ location_x o' = location_x o ∧
    (∀ x, x ≠ ob → objects s' !! x = objects s !! x) ∧
    meshes s' = meshes s ∧ selected s' = selected s ∧ active s' = active s.
Proof.
  intros Ho Hp. rewrite (reset_pose_run ob o bones s Ho Hp).
  exists (reset_step ob s), (reset_object o), (map reset_bone bones).
  split; [done|]. unfold reset_step. st_simpl. split_and!; try done.
  - by rewrite lookup_alter_eq, Ho.
  - unfold reset_object. by rewrite Hp.
  - by rewrite length_map.
  - apply Forall_forall. intros b (b0 & -> & _)%list_elem_of_fmap. apply reset_bone_is_reset.
  - intros x Hx. by rewrite lookup_alter_ne.
Qed.

Lemma first_target_reset_object o : first_target (reset_object o) = first_target o.
Proof. reflexivity. Qed.

Lemma lookup_reset_step t s x :
  objects (reset_step t s) !! x =
    if decide (t = x) then reset_object <$> objects s !! x else objects s !! x.
Proof. unfold reset_step. st_simpl. rewrite lookup_alter. by case_decide; subst. Qed.

Lemma reset_step_first_target t s x :
  objects (reset_step t s) !! x ≫= first_target = objects s !! x ≫= first_target.
Proof. rewrite lookup_reset_step. case_decide; [|done]. by destruct (objects s !! x). Qed.

Lemma first_targets_reset_step t s objs :
  first_targets (reset_step t s) objs = first_targets s objs.
Proof.
  unfold first_targets. apply list_omap_ext, Forall_Forall2_diag, Forall_forall.
  intros x _. apply reset_step_first_target.
Qed.

Lemma armature_ready_reset_step t s ob :
  armature_ready s ob → armature_ready (reset_step t s) ob.
Proof.
  intros (o & Ho & Hrig). unfold armature_ready. setoid_rewrite lookup_reset_step.
  exists (if decide (t = ob) then reset_object o else o). split.
  - rewrite Ho. by case_decide.
  - intros t' Ht'. assert (Ht0 : first_target o = Some t') by (by case_decide).
    destruct (Hrig t' Ht0) as (rig & Hr & Hp). clear Ht'.
    exists (if decide (t = t') then reset_object rig else rig). split.
    + rewrite Hr. by case_decide.
    + case_decide; [|done]. unfold reset_object. cbn. destruct Hp as [bones ->]. by eexists.
Qed.

Lemma first_targets_cons s ob o objs :
  objects s !! ob = Some o →
  first_targets s (ob :: objs) = option_list (first_target o) ++ first_targets s objs.
Proof. intros Ho. unfold first_targets. cbn. rewrite Ho. cbn. by destruct (first_target o). Qed.

Lemma reset_armature_loop objs : ∀ s processed,
  Forall (armature_ready s) objs →
  Forall (λ r, ∃ owner i, r = RefModifier owner i) processed →
  ∃ processed',
    for_fold objs processed reset_armature_body s =
      (Ok processed', foldl (λ s t, reset_step t s) s (first_targets s objs)).
Proof.
  induction objs as [|ob objs IH]; intros s processed Hready Hrefs.
  - by exists processed.
  - apply Forall_cons in Hready as [(o & Ho & Hrig) Hready].
    rewrite (first_targets_cons s ob o objs Ho).
    cbn [for_fold]. rewrite run_bind. unfold reset_armature_body at 1.
    rewrite (bind_ok _ _ _ _ _ (get_object_run _ _ _ Ho)).
    unfold first_target in *.
    destruct (first_armature_modifier (modifiers o)) as [[i armature]|]; cbn in *.
    + destruct (mod_object armature) as [t|]; cbn.
      * destruct (Hrig t eq_refl) as (rig & Hr & [bones Hp]).
        rewrite decide_True by (by apply object_not_among_modifiers).
        rewrite run_bind, (reset_pose_run t rig bones s Hr Hp). cbn [mret Py_ret].
        destruct (IH (reset_step t s) (processed ++ [RefModifier ob i])) as [p' Hp'].
        { eapply Forall_impl; [exact Hready|]. intros x. apply armature_ready_reset_step. }
        { apply Forall_app. split; [done|]. repeat constructor. by eexists _, _. }
        exists p'. by rewrite Hp', first_targets_reset_step.
      * by apply IH.
    + by apply IH.
Qed.

Lemma reset_armature_pose_run objs s :
  Forall (armature_ready s) objs →
  reset_armature_pose objs s =
    (Ok tt, foldl (λ s t, reset_step t s) s (first_targets s objs)).
Proof.
  intros Hready. unfold reset_armature_pose.
  destruct (reset_armature_loop objs s [] Hready) as [p' Hp']; [done|].
  rewrite run_bind.
  change (for_fold objs [] _ s) with (for_fold objs [] reset_armature_body s).
  by rewrite Hp'.
Qed.

Lemma reset_steps_spec targets : ∀ s,
  let s' := foldl (λ s t, reset_step t s) s targets in
  objects s' = visit reset_object targets (objects s) ∧
  trace s' = trace s ++ (EvResetPose <$> targets) ∧
  meshes s' = meshes s ∧ selected s' = selected s ∧ active s' = active s ∧
  reports s' = reports s ∧ scene_objects s' = scene_objects s ∧ next_id s' = next_id s.
Proof.
  induction targets as [|t targets IH]; intros s; cbn zeta.
  - cbn. by rewrite app_nil_r.
  - cbn [foldl]. destruct (IH (reset_step t s)) as (Ho & Ht & Hm & Hs & Ha & Hr & Hsc & Hn).
    rewrite Ho, Ht, Hm, Hs, Ha, Hr, Hsc, Hn. unfold reset_step. st_simpl.
    split_and!; try done. by rewrite <- app_assoc.
Qed.

(** X13.  [reset_armature_pose] calls [reset_pose] once for every object of
    the batch that has an Armature modifier with a target, on the target
    of the first such modifier and in batch order; the list of processed
    armatures never suppresses a call.  Meshes, selection, active object
    and reports are untouched. *)
Theorem reset_armature_pose_calls objs s :
  Forall (armature_ready s) objs →
  ∃ s',
    reset_armature_pose objs s = (Ok tt, s') ∧
    trace s' = trace s ++ (EvResetPose <$> first_targets s objs) ∧
    meshes s' = meshes s ∧ selected s' = selected s ∧ active s' = active s ∧
    reports s' = reports s.
Proof.
  intros Hready. rewrite (reset_armature_pose_run objs s Hready).
  destruct (reset_steps_spec (first_targets s objs) s) as (_ & Ht & Hm & Hs & Ha & Hr & _).
  eexists. split; [reflexivity|]. done.
Qed.

Lemma iter_reset_object n o : Nat.iter (S n) reset_object o = reset_object o.
Proof.
  induction n as [|n IH]; [done|]. rewrite Nat.iter_succ, IH. apply reset_object_idem.
Qed.

Lemma iter_reset_object_fields n o :
  let o' := Nat.iter n reset_object o in
  obj_name o' = obj_name o ∧ obj_type o' = obj_type o ∧ data o' = data o ∧
  modifiers o' = modifiers o ∧ location_x o' = location_x o.
Proof. destruct n as [|n]; cbn zeta; [done|]. by rewrite iter_reset_object. Qed.

Lemma visit_reset_target objs s t :
  Forall (armature_ready s) objs → t ∈ first_targets s objs →
  ∃ rig bones,
    visit reset_object (first_targets s objs) (objects s) !! t = Some rig ∧
    pose rig = Some bones ∧ Forall bone_is_reset bones.
Proof.
  intros Hready Ht. rewrite lookup_visit.
  pose proof (occurrences_pos _ _ Ht) as Hpos.
  destruct (occurrences t (first_targets s objs)) as [|n]; [lia|].
  apply list_elem_of_omap in Ht as (ob & Hob & Hft).
  rewrite Forall_forall in Hready. destruct (Hready ob Hob) as (o & Hlook & Hrig).
  rewrite Hlook in Hft. cbn in Hft. destruct (Hrig t Hft) as (rig & Hr & [bones Hp]).
  exists (reset_object rig), (map reset_bone bones). rewrite Hr.
  cbn [fmap option_fmap option_map]. rewrite iter_reset_object. split_and!; [done| |].
  - unfold reset_object. by rewrite Hp.
  - apply Forall_forall. intros b (b0 & -> & _)%list_elem_of_fmap.
    apply reset_bone_is_reset.
Qed.

(** X14.  After [reset_armature_pose] every armature that is the target of the
    first targeted Armature modifier of a batch object has all its bones
    in the reset state; every object that is not such a target is
    unchanged, and no object loses or changes its name, type, data,
    modifiers or location. *)
Theorem reset_armature_pose_resets objs s :
  Forall (armature_ready s) objs →
  ∃ s',
    reset_armature_pose objs s = (Ok tt, s') ∧
    (∀ t, t ∈ first_targets s objs →
       ∃ rig bones, objects s' !! t = Some rig ∧ pose rig = Some bones ∧
                    Forall bone_is_reset bones) ∧
    (∀ x, x ∉ first_targets s objs → objects s' !! x = objects s !! x) ∧
    (∀ x o, objects s !! x = Some o →
       ∃ o', objects s' !! x = Some o' ∧
             obj_name o' = obj_name o ∧ obj_type o' = obj_type o ∧ data o' = data o ∧
             modifiers o' = modifiers o ∧ location_x o' = location_x o).
Proof.
  intros Hready. rewrite (reset_armature_pose_run objs s Hready).
  destruct (reset_steps_spec (first_targets s objs) s) as (Ho & _).
  eexists. split; [reflexivity|]. rewrite Ho. split_and!.
  - intros t Ht. by apply visit_reset_target.
  - intros x Hx. rewrite lookup_visit.
    assert (occurrences x (first_targets s objs) = 0) as ->; [|by destruct (objects s !! x)].
    unfold occurrences.
    destruct (filter (λ k, k = x) (first_targets s objs)) as [|y l] eqn:Hf; [done|].
    assert (Hy : y ∈ filter (λ k, k = x) (first_targets s objs)) by (rewrite Hf; left).
    apply list_elem_of_filter in Hy as [-> Hy]. done.
  - intros x o Hx. rewrite lookup_visit, Hx. cbn [fmap option_fmap option_map].
    eexists. split; [done|]. apply iter_reset_object_fields.
Qed.

(** X15.  A batch in which no object has an Armature modifier with a target
    (no Armature modifier at all, or only unbound ones) makes
    [reset_armature_pose] return without any effect on the store. *)
Theorem reset_armature_pose_no_target_noop objs s :
  Forall (λ ob, ∃ o, objects s !! ob = Some o ∧
                     Forall (λ md, mod_type md = ARMATURE → mod_object md = None)
                            (modifiers o)) objs →
  reset_armature_pose objs s = (Ok tt, s).
Proof.
  intros Hall.
  assert (Hnone : ∀ ob, ob ∈ objs → ∃ o, objects s !! ob = Some o ∧ first_target o = None).
  { intros ob Hob. rewrite Forall_forall in Hall. destruct (Hall ob Hob) as (o & Ho & Hmods).
    exists o. split; [done|]. unfold first_target, first_armature_modifier.
    destruct (list_find _ (modifiers o)) as [[i md]|] eqn:Hfind; [|done].
    apply list_find_Some in Hfind as (Hi & [Ht [t Hm]] & _).
    rewrite Forall_forall in Hmods. apply list_elem_of_lookup_2 in Hi.
    rewrite (Hmods md Hi Ht) in Hm. done. }
  rewrite reset_armature_pose_run.
  - assert (first_targets s objs = []) as ->; [|done].
    unfold first_targets. clear Hall. induction objs as [|ob objs IH]; [done|].
    destruct (Hnone ob) as (o & Ho & Hft); [by left|].
    fold (first_targets s (ob :: objs)). rewrite (first_targets_cons s ob o objs Ho), Hft.
    apply IH. intros x Hx. apply Hnone. by right.
  - apply Forall_forall. intros ob Hob. destruct (Hnone ob Hob) as (o & Ho & Hft).
    exists o. split; [done|]. intros t. by rewrite Hft.
Qed.

Lemma reset_pose_sets_bones_witness :
  ∃ s' o' bones',
    reset_pose 10 Examples.body_scene = (Ok tt, s') ∧
    objects s' !! 10 = Some o' ∧ pose o' = Some bones' ∧
    length bones' = length (default [] (pose Examples.rig)) ∧
    Forall (λ b, bone_location b = (0, 0, 0)%Q ∧
                 bone_rotation_quaternion b = (1, 0, 0, 0)%Q ∧
                 bone_rotation_euler b = (1, 1, 1)%Q) bones' ∧
    obj_name o' = "Rig" ∧ obj_type o' = ARMATURE_OBJECT ∧ data o' = 110 ∧
    modifiers o' = [] ∧ location_x o' = 0%Q ∧
    (∀ x, x ≠ 10 → objects s' !! x = objects Examples.body_scene !! x) ∧
    meshes s' = meshes Examples.body_scene ∧ selected s' = [1] ∧ active s' = None.
Proof.
  apply (reset_pose_sets_bones 10 Examples.rig (default [] (pose Examples.rig))
           Examples.body_scene); reflexivity.
Defined.

Lemma armature_ready_shared_rig_scene :
  Forall (armature_ready Examples.shared_rig_scene) [1; 2].
Proof.
  repeat constructor.
  - eexists. split; [reflexivity|]. intros t [= <-]. exists Examples.rig. by split; [|eexists].
  - eexists. split; [reflexivity|]. intros t [= <-]. exists Examples.rig. by split; [|eexists].
Defined.

Lemma reset_armature_pose_calls_witness :
  ∃ s',
    reset_armature_pose [1; 2] Examples.shared_rig_scene = (Ok tt, s') ∧
    trace s' = [EvResetPose 10; EvResetPose 10] ∧
    meshes s' = meshes Examples.shared_rig_scene ∧ selected s' = [1; 2] ∧
    active s' = None ∧ reports s' = [].
Proof.
  exact (reset_armature_pose_calls [1; 2] Examples.shared_rig_scene
           armature_ready_shared_rig_scene).
Defined.

Lemma reset_armature_pose_resets_witness :
  ∃ s' rig bones,
    reset_armature_pose [1; 2] Examples.shared_rig_scene = (Ok tt, s') ∧
    objects s' !! 10 = Some rig ∧ pose rig = Some bones ∧ Forall bone_is_reset bones ∧
    objects s' !! 1 = objects Examples.shared_rig_scene !! 1.
Proof.
  destruct (reset_armature_pose_resets [1; 2] Examples.shared_rig_scene
              armature_ready_shared_rig_scene) as (s' & Hrun & Hreset & Hframe & _).
  destruct (Hreset 10) as (rig & bones & Hrig & Hp & Hb).
  { apply (bool_decide_unpack _). vm_compute. exact I. }
  exists s', rig, bones. split_and!; [done..|].
  apply Hframe. apply (bool_decide_unpack _). vm_compute. exact I.
Defined.

Lemma reset_armature_pose_no_target_noop_witness :
  reset_armature_pose [1] MoreExamples.unbound_scene = (Ok tt, MoreExamples.unbound_scene).
Proof.
  apply (reset_armature_pose_no_target_noop [1] MoreExamples.unbound_scene).
  repeat constructor. eexists. split; [reflexivity|].
  repeat constructor; cbn; done.
Defined.

(** ** [remove_modifiers] *)

Lemma upd_object_twice ob o o' s : upd_object ob o (upd_object ob o' s) = upd_object ob o s.
Proof. apply Bpy_eq; try reflexivity. st_simpl. apply insert_insert_eq. Qed.

Lemma upd_object_id ob o s : objects s !! ob = Some o → upd_object ob o s = s.
Proof. intros H. apply Bpy_eq; try reflexivity. st_simpl. by apply insert_id. Qed.

Lemma with_modifiers_id o : with_modifiers (modifiers o) o = o.
Proof. by destruct o. Qed.

Lemma remove_modifiers_loop ob l : ∀ o s,
  objects s !! ob = Some o → modifiers o = l →
  for_each (rev (seq 0 (length l))) (λ i,
    o ← get_object ob;
    match modifiers o !! i with
    | None => raise IndexError
    | Some _ => put_object ob (with_modifiers (delete i (modifiers o)) o)
    end) s =
  (Ok tt, upd_object ob (with_modifiers [] o) s).
Proof.
  induction l as [|x l IH] using rev_ind; intros o s Ho Hl.
  - cbn. rewrite <- Hl, with_modifiers_id. by rewrite upd_object_id.
  - rewrite length_app, Nat.add_1_r, seq_S, rev_app_distr. cbn [rev app for_each Nat.add].
    rewrite run_bind, (bind_ok _ _ _ _ _ (get_object_run _ _ _ Ho)), Hl.
    rewrite list_lookup_middle by done.
    assert (delete (length l) (l ++ [x]) = l) as ->.
    { rewrite delete_middle. apply app_nil_r. }
    cbn [put_object modify]. fold (upd_object ob (with_modifiers l o) s).
    rewrite (IH (with_modifiers l o)); [|apply lookup_insert_eq|done].
    by rewrite upd_object_twice.
Qed.

(** X16.  [remove_modifiers] returns normally and leaves the object with an
    empty modifier stack; the rest of the object and of the store is
    untouched (nothing is applied to the mesh). *)
Theorem remove_modifiers_empties_stack ob o s :
  objects s !! ob = Some o →
  remove_modifiers ob s = (Ok tt, upd_object ob (with_modifiers [] o) s).
Proof.
  intros Ho. unfold remove_modifiers.
  rewrite (bind_ok _ _ _ _ _ (get_object_run _ _ _ Ho)).
  by apply remove_modifiers_loop.
Qed.

Lemma remove_modifiers_empties_stack_witness :
  remove_modifiers 1 Examples.body_scene =
    (Ok tt, upd_object 1 (Examples.mesh_object "Body" 101 []) Examples.body_scene).
Proof. exact (remove_modifiers_empties_stack 1 Examples.body_object Examples.body_scene eq_refl). Defined.

(** ** [copy_object] *)

Lemma copy_body_run obj o m offset acc i s :
  objects s !! obj = Some o → meshes s !! data o = Some m → obj ≠ next_id s →
  copy_body obj offset acc i s = (Ok (acc ++ [next_id s]), copy_step o m offset i s).
Proof.
  intros Ho Hm Hne. unfold copy_body, object_copy, mesh_copy.
  repeat py_step. cbn [app mret Py_ret]. f_equal.
  st_eq. unfold copy_step, copy_of. cbn. by rewrite !insert_insert_eq.
Qed.

Lemma copy_step_source obj o m offset i s :
  objects s !! obj = Some o → meshes s !! data o = Some m → obj < next_id s →
  objects (copy_step o m offset i s) !! obj = Some o ∧
  meshes (copy_step o m offset i s) !! data o = Some m ∧
  obj < next_id (copy_step o m offset i s).
Proof.
  intros Ho Hm Hlt. unfold copy_step. st_simpl. split_and!; [| |lia].
  - by rewrite lookup_insert_ne by lia.
  - destruct (decide (S (next_id s) = data o)) as [<-|Hne];
      [apply lookup_insert_eq|by rewrite lookup_insert_ne].
Qed.

Lemma copy_ids_S n times : copy_ids n (S times) = n :: copy_ids (S (S n)) times.
Proof.
  unfold copy_ids. cbn [seq map]. f_equal; [lia|].
  rewrite <- seq_shift, map_map. apply map_ext. intros i. lia.
Qed.

Lemma copy_loop obj o m offset times : ∀ j acc s,
  objects s !! obj = Some o → meshes s !! data o = Some m → obj < next_id s →
  for_fold (seq j times) acc (copy_body obj offset) s =
    (Ok (acc ++ copy_ids (next_id s) times),
     foldl (λ s i, copy_step o m offset i s) s (seq j times)).
Proof.
  induction times as [|times IH]; intros j acc s Ho Hm Hlt.
  - cbn. by rewrite app_nil_r.
  - cbn [seq for_fold foldl].
    rewrite run_bind, (copy_body_run obj o m offset acc j s Ho Hm) by lia.
    destruct (copy_step_source obj o m offset j s Ho Hm Hlt) as (Ho1 & Hm1 & Hlt1).
    rewrite (IH (S j) _ _ Ho1 Hm1 Hlt1).
    by rewrite copy_ids_S, <- app_assoc.
Qed.

Lemma copies_spec o m offset times : ∀ j s,
  let s' := foldl (λ s i, copy_step o m offset i s) s (seq j times) in
  next_id s' = next_id s + 2 * times ∧
  (∀ i, i < times →
     objects s' !! (next_id s + 2 * i) =
       Some (copy_of o offset (j + i) (next_id s + 2 * i)) ∧
     meshes s' !! S (next_id s + 2 * i) = Some m) ∧
  (∀ x, x < next_id s → objects s' !! x = objects s !! x ∧ meshes s' !! x = meshes s !! x) ∧
  scene_objects s' = scene_objects s ++ copy_ids (next_id s) times ∧
  selected s' = selected s ∧ active s' = active s.
Proof.
  induction times as [|times IH]; intros j s; cbn zeta.
  - cbn. rewrite app_nil_r. split_and!; try done; try lia.
  - cbn [seq foldl].
    destruct (IH (S j) (copy_step o m offset j s)) as (Hn & Hcopies & Hframe & Hscn & Hsel & Hact).
    set (s1 := copy_step o m offset j s) in *.
    assert (Hn1 : next_id s1 = S (S (next_id s))) by done.
    rewrite Hn1 in *. split_and!.
    + lia.
    + intros [|i] Hi.
      * rewrite Nat.mul_0_r, !Nat.add_0_r.
        destruct (Hframe (next_id s)) as [-> _]; [lia|].
        destruct (Hframe (S (next_id s))) as [_ ->]; [lia|].
        subst s1. unfold copy_step. st_simpl. by map_simpl.
      * destruct (Hcopies i) as [Hobj Hmesh]; [lia|].
        replace (next_id s + 2 * S i) with (S (S (next_id s)) + 2 * i) by lia.
        replace (j + S i) with (S j + i) by lia. done.
    + intros x Hx. destruct (Hframe x) as [-> ->]; [lia|].
      subst s1. unfold copy_step. st_simpl. by map_simpl.
    + rewrite Hscn, copy_ids_S. subst s1. unfold copy_step. st_simpl.
      by rewrite <- app_assoc.
    + by rewrite Hsel.
    + by rewrite Hact.
Qed.

(** X17.  [copy_object(obj, times, offset)] returns [times] new objects in
    creation order.  Copy number [i] (from 0) is named
    [obj.name + "_shapekey_" + str(i + 1)], has the type, modifier stack
    and pose of [obj], owns a copy of the mesh of [obj] (shape keys
    included) and is linked to the scene after the objects already there;
    with offset 0, as the add-on calls it, the copy sits where [obj]
    does.  Everything that existed before, the original and its mesh
    included, as well as the active object, is unchanged.  Nothing is
    stated about the selection, nor about the position under another
    offset, which the host rounds. *)
Theorem copy_object_copies obj o m times offset s :
  objects s !! obj = Some o → meshes s !! data o = Some m →
  obj < next_id s → data o < next_id s →
  ∃ s',
    copy_object obj times offset s = (Ok (copy_ids (next_id s) times), s') ∧
    length (copy_ids (next_id s) times) = times ∧
    NoDup (copy_ids (next_id s) times) ∧
    (∀ i c, copy_ids (next_id s) times !! i = Some c →
       ∃ oc, objects s' !! c = Some oc ∧
             obj_name oc = obj_name o +:+ "_shapekey_" +:+ pretty (i + 1)%nat ∧
             ((offset == 0)%Q → (location_x oc == location_x o)%Q) ∧
             modifiers oc = modifiers o ∧ obj_type oc = obj_type o ∧ pose oc = pose o ∧
             data oc ≠ data o ∧ meshes s' !! data oc = Some m) ∧
    (∀ x, x < next_id s → objects s' !! x = objects s !! x ∧ meshes s' !! x = meshes s !! x) ∧
    scene_objects s' = scene_objects s ++ copy_ids (next_id s) times ∧
    active s' = active s.
Proof.
  intros Ho Hm Hlt Hdlt. unfold copy_object.
  change (for_fold (seq 0 times) [] _ s)
    with (for_fold (seq 0 times) [] (copy_body obj offset) s).
  rewrite (copy_loop obj o m offset times 0 [] s Ho Hm Hlt).
  destruct (copies_spec o m offset times 0 s) as (Hn & Hcopies & Hframe & Hscn & Hsel & Hact).
  eexists. split; [reflexivity|]. split_and!; try done.
  - unfold copy_ids. by rewrite length_map, length_seq.
  - unfold copy_ids. apply NoDup_fmap_2; [|apply NoDup_seq]. intros x y Hxy. lia.
  - intros i c Hi. unfold copy_ids in Hi.
    apply list_lookup_fmap_Some in Hi as (i' & -> & Hi').
    apply lookup_seq in Hi' as [-> Hi'].
    destruct (Hcopies i Hi') as [Hobj Hmesh].
    exists (copy_of o offset i (next_id s + 2 * i)). cbn [Nat.add] in *.
    split_and!; try done.
    + cbn. intros Hoff. rewrite Hoff, Qmult_0_l, Qplus_0_r. reflexivity.
    + cbn. lia.
Qed.

Lemma copy_object_copies_witness :
  ∃ s',
    copy_object 1 2 0 Examples.body_scene = (Ok [200; 202], s') ∧
    length [200; 202] = 2 ∧
    NoDup [200; 202] ∧
    (∀ i c, [200; 202] !! i = Some c →
       ∃ oc, objects s' !! c = Some oc ∧
             obj_name oc = "Body" +:+ "_shapekey_" +:+ pretty (i + 1)%nat ∧
             ((0 == 0)%Q → (location_x oc == 0)%Q) ∧
             modifiers oc = Examples.body_stack ∧ obj_type oc = MESH ∧ pose oc = None ∧
             data oc ≠ 101 ∧ meshes s' !! data oc = Some Examples.body_mesh) ∧
    (∀ x, x < 200 → objects s' !! x = objects Examples.body_scene !! x ∧
                    meshes s' !! x = meshes Examples.body_scene !! x) ∧
    scene_objects s' = [1; 10; 200; 202] ∧
    active s' = None.
Proof.
  apply (copy_object_copies 1 Examples.body_object Examples.body_mesh 2 0
           Examples.body_scene); [reflexivity|reflexivity|cbn; lia|cbn; lia].
Defined.

(** ** [apply_shapekey] *)

(** X18.  [apply_shapekey(obj, k)] with a valid index removes every shape key
    and the container with them, and leaves the mesh in the shape of key
    [k] (for [k = 0] the mesh keeps the geometry it has, which is the
    basis); nothing else in the store changes. *)
Theorem apply_shapekey_bakes_chosen_key ob o m k sk_keep s :
  objects s !! ob = Some o → meshes s !! data o = Some m → shape_keys m = Some k →
  (0 ≤ sk_keep < Z.of_nat (length (key_blocks k)))%Z →
  ∃ ski,
    key_blocks k !! Z.to_nat sk_keep = Some ski ∧
    apply_shapekey ob sk_keep s =
      (Ok tt,
       upd_mesh (data o)
         {| shape_keys := None;
            geometry := if decide (sk_keep = 0%Z) then geometry m else sk_data ski |} s).
Proof.
  intros Ho Hm Hk Hrange.
  destruct (lookup_lt_is_Some_2 (key_blocks k) (Z.to_nat sk_keep)) as [ski Hski]; [lia|].
  exists ski. split; [done|].
  rewrite <- (Z2Nat.id sk_keep) at 1 by lia.
  rewrite (apply_shapekey_valid ob o m k (Z.to_nat sk_keep) ski s Ho Hm Hk Hski).
  do 3 f_equal. case_decide as Hz.
  - by rewrite Hz.
  - destruct (Z.to_nat sk_keep) eqn:Hn; [lia|done].
Qed.

Lemma apply_shapekey_bakes_chosen_key_witness :
  ∃ ski,
    key_blocks Examples.body_key !! Z.to_nat 2 = Some ski ∧
    apply_shapekey 1 2 Examples.body_scene =
      (Ok tt,
       upd_mesh 101
         {| shape_keys := None;
            geometry := if decide (2 = 0)%Z then Verts 0 else sk_data ski |}
         Examples.body_scene).
Proof.
  apply (apply_shapekey_bakes_chosen_key 1 Examples.body_object Examples.body_mesh
           Examples.body_key 2 Examples.body_scene); [reflexivity..|cbn; lia].
Defined.

(** X19.  [apply_shapekey(obj, k)] is a silent no-op for [k < 0] and for
    [k > len(key_blocks)]: it returns normally and the store is unchanged
    (the index [k = len(key_blocks)] is not covered by the guard). *)
Theorem apply_shapekey_beyond_range_noop ob o m k sk_keep s :
  objects s !! ob = Some o → meshes s !! data o = Some m → shape_keys m = Some k →
  (sk_keep < 0 ∨ Z.of_nat (length (key_blocks k)) < sk_keep)%Z →
  apply_shapekey ob sk_keep s = (Ok tt, s).
Proof. apply apply_shapekey_out_of_range. Qed.

Lemma apply_shapekey_beyond_range_noop_witness :
  apply_shapekey 1 (-1) Examples.body_scene = (Ok tt, Examples.body_scene) ∧
  apply_shapekey 1 4 Examples.body_scene = (Ok tt, Examples.body_scene).
Proof.
  split.
  - apply (apply_shapekey_beyond_range_noop 1 Examples.body_object Examples.body_mesh
             Examples.body_key (-1) Examples.body_scene); [reflexivity..|cbn; lia].
  - apply (apply_shapekey_beyond_range_noop 1 Examples.body_object Examples.body_mesh
             Examples.body_key 4 Examples.body_scene); [reflexivity..|cbn; lia].
Defined.

(** ** [apply_modifiers] *)

(** X20.  [apply_modifiers] takes over the selection: on return the processed
    object is the only selected object and the active one (whatever was
    selected before is deselected), and no other object and no other
    mesh has been touched; the mesh keeps its shape keys. *)
Theorem apply_modifiers_takes_selection ob o m s :
  objects s !! ob = Some o → meshes s !! data o = Some m →
  NoDup (mod_name <$> modifiers o) → selected s ⊆ scene_objects s →
  ∃ s' m',
    apply_modifiers ob s = (Ok tt, s') ∧
    selected s' = [ob] ∧ active s' = Some ob ∧
    (∀ x, x ≠ ob → objects s' !! x = objects s !! x) ∧
    (∀ me, me ≠ data o → meshes s' !! me = meshes s !! me) ∧
    meshes s' !! data o = Some m' ∧ shape_keys m' = shape_keys m ∧
    scene_objects s' = scene_objects s.
Proof.
  intros Ho Hm Hnames Hsel. rewrite (apply_modifiers_run ob o m s Ho Hm Hnames).
  eexists _, _. split; [reflexivity|]. st_simpl. split_and!.
  - by rewrite deselect_subseteq, select_nil.
  - done.
  - intros x Hx. by map_simpl.
  - intros me Hme. by map_simpl.
  - by map_simpl.
  - done.
  - done.
Qed.

Lemma apply_modifiers_takes_selection_witness :
  ∃ s' m',
    apply_modifiers 2 Examples.mixed_scene = (Ok tt, s') ∧
    selected s' = [2] ∧ active s' = Some 2 ∧
    (∀ x, x ≠ 2 → objects s' !! x = objects Examples.mixed_scene !! x) ∧
    (∀ me, me ≠ 102 → meshes s' !! me = meshes Examples.mixed_scene !! me) ∧
    meshes s' !! 102 = Some m' ∧ shape_keys m' = None ∧
    scene_objects s' = [1; 2; 3; 10].
Proof.
  apply (apply_modifiers_takes_selection 2 (Examples.mesh_object "Cube" 102 Examples.body_stack)
           Examples.cube_mesh Examples.mixed_scene).
  - reflexivity.
  - reflexivity.
  - apply (bool_decide_unpack _). vm_compute. exact I.
  - apply (bool_decide_unpack _). vm_compute. exact I.
Defined.

Lemma filter_none_rejected (ms : list Modifier) :
  Forall (λ md, mod_type md ≠ ARMATURE → mod_applicable md = true) ms →
  filter (λ md, mod_type md ≠ ARMATURE ∧ mod_applicable md = false) ms = [].
Proof.
  induction 1 as [|md ms Hmd _ IH]; [done|].
  rewrite filter_cons, IH. rewrite decide_False; [done|].
  intros [Ht Ha]. rewrite (Hmd Ht) in Ha. done.
Qed.

(** X21.  When the host accepts every modifier that is not an armature,
    [apply_modifiers] reports nothing and removes nothing: there is no
    new report and no [modifier_remove] call, and the mesh ends with all
    the non-armature modifiers of the stack baked in, in stack order
    (Subsurf ones with the control-edge flag off). *)
Theorem apply_modifiers_all_accepted_silent ob o m s :
  objects s !! ob = Some o → meshes s !! data o = Some m →
  NoDup (mod_name <$> modifiers o) →
  Forall (λ md, mod_type md ≠ ARMATURE → mod_applicable md = true) (modifiers o) →
  ∃ s' m',
    apply_modifiers ob s = (Ok tt, s') ∧
    reports s' = reports s ∧
    remove_calls (trace s') = remove_calls (trace s) ∧
    meshes s' !! data o = Some m' ∧
    geom_modifiers (geometry m') =
      geom_modifiers (geometry m) ++
      (clear_control_edges <$> filter (λ md, mod_type md ≠ ARMATURE) (modifiers o)).
Proof.
  intros Ho Hm Hnames Hall. rewrite (apply_modifiers_run ob o m s Ho Hm Hnames).
  eexists _, _. split; [reflexivity|]. st_simpl. split_and!.
  - unfold failure_reports. by rewrite filter_none_rejected, app_nil_r.
  - rewrite !remove_calls_app, remove_calls_flag_events, remove_calls_call_events.
    by rewrite filter_none_rejected, !app_nil_r.
  - by map_simpl.
  - cbn [geometry with_geometry]. rewrite geom_modifiers_baked. f_equal.
    clear -Hall. induction Hall as [|md ms Hmd _ IH]; [done|].
    rewrite fmap_cons, !filter_cons, IH.
    rewrite clear_control_edges_type, clear_control_edges_applicable.
    destruct (decide (mod_type md ≠ ARMATURE)) as [Ht|Ht].
    + rewrite decide_True by (split; [done|by apply Hmd]). done.
    + rewrite decide_False by (intros [??]; done). done.
Qed.

Lemma apply_modifiers_all_accepted_silent_witness :
  ∃ s' m',
    apply_modifiers 1 MoreExamples.unbound_scene = (Ok tt, s') ∧
    reports s' = [] ∧ remove_calls (trace s') = [] ∧
    meshes s' !! 101 = Some m' ∧
    mod_name <$> geom_modifiers (geometry m') = ["Subdivision"] ∧
    show_only_control_edges <$> geom_modifiers (geometry m') = [false].
Proof.
  destruct (apply_modifiers_all_accepted_silent 1
              (Examples.mesh_object "Body" 101
                 [Examples.modifier "Subdivision" SUBSURF None true;
                  Examples.modifier "Armature" ARMATURE None true])
              Examples.cube_mesh MoreExamples.unbound_scene)
    as (s' & m' & Hrun & Hrep & Hrem & Hm & Hgeom).
  - reflexivity.
  - reflexivity.
  - apply (bool_decide_unpack _). vm_compute. exact I.
  - repeat constructor; cbn; done.
  - exists s', m'. split_and!; [done..| |]; by rewrite Hgeom.
Defined.

(** ** [SK_OT_apply_mods.apply_all_modifiers] *)

Lemma keyed_spec s ob o m :
  objects s !! ob = Some o → meshes s !! data o = Some m →
  keyed s ob = bool_decide (shape_keys m ≠ None).
Proof. intros Ho Hm. unfold keyed. by rewrite Ho, Hm. Qed.

Lemma filter_ext_in {A} (P Q : A → Prop) `{∀ x, Decision (P x)} `{∀ x, Decision (Q x)}
    (l : list A) :
  (∀ x, x ∈ l → P x ↔ Q x) → filter P l = filter Q l.
Proof.
  induction l as [|x l IH]; intros Heq; [done|].
  rewrite !filter_cons, IH by (intros y Hy; apply Heq; by right).
  destruct (decide (P x)) as [HP|HP], (decide (Q x)) as [HQ|HQ]; try done.
  - exfalso. apply HQ, (Heq x); [by left|done].
  - exfalso. apply HP, (Heq x); [by left|done].
Qed.

Lemma batch_selection objs : ∀ s next,
  NoDup objs → Forall (mesh_object_ok s) objs →
  ∃ s', for_fold objs next batch_body s =
          (Ok (next ++ filter (λ ob, keyed s ob) objs), s').
Proof.
  induction objs as [|x objs IH]; intros s next Hnd Hok.
  - exists s. cbn. by rewrite app_nil_r.
  - apply NoDup_cons in Hnd as [Hx Hnd].
    apply Forall_cons in Hok as [(o & m & Ho & Hm & Hnames) Hok].
    cbn [for_fold]. rewrite run_bind, (batch_body_run next x o m s Ho Hm Hnames).
    rewrite filter_cons, (keyed_spec s x o m Ho Hm).
    destruct (shape_keys m) as [k|] eqn:Hk.
    + rewrite decide_True by (by apply bool_decide_pack).
      destruct (IH s (next ++ [x]) Hnd Hok) as [s' Hs'].
      exists s'. by rewrite Hs', <- app_assoc.
    + rewrite decide_False by (intros H%bool_decide_unpack; done).
      set (s1 := apply_modifiers_result x o m s).
      assert (Hsame : ∀ y, y ∈ objs → mesh_object_ok s1 y ∧ keyed s1 y = keyed s y).
      { intros y Hy. rewrite Forall_forall in Hok.
        destruct (Hok y Hy) as (oy & my & Hoy & Hmy & Hny).
        assert (y ≠ x) by (intros ->; done).
        assert (Hoy1 : objects s1 !! y = Some oy) by (subst s1; cbn; by rewrite lookup_insert_ne).
        destruct (decide (data oy = data o)) as [Heq|Hne].
        - assert (my = m) as -> by (rewrite Heq in Hmy; congruence).
          assert (Hmy1 : meshes s1 !! data oy =
                   Some (with_geometry (baked (clear_control_edges <$> modifiers o) (geometry m)) m))
            by (subst s1; cbn; rewrite Heq; apply lookup_insert_eq).
          split; [by eexists oy, _|].
          by rewrite (keyed_spec s1 y oy _ Hoy1 Hmy1), (keyed_spec s y oy m Hoy Hmy).
        - assert (Hmy1 : meshes s1 !! data oy = Some my)
            by (subst s1; cbn; by rewrite lookup_insert_ne).
          split; [by exists oy, my|].
          by rewrite (keyed_spec s1 y oy my Hoy1 Hmy1), (keyed_spec s y oy my Hoy Hmy). }
      destruct (IH s1 next Hnd) as [s' Hs'].
      { apply Forall_forall. intros y Hy. by apply Hsame. }
      exists s'. rewrite Hs'. do 3 f_equal. apply filter_ext_in.
      intros y Hy. destruct (Hsame y Hy) as [_ ->]. done.
Qed.

Lemma select_loop l : ∀ s,
  for_each l (λ obj, select_set obj true) s =
    (Ok tt, set_selected (λ sel, foldl (λ sel ob, select ob sel) sel l) s).
Proof.
  induction l as [|x l IH]; intros s.
  - cbn. by destruct s.
  - cbn [for_each foldl]. rewrite run_bind. cbn [select_set modify].
    by rewrite IH.
Qed.

Lemma foldl_select l : ∀ acc, NoDup (acc ++ l) → foldl (λ sel ob, select ob sel) acc l = acc ++ l.
Proof.
  induction l as [|x l IH]; intros acc Hnd; [by rewrite app_nil_r|].
  cbn [foldl]. unfold select at 2.
  rewrite decide_False; cycle 1.
  { apply NoDup_app in Hnd as (_ & Hdisj & _). intros Hx. apply (Hdisj x Hx). by left. }
  rewrite IH; rewrite <- app_assoc; done.
Qed.

(** X22.  [apply_all_modifiers] skips the objects that have shape keys: they
    keep their modifier stack, and when the operator returns FINISHED
    they are exactly the selected objects, each selected once.  The order
    in which the host lists a selection is its own and is not stated. *)
Theorem apply_all_modifiers_selects_keyed objs s :
  NoDup objs → Forall (mesh_object_ok s) objs →
  ∃ s',
    SK_OT_apply_mods.apply_all_modifiers objs s = (Ok FINISHED, s') ∧
    (∀ x, x ∈ selected s' ↔ x ∈ objs ∧ keyed s x = true) ∧
    NoDup (selected s') ∧
    ∀ x, x ∈ objs → keyed s x = true → objects s' !! x = objects s !! x.
Proof.
  intros Hnd Hok.
  destruct (batch_selection objs s [] Hnd Hok) as [s1 Hsel].
  destruct (batch_run objs s [] Hnd Hok) as (s1' & next' & rep & Hrun & _ & _ & _ & _ & Hin).
  rewrite Hsel in Hrun. injection Hrun as <- <-.
  unfold SK_OT_apply_mods.apply_all_modifiers.
  change (for_fold objs [] _ s) with (for_fold objs [] batch_body s).
  rewrite run_bind.
  change (for_fold objs [] _ s) with (for_fold objs [] batch_body s).
  rewrite Hsel. cbn [app]. rewrite run_bind. cbn [select_all_DESELECT modify].
  rewrite run_bind, select_loop. cbn [mret Py_ret].
  eexists. split; [reflexivity|]. st_simpl.
  assert (Hlist : foldl (λ sel ob, select ob sel) [] (filter (λ ob, keyed s ob) objs) =
                  filter (λ ob, keyed s ob) objs).
  { apply (foldl_select _ []). cbn. by apply NoDup_filter. }
  rewrite Hlist. split_and!.
  - intros x. rewrite list_elem_of_filter. split.
    + intros [Hk Hx]. split; [done|]. by destruct (keyed s x).
    + intros [Hx Hk]. split; [by rewrite Hk|done].
  - by apply NoDup_filter.
  - intros x Hx Hkeyed. rewrite Forall_forall in Hok.
    destruct (Hok x Hx) as (o & m & Ho & Hm & _).
    specialize (Hin x o m Hx Ho Hm).
    rewrite (keyed_spec s x o m Ho Hm) in Hkeyed. apply bool_decide_eq_true in Hkeyed.
    destruct (shape_keys m); [|done]. by rewrite Hin, Ho.
Qed.

Lemma apply_all_modifiers_selects_keyed_witness :
  ∃ s',
    SK_OT_apply_mods.apply_all_modifiers [1; 2; 3] Examples.mixed_scene = (Ok FINISHED, s') ∧
    (∀ x, x ∈ selected s' ↔ x ∈ [1; 2; 3] ∧ keyed Examples.mixed_scene x = true) ∧
    NoDup (selected s') ∧
    ∀ x, x ∈ [1; 2; 3] → keyed Examples.mixed_scene x = true →
         objects s' !! x = objects Examples.mixed_scene !! x.
Proof.
  apply (apply_all_modifiers_selects_keyed [1; 2; 3] Examples.mixed_scene).
  - apply (bool_decide_unpack _). vm_compute. exact I.
  - repeat constructor.
    + exists Examples.body_object, Examples.body_mesh. split_and!; [reflexivity..|].
      apply (bool_decide_unpack _). vm_compute. exact I.
    + exists (Examples.mesh_object "Cube" 102 Examples.body_stack), Examples.cube_mesh.
      split_and!; [reflexivity..|]. apply (bool_decide_unpack _). vm_compute. exact I.
    + exists (Examples.mesh_object "Face" 103 []), Examples.undriven_mesh.
      split_and!; [reflexivity..|]. apply (bool_decide_unpack _). vm_compute. exact I.
Defined.

(** ** [add_objs_shapekeys] *)








(** *** The receivers of [apply_all_modifiers_with_sk] *)

Lemma clamp_within (lo hi v : float) : (lo <= v)%Q → (v <= hi)%Q → clamp lo hi v = v.
Proof.
  intros Hlo Hhi. unfold clamp.
  destruct (Qlt_le_dec v lo) as [Hlt|_]; [by apply Qlt_not_le in Hlt|].
  destruct (Qlt_le_dec hi v) as [Hlt|_]; [by apply Qlt_not_le in Hlt|]. done.
Qed.

(** The slider bounds survive lines 239 and 240 when the host's setters
    do not limit them. *)
Lemma carried_key_sliders o sk :
  (-10 <= sk_slider_min sk)%Q → (sk_slider_min sk <= 999 # 1000)%Q →
  (sk_slider_min sk + SHAPEKEY_SLIDER_TOL <= sk_slider_max sk)%Q →
  (sk_slider_max sk <= 10)%Q →
  sk_slider_min (carried_key o sk) = sk_slider_min sk ∧
  sk_slider_max (carried_key o sk) = sk_slider_max sk.
Proof.
  intros Hlo Hhi Hgap Hmax. unfold carried_key, restored.
  cbn [sk_slider_min sk_slider_max with_sk_vertex_group with_sk_lock_shape
       with_sk_interpolation set_value with_sk_value set_slider_max with_sk_slider_max
       set_slider_min with_sk_slider_min with_sk_mute with_sk_name new_shape_key].
  rewrite (clamp_within (-10) _ (sk_slider_min sk)) by done.
  rewrite clamp_within by done. done.
Qed.

(** X24.  What the receiver looks like.  [apply_all_modifiers_with_sk] leaves,
    for every object of the batch with shape keys, a receiver that keeps
    the armature modifiers only.  Its mesh has the original mesh's
    geometry with the applicable other modifiers baked in, in stack order;
    its key 0 is a fresh key "Basis" of that geometry, whatever the
    original basis key was; and key [i ≥ 1] holds what the host evaluates
    of a donor with the original key's shape: the same bake, under the
    armature modifiers still on the stack.  Key [i ≥ 1] has the mute
    flag, interpolation, lock flag and vertex group of the original key;
    it has its slider bounds too when the original slider_min is at most
    0.999, the bound the host sets while the new key's slider_max is
    still 1, and when the original bounds are 0.002 apart at least and
    within the host's limits of -10 and 10; and it has its name when the
    original non-basis keys have distinct names, none of them "Basis",
    the name of the fresh basis key.  Stated for a batch the pipeline gets through
    ([batch_ok]): distinct mesh objects with distinct meshes and
    uniquely named modifiers, where an object with shape keys has two
    keys at least, no NLA track, no driver variable with more targets
    than its type has, and keys that, with the accepted modifiers baked
    in, all give as many vertices as the mesh does, so that the host
    joins every donor. *)
Theorem apply_all_modifiers_with_sk_shapes objs s :
  batch_ok s objs →
  ∃ s',
    SK_OT_apply_mods.apply_all_modifiers_with_sk objs s = (Ok tt, s') ∧
    ∀ obj o m k,
      obj ∈ objs → objects s !! obj = Some o → meshes s !! data o = Some m →
      shape_keys m = Some k →
      ∃ rid ro rm rk,
        objects s' !! rid = Some ro ∧ meshes s' !! data ro = Some rm ∧
        shape_keys rm = Some rk ∧
        obj_name ro = obj_name o ∧
        modifiers ro = filter (λ md, mod_type md = ARMATURE) (modifiers o) ∧
        geometry rm = baked (clear_control_edges <$> modifiers o) (geometry m) ∧
        length (key_blocks rk) = length (key_blocks k) ∧
        key_blocks rk !! 0%nat = Some (new_shape_key "Basis" (geometry rm)) ∧
        ∀ i sk, (1 ≤ i)%nat → key_blocks k !! i = Some sk →
          ∃ sk', key_blocks rk !! i = Some sk' ∧
            sk_data sk' =
              fold_left (λ g md, ModifierResult md g) (modifiers ro)
                (baked (clear_control_edges <$> modifiers o) (sk_data sk)) ∧
            sk_mute sk' = sk_mute sk ∧ sk_interpolation sk' = sk_interpolation sk ∧
            sk_lock_shape sk' = sk_lock_shape sk ∧
            sk_vertex_group sk' = sk_vertex_group sk ∧
            ((-10 <= sk_slider_min sk)%Q → (sk_slider_min sk <= 999 # 1000)%Q →
             (sk_slider_min sk + (2 # 1000) <= sk_slider_max sk)%Q →
             (sk_slider_max sk <= 10)%Q →
             sk_slider_min sk' = sk_slider_min sk ∧
             sk_slider_max sk' = sk_slider_max sk) ∧
            (NoDup ("Basis" :: (sk_name <$> drop 1 (key_blocks k))) →
             sk_name sk' = sk_name sk).
Proof.
  intros Hbatch.
  destruct (apply_all_modifiers_with_sk_full objs s Hbatch)
    as (s' & Hrun & _ & _ & _ & _ & Hmain).
  exists s'. split; [done|]. intros obj o m k Hin Ho Hm Hk.
  destruct (Hmain obj o m Hin Ho Hm) as (rid & _ & Hres).
  unfold pass_result in Hres. rewrite Hk in Hres.
  destruct Hres as (_ & _ & ds' & _ & Hro & Hrm).
  assert (Hlen : (2 ≤ length (key_blocks k))%nat).
  { destruct Hbatch as (_ & _ & _ & Hall). rewrite Forall_forall in Hall.
    destruct (Hall obj Hin) as (o' & m' & Ho' & Hm' & _ & _ & _ & Hkeys).
    rewrite Ho in Ho'. injection Ho' as <-. rewrite Hm in Hm'. injection Hm' as <-.
    by destruct (Hkeys k Hk). }
  eexists rid, (receiver_object o rid), (receiver_mesh o m k ds'), _.
  split_and!; [done|done|reflexivity|reflexivity|reflexivity|reflexivity| |reflexivity|].
  { cbn [key_blocks]. rewrite receiver_blocks_length by lia. lia. }
  intros i sk Hi Hsk. exists (carried_key o sk).
  split_and!; [|reflexivity..| |done].
  - cbn [key_blocks]. apply receiver_blocks_lookup; [done| |done].
    apply lookup_lt_Some in Hsk. lia.
  - intros Hlo Hhi Hgap Hmax. apply carried_key_sliders; [done..| |done].
    eapply Qle_trans; [|exact Hgap]. apply Qplus_le_r. done.
Qed.

Lemma apply_all_modifiers_with_sk_shapes_witness :
  batch_ok Examples.mixed_scene [1; 2; 3] ∧
  ∃ s' rid ro rm rk sk',
    SK_OT_apply_mods.apply_all_modifiers_with_sk [1; 2; 3] Examples.mixed_scene = (Ok tt, s') ∧
    objects s' !! rid = Some ro ∧ meshes s' !! data ro = Some rm ∧
    shape_keys rm = Some rk ∧
    obj_name ro = "Body" ∧
    mod_name <$> modifiers ro = ["Armature"] ∧
    mod_name <$> geom_modifiers (geometry rm) = ["Subdivision"; "Solidify"] ∧
    length (key_blocks rk) = 3%nat ∧
    key_blocks rk !! 2%nat = Some sk' ∧
    mod_name <$> geom_modifiers (sk_data sk') = ["Subdivision"; "Solidify"; "Armature"] ∧
    sk_mute sk' = false ∧ sk_vertex_group sk' = "Group" ∧
    sk_slider_min sk' = 0%Q ∧ sk_slider_max sk' = 1%Q ∧ sk_name sk' = "Frown".
Proof.
  split; [exact mixed_scene_batch_ok|].
  destruct (apply_all_modifiers_with_sk_shapes [1; 2; 3] Examples.mixed_scene
              mixed_scene_batch_ok) as (s' & Hrun & Hmain).
  destruct (Hmain 1 Examples.body_object Examples.body_mesh Examples.body_key)
    as (rid & ro & rm & rk & Hro & Hrm & Hrk & Hname & Hmods & Hgeom & Hlen & _ & Hkeys);
    [apply (bool_decide_unpack _); vm_compute; exact I|reflexivity..|].
  destruct (Hkeys 2 (Examples.shape_key "Frown" false 0 1 (1 # 2) 2))
    as (sk' & Hsk' & Hdata & Hmute & _ & _ & Hgroup & Hsliders & Hskname);
    [lia|reflexivity|].
  destruct Hsliders as [Hmin Hmax]; [vm_compute; discriminate..|].
  exists s', rid, ro, rm, rk, sk'.
  split_and!; [exact Hrun|exact Hro|exact Hrm|exact Hrk|exact Hname| | |exact Hlen|
               exact Hsk'| |exact Hmute|exact Hgroup|exact Hmin|exact Hmax|].
  - rewrite Hmods. vm_compute. reflexivity.
  - rewrite Hgeom. vm_compute. reflexivity.
  - rewrite Hdata, Hmods. vm_compute. reflexivity.
  - apply Hskname. apply (bool_decide_unpack _). vm_compute. exact I.
Defined.





(** X28.  A container with the basis key only.  When an object of the batch
    has a shape-key container that holds nothing but the basis key,
    [apply_all_modifiers_with_sk] raises AttributeError at line 255: the
    receiver lost its container when its one key was removed.  The
    original object and its mesh are as they were, and the receiver
    stays behind in the scene under the name "sk_receiver". *)
Theorem apply_all_modifiers_with_sk_basis_only_raises obj rest o m k s :
  objects s !! obj = Some o → meshes s !! data o = Some m → shape_keys m = Some k →
  length (key_blocks k) = 1%nat →
  NoDup (mod_name <$> modifiers o) → store_ok s →
  ∃ s',
    SK_OT_apply_mods.apply_all_modifiers_with_sk (obj :: rest) s = (Raise AttributeError, s') ∧
    objects s' !! obj = Some o ∧ meshes s' !! data o = Some m ∧
    ∃ ro rm,
      objects s' !! next_id s = Some ro ∧ obj_name ro = "sk_receiver" ∧
      meshes s' !! data ro = Some rm ∧ shape_keys rm = None ∧
      next_id s ∈ scene_objects s'.
Proof.
  intros Ho Hm Hk Hlen Hnames (Hobs & Hmes & Hsel).
  assert (Hobj_lt : obj < next_id s) by (apply Hobs; by eexists).
  assert (Hdo_lt : data o < next_id s) by (apply Hmes; by eexists).
  set (rid := next_id s) in *.
  assert (Hr1 : rid ≠ obj) by (subst rid; lia).
  assert (Hr2 : S rid ≠ data o) by (subst rid; lia).
  destruct (lookup_lt_is_Some_2 (key_blocks k) 0) as [sk0 Hsk0]; [lia|].
  set (oc := with_obj_name "sk_receiver" (object_copy_of rid o)).
  set (mc := {| shape_keys := None; geometry := geometry m |}).
  unfold SK_OT_apply_mods.apply_all_modifiers_with_sk. cbn [for_each].
  rewrite run_bind. unfold SK_OT_apply_mods.apply_with_sk.
  rewrite (bind_ok _ _ _ _ _ (obj_shape_keys_run _ _ _ _ Ho Hm)), Hk.
  rewrite (bind_ok _ _ _ _ _ (copy_object_0_run obj o m s Ho Hm ltac:(lia))). fold rid.
  rewrite run_bind, (update_object_run rid (object_copy_of rid o)) by lookup_tac.
  cbv beta iota. fold oc.
  rewrite run_bind.
  rewrite (apply_shapekey_valid rid oc m k 0 sk0); [|lookup_tac|st_simpl; by map_simpl|done|done].
  cbv beta iota. change (data oc) with (S rid). fold mc.
  rewrite run_bind, (apply_modifiers_run rid oc mc); [|lookup_tac|st_simpl; by map_simpl|done].
  cbv beta iota.
  set (s4 := apply_modifiers_result rid oc mc
               (upd_mesh (S rid) mc (upd_object rid oc (copy_result o m s)))).
  assert (Ho4 : objects s4 !! obj = Some o) by (subst s4; lookup_tac).
  assert (Hm4 : meshes s4 !! data o = Some m) by (subst s4; st_simpl; by map_simpl).
  set (ro := with_modifiers (filter (λ md, mod_type md = ARMATURE) (modifiers oc)) oc).
  set (rm := with_geometry (baked (clear_control_edges <$> modifiers oc) (geometry mc)) mc).
  assert (Hro4 : objects s4 !! rid = Some ro) by (subst s4; lookup_tac).
  assert (Hrm4 : meshes s4 !! data ro = Some rm) by (subst s4; st_simpl; by map_simpl).
  rewrite run_bind, (obj_shape_keys_run obj o m s4 Ho4 Hm4), Hk. cbv beta iota.
  rewrite Hlen. cbn [Nat.sub seq for_each].
  rewrite run_bind. cbn [mret Py_ret]. cbv beta iota.
  rewrite (bind_ok _ _ _ _ _ (get_object_run _ _ _ Ho4)).
  rewrite (bind_ok _ _ _ _ _ (key_blocks_0_id_data_run obj o m k s4 Ho4 Hm4 Hk
                                 ltac:(intros E; by rewrite E in Hsk0))).
  rewrite run_bind. unfold key_blocks_0_id_data at 1.
  rewrite (bind_ok _ _ _ _ _ (object_mesh_run _ _ _ _ Hro4 Hrm4)).
  cbn [shape_keys rm with_geometry mc raise]. cbv beta iota.
  exists s4. split; [reflexivity|]. split; [done|]. split; [done|].
  exists ro, rm. split_and!; [done|reflexivity|done|reflexivity|].
  subst s4. st_simpl. fold rid. apply elem_of_app. right. by left.
Qed.

Lemma store_ok_basis_only_scene : store_ok MoreExamples.basis_only_scene.
Proof. apply store_ok_intro; apply (bool_decide_unpack _); vm_compute; exact I. Defined.

Lemma apply_all_modifiers_with_sk_basis_only_raises_witness :
  ∃ s' ro,
    SK_OT_apply_mods.apply_all_modifiers_with_sk [1] MoreExamples.basis_only_scene =
      (Raise AttributeError, s') ∧
    objects s' !! 1%nat = Some Examples.body_object ∧
    objects s' !! 200%nat = Some ro ∧ obj_name ro = "sk_receiver".
Proof.
  destruct (apply_all_modifiers_with_sk_basis_only_raises 1 [] Examples.body_object
              {| shape_keys :=
                   Some {| key_name := "Key";
                           key_blocks := [Examples.shape_key "Basis" false 0 1 0 0];
                           animation_data := None |};
                 geometry := Verts 0 |}
              {| key_name := "Key";
                 key_blocks := [Examples.shape_key "Basis" false 0 1 0 0];
                 animation_data := None |}
              MoreExamples.basis_only_scene)
    as (s' & Hrun & Ho & _ & ro & rm & Hro & Hname & _).
  - reflexivity.
  - reflexivity.
  - reflexivity.
  - reflexivity.
  - apply (bool_decide_unpack _). vm_compute. exact I.
  - exact store_ok_basis_only_scene.
  - exists s', ro. split_and!; [exact Hrun|exact Ho|exact Hro|exact Hname].
Defined.

(** X31.  A donor the host does not join.  When the shape of the first
    non-basis key of an object of the batch, with the accepted modifiers
    baked in, has another number of vertices than the mesh has under the
    same bake, the host passes over the donor without raising, and
    [apply_all_modifiers_with_sk] raises AttributeError at line 236: the
    receiver has no shape-key container yet.  The original object and its
    mesh are as they were, and both the receiver, named "sk_receiver",
    and the donor, named after the original with the suffix
    "_shapekey_1", stay behind in the scene, each with a mesh without
    shape keys and with the bake of its shape. *)
Theorem apply_all_modifiers_with_sk_join_refused_raises obj rest o m k sk1 s :
  objects s !! obj = Some o → meshes s !! data o = Some m → shape_keys m = Some k →
  obj_type o = MESH → key_blocks k !! 1%nat = Some sk1 →
  vertex_count s (baked (clear_control_edges <$> modifiers o) (sk_data sk1)) ≠
    vertex_count s (baked (clear_control_edges <$> modifiers o) (geometry m)) →
  NoDup (mod_name <$> modifiers o) → store_ok s →
  ∃ s',
    SK_OT_apply_mods.apply_all_modifiers_with_sk (obj :: rest) s = (Raise AttributeError, s') ∧
    objects s' !! obj = Some o ∧ meshes s' !! data o = Some m ∧
    (∃ ro rm,
       objects s' !! next_id s = Some ro ∧ obj_name ro = "sk_receiver" ∧
       next_id s ∈ scene_objects s' ∧
       meshes s' !! data ro = Some rm ∧ shape_keys rm = None ∧
       geometry rm = baked (clear_control_edges <$> modifiers o) (geometry m)) ∧
    (∃ bo bm,
       objects s' !! (next_id s + 2)%nat = Some bo ∧
       obj_name bo = obj_name o +:+ "_shapekey_1" ∧
       (next_id s + 2)%nat ∈ scene_objects s' ∧
       meshes s' !! data bo = Some bm ∧ shape_keys bm = None ∧
       geometry bm = baked (clear_control_edges <$> modifiers o) (sk_data sk1)).
Proof.
  intros Ho Hm Hk Htype Hsk1 Hcount Hnames (Hobs & Hmes & Hsel).
  assert (Hobj_lt : obj < next_id s) by (apply Hobs; by eexists).
  assert (Hdo_lt : data o < next_id s) by (apply Hmes; by eexists).
  set (rid := next_id s) in *.
  assert (Hr1 : rid ≠ obj) by (subst rid; lia).
  assert (Hr2 : S rid ≠ data o) by (subst rid; lia).
  destruct (lookup_lt_is_Some_2 (key_blocks k) 0) as [sk0 Hsk0];
    [apply lookup_lt_Some in Hsk1; lia|].
  set (oc := with_obj_name "sk_receiver" (object_copy_of rid o)).
  set (mc := {| shape_keys := None; geometry := geometry m |}).
  unfold SK_OT_apply_mods.apply_all_modifiers_with_sk. cbn [for_each].
  rewrite run_bind. unfold SK_OT_apply_mods.apply_with_sk.
  rewrite (bind_ok _ _ _ _ _ (obj_shape_keys_run _ _ _ _ Ho Hm)), Hk.
  rewrite (bind_ok _ _ _ _ _ (copy_object_0_run obj o m s Ho Hm ltac:(lia))). fold rid.
  rewrite run_bind, (update_object_run rid (object_copy_of rid o)) by lookup_tac.
  cbv beta iota. fold oc.
  rewrite run_bind.
  rewrite (apply_shapekey_valid rid oc m k 0 sk0); [|lookup_tac|st_simpl; by map_simpl|done|done].
  cbv beta iota. change (data oc) with (S rid). fold mc.
  rewrite run_bind, (apply_modifiers_run rid oc mc); [|lookup_tac|st_simpl; by map_simpl|done].
  cbv beta iota.
  set (s4 := apply_modifiers_result rid oc mc
               (upd_mesh (S rid) mc (upd_object rid oc (copy_result o m s)))).
  assert (Ho4 : objects s4 !! obj = Some o) by (subst s4; lookup_tac).
  assert (Hm4 : meshes s4 !! data o = Some m) by (subst s4; st_simpl; by map_simpl).
  set (ro := with_modifiers (filter (λ md, mod_type md = ARMATURE) (modifiers oc)) oc).
  set (rm := with_geometry (baked (clear_control_edges <$> modifiers oc) (geometry mc)) mc).
  assert (Hro4 : objects s4 !! rid = Some ro) by (subst s4; lookup_tac).
  assert (Hrm4 : meshes s4 !! data ro = Some rm) by (subst s4; st_simpl; by map_simpl).
  assert (Hn4 : next_id s4 = S (S rid)) by (subst s4; st_simpl; done).
  assert (Hv4 : vertex_count s4 = vertex_count s) by (subst s4; st_simpl; done).
  assert (Hsel4 : selected s4 = [rid]).
  { subst s4. st_simpl. fold rid. rewrite deselect_subseteq, select_nil; [done|].
    intros x Hx. apply elem_of_app. left. by apply Hsel. }
  assert (Hscn4 : scene_objects s4 = scene_objects s ++ [rid]) by (subst s4; st_simpl; done).
  rewrite run_bind, (obj_shape_keys_run obj o m s4 Ho4 Hm4), Hk. cbv beta iota.
  destruct (length (key_blocks k) - 1)%nat as [|n] eqn:Hlen;
    [apply lookup_lt_Some in Hsk1; lia|].
  rewrite run_bind.
  change (for_each ?l _ s4) with (for_each l (donor_body obj rid) s4).
  cbn [seq for_each]. rewrite run_bind.
  (* the first donor *)
  set (bid := next_id s4) in *.
  assert (Hb1 : bid ≠ obj) by lia.
  assert (Hb2 : bid ≠ rid) by lia.
  assert (Hb3 : S bid ≠ data o) by lia.
  assert (Hb4 : S bid ≠ S rid) by lia.
  set (bc := object_copy_of bid o).
  set (bmc := {| shape_keys := None; geometry := sk_data sk1 |}).
  set (bo := with_modifiers (filter (λ md, mod_type md = ARMATURE) (modifiers bc)) bc).
  set (bm := with_geometry (baked (clear_control_edges <$> modifiers bc) (geometry bmc)) bmc).
  set (s6 := apply_modifiers_result bid bc bmc (upd_mesh (S bid) bmc (copy_result o m s4))).
  assert (Hdonor : donor_body obj rid 1 s4 =
            (Raise AttributeError,
             build (objects s6) (meshes s6) [bid] (Some rid) (reports s6) (trace s6) s6)).
  { unfold donor_body.
    rewrite (bind_ok _ _ _ _ _ (key_block_run _ _ _ _ _ _ _ Ho4 Hm4 Hk Hsk1)).
    rewrite (bind_ok _ _ _ _ _ (copy_object_0_run obj o m s4 Ho4 Hm4 ltac:(fold bid; lia))).
    fold bid. fold bc.
    rewrite run_bind, (apply_shapekey_valid bid bc m k 1 sk1);
      [|lookup_tac|st_simpl; by map_simpl|done|done].
    cbv beta iota. change (data bc) with (S bid). fold bmc.
    rewrite run_bind, (apply_modifiers_run bid bc bmc);
      [|lookup_tac|st_simpl; by map_simpl|done].
    cbv beta iota. fold s6.
    assert (Hsel6 : selected s6 = [bid]).
    { subst s6. st_simpl. fold bid. rewrite deselect_subseteq, select_nil; [done|].
      rewrite Hsel4, Hscn4. intros x ->%list_elem_of_singleton.
      apply elem_of_app. left. apply elem_of_app. right. by left. }
    rewrite run_bind, (add_objs_shapekeys_run rid bid ro rm bo bm s6); cycle 1.
    { rewrite Hsel6. subst s6. st_simpl. fold bid.
      intros x ->%list_elem_of_singleton. apply elem_of_app. right. by left. }
    { subst s6. lookup_tac. }
    { subst s6. st_simpl. by map_simpl. }
    { subst s6. st_simpl. fold bid. by map_simpl. }
    { subst s6. st_simpl. fold bid. change (data bc) with (S bid).
      change (data ro) with (S rid). by map_simpl. }
    { done. }
    { done. }
    rewrite decide_False; cycle 1.
    { subst s6. st_simpl. rewrite Hv4. exact Hcount. }
    cbv beta iota.
    unfold SK_OT_apply_mods.restore_metadata, key_block.
    rewrite run_bind, run_bind, run_bind.
    rewrite (obj_shape_keys_run rid ro rm); cycle 1.
    { subst s6. lookup_tac. }
    { subst s6. st_simpl. fold bid. change (data bc) with (S bid).
      change (data ro) with (S rid). by map_simpl. }
    reflexivity. }
  rewrite Hdonor. cbv beta iota.
  eexists. split; [reflexivity|]. subst s6. st_simpl. fold bid.
  split_and!.
  - by map_simpl.
  - change (data bc) with (S bid). by map_simpl.
  - exists ro, rm. split_and!; [by map_simpl|reflexivity| | |reflexivity|reflexivity].
    + rewrite Hscn4. apply elem_of_app. left. apply elem_of_app. right. by left.
    + change (data bc) with (S bid). change (data ro) with (S rid). by map_simpl.
  - replace (rid + 2)%nat with bid by lia.
    exists bo, bm. split_and!; [by map_simpl|reflexivity| | |reflexivity|reflexivity].
    + apply elem_of_app. right. by left.
    + change (data bo) with (S bid). change (data bc) with (S bid). by map_simpl.
Qed.

Lemma store_ok_weld_scene : store_ok MoreExamples.weld_scene.
Proof. apply store_ok_intro; apply (bool_decide_unpack _); vm_compute; exact I. Defined.

Lemma apply_all_modifiers_with_sk_join_refused_raises_witness :
  ∃ s' ro bo,
    SK_OT_apply_mods.apply_all_modifiers_with_sk [1] MoreExamples.weld_scene =
      (Raise AttributeError, s') ∧
    objects s' !! 1%nat = Some MoreExamples.weld_object ∧
    objects s' !! 200%nat = Some ro ∧ obj_name ro = "sk_receiver" ∧
    objects s' !! 202%nat = Some bo ∧ obj_name bo = "Body_shapekey_1".
Proof.
  destruct (apply_all_modifiers_with_sk_join_refused_raises 1 [] MoreExamples.weld_object
              Examples.undriven_mesh Examples.undriven_key
              (Examples.shape_key "Smile" true 2 5 3 1) MoreExamples.weld_scene)
    as (s' & Hrun & Ho & _ & (ro & rm & Hro & Hname & _) & (bo & bm & Hbo & Hbname & _)).
  - reflexivity.
  - reflexivity.
  - reflexivity.
  - reflexivity.
  - reflexivity.
  - vm_compute. discriminate.
  - apply (bool_decide_unpack _). vm_compute. exact I.
  - exact store_ok_weld_scene.
  - exists s', ro, bo.
    split_and!; [exact Hrun|exact Ho|exact Hro|exact Hname|exact Hbo|exact Hbname].
Defined.

(** *** The operator [sk.apply_mods] on a selection it can process *)

Lemma mesh_comprehension l s :
  Forall (λ ob, is_Some (objects s !! ob)) l →
  comprehension l (λ obj,
    o ← get_object obj; mret (bool_decide (obj_type o = MESH))) s =
  (Ok (filter (λ ob, is_mesh s ob) l), s).
Proof.
  induction 1 as [|ob l [o Ho] _ IH]; [reflexivity|].
  cbn [comprehension]. rewrite run_bind.
  rewrite (bind_ok _ _ _ _ _ (get_object_run _ _ _ Ho)).
  cbn [mret Py_ret]. rewrite (bind_ok _ _ _ _ _ IH).
  assert (He : is_mesh s ob = bool_decide (obj_type o = MESH)).
  { unfold is_mesh. by rewrite Ho. }
  rewrite filter_cons, He. by destruct (bool_decide (obj_type o = MESH)).
Qed.

Lemma reset_steps_vertex_count targets : ∀ s,
  vertex_count (foldl (λ s t, reset_step t s) s targets) = vertex_count s.
Proof.
  induction targets as [|t targets IH]; intros s; [done|].
  cbn [foldl]. by rewrite IH.
Qed.

(** Resetting poses keeps a batch processable. *)
Lemma batch_ok_visit targets objs s s1 :
  objects s1 = visit reset_object targets (objects s) → meshes s1 = meshes s →
  selected s1 = selected s → scene_objects s1 = scene_objects s → next_id s1 = next_id s →
  vertex_count s1 = vertex_count s →
  batch_ok s objs → batch_ok s1 objs.
Proof.
  intros Hobj Hmesh Hsel Hscn Hnext Hvc ((Hobs & Hmes & Hsub) & Hnd & Hndm & Hall).
  assert (Hids : mesh_ids s1 objs = mesh_ids s objs).
  { unfold mesh_ids. apply list_omap_ext, Forall_Forall2_diag, Forall_forall.
    intros ob _. rewrite Hobj, lookup_visit. destruct (objects s !! ob) as [o|]; [|done].
    cbn. f_equal. apply iter_reset_object_fields. }
  unfold batch_ok, store_ok. rewrite Hids, Hmesh, Hsel, Hscn, Hnext.
  split_and!; [|done..|].
  - intros x. rewrite Hobj, lookup_visit, fmap_is_Some. apply Hobs.
  - apply Forall_forall. intros ob Hob. rewrite Forall_forall in Hall.
    destruct (Hall ob Hob) as (o & m & Ho & Hm & Htype & Hnames & Hin & Hkeys).
    pose proof (iter_reset_object_fields (occurrences ob targets) o) as (_ & Ht & Hd & Hmo & _).
    eexists _, m. split_and!.
    + by rewrite Hobj, lookup_visit, Ho.
    + by rewrite Hmesh, Hd.
    + by rewrite Ht.
    + by rewrite Hmo.
    + by rewrite Hscn.
    + intros k Hk. destruct (Hkeys k Hk) as (Hlen & Hjoin & Hdrv & Hnla).
      split_and!; [done| |done|done]. unfold joinable. rewrite Hvc, Hmo. apply Hjoin.
Qed.

(** X29.  The whole operator.  On a selection whose mesh objects form a batch
    the pipeline gets through ([batch_ok]: in particular, every key of
    an object gives, with the accepted modifiers baked in, as many
    vertices as its mesh, so that the host joins every donor, and no
    container has an NLA track), [sk.apply_mods] with action
    ALL_MODIFIERS_WITH_SHAPEKEYS returns FINISHED; every selected mesh
    with shape keys is gone and a receiver with its name, of type MESH
    and with as many shape keys has come; and with [reset_pose] on,
    every armature that is the first target of a selected mesh, and is
    not itself in the batch, ends with all its bones reset. *)
Theorem apply_mods_execute_with_sk reset s :
  Forall (λ ob, is_Some (objects s !! ob)) (selected s) →
  mesh_selection s ≠ [] →
  batch_ok s (mesh_selection s) →
  (reset = true → Forall (armature_ready s) (mesh_selection s)) →
  ∃ s',
    SK_OT_apply_mods.execute ALL_MODIFIERS_WITH_SHAPEKEYS reset s = (Ok FINISHED, s') ∧
    (∀ obj o m k,
       obj ∈ selected s → objects s !! obj = Some o → obj_type o = MESH →
       meshes s !! data o = Some m → shape_keys m = Some k →
       objects s' !! obj = None ∧
       ∃ rid ro rm rk,
         objects s' !! rid = Some ro ∧ obj_name ro = obj_name o ∧ obj_type ro = MESH ∧
         meshes s' !! data ro = Some rm ∧ shape_keys rm = Some rk ∧
         length (key_blocks rk) = length (key_blocks k)) ∧
    (reset = true →
     ∀ t, t ∈ first_targets s (mesh_selection s) → t ∉ mesh_selection s →
       ∃ rig bones, objects s' !! t = Some rig ∧ pose rig = Some bones ∧
                    Forall bone_is_reset bones).
Proof.
  intros Hsel Hne Hbatch Hready.
  set (objs := mesh_selection s) in *.
  set (targets := if reset then first_targets s objs else []).
  assert (Hpre : ∃ s1,
    (if reset then reset_armature_pose objs else mret tt) s = (Ok tt, s1) ∧
    objects s1 = visit reset_object targets (objects s) ∧ meshes s1 = meshes s ∧
    selected s1 = selected s ∧ scene_objects s1 = scene_objects s ∧
    next_id s1 = next_id s ∧ vertex_count s1 = vertex_count s).
  { subst targets. destruct reset.
    - rewrite (reset_armature_pose_run objs s (Hready eq_refl)).
      destruct (reset_steps_spec (first_targets s objs) s)
        as (Ho & _ & Hm & Hs & _ & _ & Hsc & Hn).
      eexists. split; [reflexivity|]. split_and!; try done.
      apply reset_steps_vertex_count.
    - exists s. split; [reflexivity|]. done. }
  destruct Hpre as (s1 & Hrun1 & Hobj1 & Hmesh1 & Hsel1 & Hscn1 & Hnext1 & Hvc1).
  pose proof (batch_ok_visit targets objs s s1 Hobj1 Hmesh1 Hsel1 Hscn1 Hnext1 Hvc1 Hbatch)
    as Hbatch1.
  destruct (apply_all_modifiers_with_sk_full objs s1 Hbatch1)
    as (s' & Hrun' & _ & (_ & _ & Ho2 & _) & _ & _ & Hmain).
  exists s'. split_and!.
  - unfold SK_OT_apply_mods.execute. rewrite run_bind. cbn [get_state].
    rewrite (bind_ok _ _ _ _ _ (mesh_comprehension (selected s) s Hsel)).
    fold (mesh_selection s). fold objs.
    unfold SK_OT_apply_mods.validate_input.
    rewrite decide_False by (by destruct objs). rewrite run_bind. cbn [mret Py_ret negb].
    rewrite run_bind, Hrun1. cbv beta iota. by rewrite run_bind, Hrun'.
  - intros obj o m k Hin Ho Ht Hm Hk.
    assert (Hob : obj ∈ objs).
    { apply list_elem_of_filter. split; [|done]. unfold is_mesh. rewrite Ho.
      by rewrite bool_decide_eq_true_2. }
    pose proof (iter_reset_object_fields (occurrences obj targets) o)
      as (Hname & Htype & Hdata & _).
    set (o1 := Nat.iter (occurrences obj targets) reset_object o) in *.
    assert (Ho1 : objects s1 !! obj = Some o1) by (by rewrite Hobj1, lookup_visit, Ho).
    assert (Hm1 : meshes s1 !! data o1 = Some m) by (by rewrite Hmesh1, Hdata).
    destruct (Hmain obj o1 m Hob Ho1 Hm1) as (rid & _ & Hres).
    unfold pass_result in Hres. rewrite Hk in Hres.
    destruct Hres as (Hgone & _ & ds' & _ & Hro & Hrm). split; [done|].
    eexists rid, (receiver_object o1 rid), (receiver_mesh o1 m k ds'), _.
    split_and!; [done|exact Hname|by rewrite <- Ht, <- Htype|done|reflexivity|].
    cbn [key_blocks]. rewrite receiver_blocks_length by lia.
    destruct Hbatch as (_ & _ & _ & Hall). rewrite Forall_forall in Hall.
    destruct (Hall obj Hob) as (o' & m' & Ho' & Hm' & _ & _ & _ & Hkeys).
    rewrite Ho in Ho'. injection Ho' as <-. rewrite Hm in Hm'. injection Hm' as <-.
    destruct (Hkeys k Hk) as [Hlen _]. lia.
  - intros -> t Ht Hnot. subst targets. cbv iota in Hobj1.
    destruct (visit_reset_target objs s t (Hready eq_refl) Ht)
      as (rig & bones & Hrig & Hpose & Hbones).
    exists rig, bones. split_and!; [|done|done].
    rewrite Ho2; [by rewrite Hobj1| |done].
    destruct Hbatch1 as ((Hobs1 & _) & _). apply Hobs1. rewrite Hobj1, Hrig. by eexists.
Qed.

Lemma mesh_selection_mixed_scene : mesh_selection Examples.mixed_scene = [1; 2; 3].
Proof. vm_compute. reflexivity. Defined.

Lemma armature_ready_mixed_scene :
  Forall (armature_ready Examples.mixed_scene) [1; 2; 3].
Proof.
  repeat constructor.
  - eexists. split; [reflexivity|]. intros t [= <-]. exists Examples.rig. by split; [|eexists].
  - eexists. split; [reflexivity|]. intros t [= <-]. exists Examples.rig. by split; [|eexists].
  - eexists. split; [reflexivity|]. intros t [=].
Defined.

Lemma apply_mods_execute_with_sk_witness :
  ∃ s' rid ro rig bones,
    SK_OT_apply_mods.execute ALL_MODIFIERS_WITH_SHAPEKEYS true Examples.mixed_scene =
      (Ok FINISHED, s') ∧
    objects s' !! 1%nat = None ∧
    objects s' !! rid = Some ro ∧ obj_name ro = "Body" ∧
    objects s' !! 10%nat = Some rig ∧ pose rig = Some bones ∧
    Forall bone_is_reset bones.
Proof.
  destruct (apply_mods_execute_with_sk true Examples.mixed_scene)
    as (s' & Hrun & Hkeyed & Hreset).
  - repeat constructor; by eexists.
  - rewrite mesh_selection_mixed_scene. discriminate.
  - rewrite mesh_selection_mixed_scene. exact mixed_scene_batch_ok.
  - intros _. rewrite mesh_selection_mixed_scene. exact armature_ready_mixed_scene.
  - destruct (Hkeyed 1 Examples.body_object Examples.body_mesh Examples.body_key)
      as (Hgone & rid & ro & rm & rk & Hro & Hname & _);
      [apply (bool_decide_unpack _); vm_compute; exact I|reflexivity..|].
    destruct (Hreset eq_refl 10) as (rig & bones & Hrig & Hpose & Hbones).
    + apply (bool_decide_unpack _). vm_compute. exact I.
    + apply (bool_decide_unpack _). vm_compute. exact I.
    + exists s', rid, ro, rig, bones.
      split_and!; [exact Hrun|exact Hgone|exact Hro|exact Hname|exact Hrig|exact Hpose|
                   exact Hbones].
Defined.

Lemma apply_all_modifiers_run objs s :
  NoDup objs → Forall (mesh_object_ok s) objs →
  ∃ s2 s',
    for_fold objs [] batch_body s = (Ok (filter (λ ob, keyed s ob) objs), s2) ∧
    SK_OT_apply_mods.apply_all_modifiers objs s = (Ok FINISHED, s') ∧
    selected s' = filter (λ ob, keyed s ob) objs ∧
    objects s' = objects s2 ∧ meshes s' = meshes s2.
Proof.
  intros Hnd Hok.
  destruct (batch_selection objs s [] Hnd Hok) as [s2 Hsel]. cbn [app] in Hsel.
  exists s2. unfold SK_OT_apply_mods.apply_all_modifiers.
  rewrite run_bind.
  change (for_fold objs [] _ s) with (for_fold objs [] batch_body s).
  rewrite Hsel. rewrite run_bind. cbn [select_all_DESELECT modify].
  rewrite run_bind, select_loop. cbn [mret Py_ret].
  eexists. split; [done|]. split; [reflexivity|]. st_simpl. split; [|done].
  apply (foldl_select _ []). cbn. by apply NoDup_filter.
Qed.

(** Resetting poses keeps the mesh objects of a batch what they were. *)
Lemma mesh_object_ok_visit targets objs s s1 :
  objects s1 = visit reset_object targets (objects s) → meshes s1 = meshes s →
  Forall (mesh_object_ok s) objs →
  Forall (mesh_object_ok s1) objs ∧
  filter (λ ob, keyed s1 ob) objs = filter (λ ob, keyed s ob) objs.
Proof.
  intros Hobj Hmesh Hok. rewrite Forall_forall in Hok.
  assert (Hsame : ∀ ob, ob ∈ objs → mesh_object_ok s1 ob ∧ keyed s1 ob = keyed s ob).
  { intros ob Hob. destruct (Hok ob Hob) as (o & m & Ho & Hm & Hnames).
    pose proof (iter_reset_object_fields (occurrences ob targets) o) as (_ & _ & Hd & Hmo & _).
    set (o1 := Nat.iter (occurrences ob targets) reset_object o) in *.
    assert (Ho1 : objects s1 !! ob = Some o1) by (by rewrite Hobj, lookup_visit, Ho).
    assert (Hm1 : meshes s1 !! data o1 = Some m) by (by rewrite Hmesh, Hd).
    split; [exists o1, m; by rewrite Hmo|].
    by rewrite (keyed_spec s1 ob o1 m Ho1 Hm1), (keyed_spec s ob o m Ho Hm). }
  split.
  - apply Forall_forall. intros ob Hob. by apply Hsame.
  - apply filter_ext_in. intros ob Hob. destruct (Hsame ob Hob) as [_ ->]. done.
Qed.

(** X30.  The operator with its default action.  On a selection whose mesh
    objects can be handed to [apply_modifiers], [sk.apply_mods] with
    action ALL_MODIFIERS returns FINISHED.  No mesh loses its shape
    keys; a selected mesh object without shape keys ends with its
    armature modifiers only; the selected mesh objects with shape keys
    are skipped and, in selection order, are the selection on return. *)
Theorem apply_mods_execute_all_modifiers reset s :
  Forall (λ ob, is_Some (objects s !! ob)) (selected s) →
  mesh_selection s ≠ [] → NoDup (mesh_selection s) →
  Forall (mesh_object_ok s) (mesh_selection s) →
  (reset = true → Forall (armature_ready s) (mesh_selection s)) →
  ∃ s',
    SK_OT_apply_mods.execute ALL_MODIFIERS reset s = (Ok FINISHED, s') ∧
    selected s' = filter (λ ob, keyed s ob) (mesh_selection s) ∧
    (∀ me m, meshes s !! me = Some m →
       ∃ m', meshes s' !! me = Some m' ∧ shape_keys m' = shape_keys m) ∧
    (∀ x o m, x ∈ mesh_selection s → objects s !! x = Some o →
       meshes s !! data o = Some m →
       ∃ o', objects s' !! x = Some o' ∧
         modifiers o' = match shape_keys m with
                        | Some _ => modifiers o
                        | None => filter (λ md, mod_type md = ARMATURE) (modifiers o)
                        end).
Proof.
  intros Hsel Hne Hnd Hok Hready.
  set (objs := mesh_selection s) in *.
  set (targets := if reset then first_targets s objs else []).
  assert (Hpre : ∃ s1,
    (if reset then reset_armature_pose objs else mret tt) s = (Ok tt, s1) ∧
    objects s1 = visit reset_object targets (objects s) ∧ meshes s1 = meshes s).
  { subst targets. destruct reset.
    - rewrite (reset_armature_pose_run objs s (Hready eq_refl)).
      destruct (reset_steps_spec (first_targets s objs) s) as (Ho & _ & Hm & _).
      eexists. split; [reflexivity|]. done.
    - exists s. split; [reflexivity|]. done. }
  destruct Hpre as (s1 & Hrun1 & Hobj1 & Hmesh1).
  destruct (mesh_object_ok_visit targets objs s s1 Hobj1 Hmesh1 Hok) as [Hok1 Hkeyed].
  destruct (apply_all_modifiers_run objs s1 Hnd Hok1)
    as (s2 & s' & Hfold & Hrun' & Hsel' & Hobj' & Hmesh').
  destruct (batch_run objs s1 [] Hnd Hok1)
    as (s2' & next' & rep & Hfold' & _ & _ & _ & Hmes & Hin).
  rewrite Hfold in Hfold'. injection Hfold' as _ <-.
  exists s'. split_and!.
  - unfold SK_OT_apply_mods.execute. rewrite run_bind. cbn [get_state].
    rewrite (bind_ok _ _ _ _ _ (mesh_comprehension (selected s) s Hsel)).
    fold (mesh_selection s). fold objs.
    unfold SK_OT_apply_mods.validate_input.
    rewrite decide_False by (by destruct objs). rewrite run_bind. cbn [mret Py_ret negb].
    rewrite run_bind, Hrun1. cbv beta iota.
    rewrite run_bind, run_bind, Hrun'. reflexivity.
  - by rewrite Hsel', Hkeyed.
  - intros me m Hm. rewrite Hmesh'. apply Hmes. by rewrite Hmesh1.
  - intros x o m Hx Ho Hm.
    pose proof (iter_reset_object_fields (occurrences x targets) o) as (_ & _ & Hd & Hmo & _).
    set (o1 := Nat.iter (occurrences x targets) reset_object o) in *.
    assert (Ho1 : objects s1 !! x = Some o1) by (by rewrite Hobj1, lookup_visit, Ho).
    assert (Hm1 : meshes s1 !! data o1 = Some m) by (by rewrite Hmesh1, Hd).
    specialize (Hin x o1 m Hx Ho1 Hm1). rewrite Hobj'.
    destruct (shape_keys m).
    + exists o1. by split.
    + destruct Hin as [Hin _]. eexists. split; [done|]. cbn. by rewrite Hmo.
Qed.

Lemma apply_mods_execute_all_modifiers_witness :
  ∃ s' o',
    SK_OT_apply_mods.execute ALL_MODIFIERS true Examples.mixed_scene = (Ok FINISHED, s') ∧
    selected s' = [1; 3] ∧
    objects s' !! 2%nat = Some o' ∧ mod_name <$> modifiers o' = ["Armature"].
Proof.
  destruct (apply_mods_execute_all_modifiers true Examples.mixed_scene)
    as (s' & Hrun & Hsel & _ & Hobjs).
  - repeat constructor; by eexists.
  - rewrite mesh_selection_mixed_scene. discriminate.
  - rewrite mesh_selection_mixed_scene. apply (bool_decide_unpack _). vm_compute. exact I.
  - rewrite mesh_selection_mixed_scene. repeat constructor.
    + eexists _, _. split_and!; [reflexivity..|].
      apply (bool_decide_unpack _). vm_compute. exact I.
    + eexists _, _. split_and!; [reflexivity..|].
      apply (bool_decide_unpack _). vm_compute. exact I.
    + eexists _, _. split_and!; [reflexivity..|].
      apply (bool_decide_unpack _). vm_compute. exact I.
  - intros _. rewrite mesh_selection_mixed_scene. exact armature_ready_mixed_scene.
  - destruct (Hobjs 2 (Examples.mesh_object "Cube" 102 Examples.body_stack) Examples.cube_mesh)
      as (o' & Ho' & Hmods);
      [apply (bool_decide_unpack _); vm_compute; exact I|reflexivity..|].
    exists s', o'. split_and!; [exact Hrun| |exact Ho'|].
    + rewrite Hsel. vm_compute. reflexivity.
    + rewrite Hmods. vm_compute. reflexivity.
Defined.
